(** * ccdb-tool: a shallow embedding of the compilation-database transformer

    The development follows [compilation_database_transformer/log_parser.py]
    and [tests/unit/skiplist_handler.py].  Python strings are [string]s,
    lists are [list]s, dictionaries whose order matters are association
    lists, exceptions are an explicit [result] type, and everything the
    program asks of the outside world (file system, compiler invocations)
    is gathered in one record of oracles, [World]. *)

From Stdlib Require Import Bool Arith NArith Lia List Ascii String.
From Stdlib Require Import OrdersEx RelationClasses.
Import ListNotations.
Open Scope list_scope.
Open Scope string_scope.

Set Implicit Arguments.

(** ** Python exceptions and results *)

Inductive exn : Type :=
| StopIteration
| ValueError
| KeyError
| TypeError
| IndexError
| OSError
| ReError.

Inductive result (A : Type) : Type :=
| OK (a : A)
| Raise (e : exn).

Arguments OK {A} a.
Arguments Raise {A} e.

Definition bind {A B : Type} (r : result A) (f : A -> result B) : result B :=
  match r with
  | OK a => f a
  | Raise e => Raise e
  end.

Notation "x <- c1 ;; c2" := (bind c1 (fun x => c2))
  (at level 61, c1 at next level, right associativity).

(** ** Pieces of the Python string library used by the program *)

Module PyStr.

Definition LF : ascii := "010"%char.
Definition CR : ascii := "013"%char.
Definition TAB : ascii := "009"%char.

(** [s.startswith(p)] *)
Fixpoint startswith (s p : string) {struct p} : bool :=
  match p with
  | "" => true
  | String a p' =>
      match s with
      | "" => false
      | String b s' => Ascii.eqb a b && startswith s' p'
      end
  end.

(** [sub in s] *)
Fixpoint contains (sub s : string) : bool :=
  startswith s sub ||
  match s with
  | "" => false
  | String _ s' => contains sub s'
  end.

Fixpoint rev_string (acc s : string) : string :=
  match s with
  | "" => acc
  | String c s' => rev_string (String c acc) s'
  end.

Definition endswith (s p : string) : bool :=
  startswith (rev_string "" s) (rev_string "" p).

(** [s[n:]] *)
Fixpoint drop (n : nat) (s : string) : string :=
  match n, s with
  | O, _ => s
  | S n', String _ s' => drop n' s'
  | S _, "" => ""
  end.

(** [s[:n]] *)
Fixpoint take (n : nat) (s : string) : string :=
  match n, s with
  | S n', String c s' => String c (take n' s')
  | _, _ => ""
  end.

(** [str.isspace] on one character (code points below 256). *)
Definition isspace (c : ascii) : bool :=
  let n := nat_of_ascii c in
  (((9 <=? n) && (n <=? 13)) || ((28 <=? n) && (n <=? 32))
   || (n =? 133) || (n =? 160))%nat.

Fixpoint lstrip (s : string) : string :=
  match s with
  | "" => ""
  | String c s' => if isspace c then lstrip s' else s
  end.

Fixpoint rstrip (s : string) : string :=
  match s with
  | "" => ""
  | String c s' =>
      let r := rstrip s' in
      if (r =? "") && isspace c then "" else String c r
  end.

Definition strip (s : string) : string := lstrip (rstrip s).

(** Line boundaries of [str.splitlines]. *)
Definition is_linebreak (c : ascii) : bool :=
  let n := nat_of_ascii c in
  (((10 <=? n) && (n <=? 13)) || ((28 <=? n) && (n <=? 30))
   || (n =? 133))%nat.

Fixpoint splitlines_go (after_cr : bool) (cur : string) (s : string)
  : list string :=
  match s with
  | "" => if cur =? "" then [] else [cur]
  | String c s' =>
      if after_cr && Ascii.eqb c LF && (cur =? "")
      then splitlines_go false "" s'
      else if is_linebreak c
           then cur :: splitlines_go (Ascii.eqb c CR) "" s'
           else splitlines_go false (cur ++ String c "") s'
  end.

Definition splitlines (s : string) : list string :=
  splitlines_go false "" s.

(** [sep.join(l)] *)
Definition join (sep : string) (l : list string) : string :=
  String.concat sep l.

Definition lower_char (c : ascii) : ascii :=
  let n := nat_of_ascii c in
  if ((65 <=? n) && (n <=? 90))%nat then ascii_of_nat (n + 32) else c.

Fixpoint lower (s : string) : string :=
  match s with
  | "" => ""
  | String c s' => String (lower_char c) (lower s')
  end.

(** [s.split(sep)] for a one-character separator. *)
Fixpoint split_go (sep : ascii) (cur : string) (s : string) : list string :=
  match s with
  | "" => [cur]
  | String c s' =>
      if Ascii.eqb c sep then cur :: split_go sep "" s'
      else split_go sep (cur ++ String c "") s'
  end.

Definition split (sep : ascii) (s : string) : list string :=
  split_go sep "" s.

(** [s.rfind(c)], [None] standing for [-1]. *)
Fixpoint rfind_go (c : ascii) (i : nat) (best : option nat) (s : string)
  : option nat :=
  match s with
  | "" => best
  | String d s' =>
      rfind_go c (S i) (if Ascii.eqb d c then Some i else best) s'
  end.

Definition rfind (c : ascii) (s : string) : option nat :=
  rfind_go c 0 None s.

Definition mem (x : string) (l : list string) : bool :=
  existsb (String.eqb x) l.

(** [s.find(sub)], [None] standing for [-1]. *)
Fixpoint find_go (sub : string) (i : nat) (s : string) : option nat :=
  if startswith s sub then Some i
  else match s with
       | "" => None
       | String _ s' => find_go sub (S i) s'
       end.

Definition find (sub s : string) : option nat := find_go sub 0 s.

(** [s.split()]: the maximal runs of characters that are not white
    space. *)
Fixpoint split_ws_go (cur : string) (s : string) : list string :=
  match s with
  | "" => if cur =? "" then [] else [cur]
  | String c s' =>
      if isspace c
      then if cur =? "" then split_ws_go "" s'
           else cur :: split_ws_go "" s'
      else split_ws_go (cur ++ String c "") s'
  end.

Definition split_ws (s : string) : list string := split_ws_go "" s.

End PyStr.

(** ** [posixpath] *)

Module PosixPath.
Import PyStr.

Definition sep : ascii := "/"%char.

(** [os.path.join(a, b)] *)
Definition join (a b : string) : string :=
  if startswith b "/" then b
  else if (a =? "") || endswith a "/" then a ++ b
  else a ++ "/" ++ b.

(** [os.path.basename] *)
Definition basename (p : string) : string :=
  match rfind sep p with
  | Some i => drop (S i) p
  | None => p
  end.

(** The loop of [genericpath._splitext] that skips leading dots:
    it answers whether some character of [p[i:dot]] is not a dot. *)
Fixpoint has_non_dot (n : nat) (s : string) : bool :=
  match n, s with
  | S n', String c s' =>
      if Ascii.eqb c "."%char then has_non_dot n' s' else true
  | _, _ => false
  end.

(** [os.path.splitext] *)
Definition splitext (p : string) : string * string :=
  let filenameIndex :=
    match rfind sep p with Some i => S i | None => 0 end in
  match rfind "."%char p with
  | Some dotIndex =>
      if (filenameIndex <=? dotIndex)%nat
         && has_non_dot (dotIndex - filenameIndex) (drop filenameIndex p)
      then (take dotIndex p, drop dotIndex p)
      else (p, "")
  | None => (p, "")
  end.

Definition last_is_dotdot (comps : list string) : bool :=
  match rev comps with
  | c :: _ => c =? ".."
  | [] => false
  end.

(** The component loop of [normpath]; [new_comps] is kept in order. *)
Fixpoint norm_comps (initial_slashes : nat) (new_comps comps : list string)
  : list string :=
  match comps with
  | [] => new_comps
  | comp :: rest =>
      if (comp =? "") || (comp =? ".")
      then norm_comps initial_slashes new_comps rest
      else if negb (comp =? "..")
              || ((initial_slashes =? 0)%nat
                  && match new_comps with [] => true | _ => false end)
              || last_is_dotdot new_comps
           then norm_comps initial_slashes (new_comps ++ [comp])%list rest
           else norm_comps initial_slashes (removelast new_comps) rest
  end.

(** [os.path.normpath] *)
Definition normpath (path : string) : string :=
  if path =? "" then "."
  else
    let initial_slashes :=
      if startswith path "/"
      then if startswith path "//" && negb (startswith path "///")
           then 2 else 1
      else 0 in
    let comps := norm_comps initial_slashes [] (split sep path) in
    let body := PyStr.join "/" comps in
    let res :=
      match initial_slashes with
      | 0 => body
      | 1 => "/" ++ body
      | _ => "//" ++ body
      end in
    if res =? "" then "." else res.

End PosixPath.

(** ** The fragment of [re] used by the option tables

    Patterns are kept as the strings of the source and compiled by
    [Re.compile]; the matcher is a backtracking one with the priorities of
    Python's ([|] tries the left branch first, [?], [*] and [+] are
    greedy), so that [group(0)] is the text Python would report. *)

Module Re.
Import PyStr.

Inductive regex : Type :=
| Eps
| Chr (c : ascii)
| Dot
| Cls (neg : bool) (items : list (ascii * ascii))
| Eol
| Seq (r1 r2 : regex)
| Alt (r1 r2 : regex)
| Opt (r : regex)
| Star (r : regex)
| Plus (r : regex).

(** A pattern that matches nothing, for a pattern string outside the
    fragment. *)
Definition never : regex := Cls false [].

Definition in_range (d : ascii) (item : ascii * ascii) : bool :=
  (Nat.leb (nat_of_ascii (fst item)) (nat_of_ascii d))
  && (Nat.leb (nat_of_ascii d) (nat_of_ascii (snd item))).

(** Continuations receive the number of characters consumed so far and
    the rest of the subject; the answer is the end of the match. *)
Definition cont : Type := nat -> string -> option nat.

Definition orelse (a : option nat) (b : option nat) : option nat :=
  match a with
  | Some x => Some x
  | None => b
  end.

Fixpoint star (step : nat -> string -> cont -> option nat)
         (fuel : nat) (pos : nat) (s : string) (k : cont) : option nat :=
  match fuel with
  | O => k pos s
  | S fuel' =>
      orelse
        (step pos s (fun pos' s' =>
                       if Nat.ltb pos pos' then star step fuel' pos' s' k
                       else None))
        (k pos s)
  end.

Fixpoint run (r : regex) (pos : nat) (s : string) (k : cont)
  : option nat :=
  match r with
  | Eps => k pos s
  | Chr c =>
      match s with
      | String d s' => if Ascii.eqb c d then k (S pos) s' else None
      | "" => None
      end
  | Dot =>
      match s with
      | String d s' => if Ascii.eqb d LF then None else k (S pos) s'
      | "" => None
      end
  | Cls neg items =>
      match s with
      | String d s' =>
          if xorb neg (existsb (in_range d) items) then k (S pos) s'
          else None
      | "" => None
      end
  | Eol =>
      match s with
      | "" => k pos s
      | String d "" => if Ascii.eqb d LF then k pos s else None
      | _ => None
      end
  | Seq r1 r2 => run r1 pos s (fun pos' s' => run r2 pos' s' k)
  | Alt r1 r2 => orelse (run r1 pos s k) (run r2 pos s k)
  | Opt r1 => orelse (run r1 pos s k) (k pos s)
  | Star r1 => star (run r1) (String.length s) pos s k
  | Plus r1 =>
      run r1 pos s (fun pos' s' => star (run r1) (String.length s') pos' s' k)
  end.

(** [pattern.match(s)]: the end of the match at the start of [s]. *)
Definition match_ (r : regex) (s : string) : option nat :=
  run r 0 s (fun pos _ => Some pos).

(** Truth value of [pattern.match(s)]. *)
Definition matches (r : regex) (s : string) : bool :=
  match match_ r s with
  | Some _ => true
  | None => false
  end.

(** *** Pattern syntax *)

Definition seq (a r : regex) : regex :=
  match r with
  | Eps => a
  | _ => Seq a r
  end.

Definition is_alnum (c : ascii) : bool :=
  let n := nat_of_ascii c in
  (Nat.leb 48 n && Nat.leb n 57) || (Nat.leb 65 n && Nat.leb n 90)
  || (Nat.leb 97 n && Nat.leb n 122).

(** Items of a character class up to the closing bracket. *)
Fixpoint parse_class (s : string)
  : option (list (ascii * ascii) * string) :=
  match s with
  | "" => None
  | String "]" rest => Some ([], rest)
  | String a (String "-" (String b rest)) =>
      if Ascii.eqb b "]" then Some ([(a, a); ("-"%char, "-"%char)], rest)
      else match parse_class rest with
           | Some (items, rest') => Some ((a, b) :: items, rest')
           | None => None
           end
  | String a rest =>
      match parse_class rest with
      | Some (items, rest') => Some ((a, a) :: items, rest')
      | None => None
      end
  end.

Fixpoint postfix (r : regex) (s : string) : regex * string :=
  match s with
  | String "?" s' => postfix (Opt r) s'
  | String "*" s' => postfix (Star r) s'
  | String "+" s' => postfix (Plus r) s'
  | _ => (r, s)
  end.

Fixpoint parse_alt (n : nat) (s : string) : option (regex * string) :=
  match n with
  | O => None
  | S n' =>
      match parse_seq n' s with
      | Some (r1, String "|" s1) =>
          match parse_alt n' s1 with
          | Some (r2, s2) => Some (Alt r1 r2, s2)
          | None => None
          end
      | other => other
      end
  end
with parse_seq (n : nat) (s : string) : option (regex * string) :=
  match n with
  | O => None
  | S n' =>
      match s with
      | "" => Some (Eps, s)
      | String "|" _ => Some (Eps, s)
      | String ")" _ => Some (Eps, s)
      | _ =>
          match parse_atom n' s with
          | Some (a, s1) =>
              let (a', s2) := postfix a s1 in
              match parse_seq n' s2 with
              | Some (r, s3) => Some (seq a' r, s3)
              | None => None
              end
          | None => None
          end
      end
  end
with parse_atom (n : nat) (s : string) : option (regex * string) :=
  match n with
  | O => None
  | S n' =>
      match s with
      | "" => None
      | String "(" s1 =>
          match parse_alt n' s1 with
          | Some (r, String ")" s2) => Some (r, s2)
          | _ => None
          end
      | String "[" (String "^" s1) =>
          match parse_class s1 with
          | Some (items, s2) => Some (Cls true items, s2)
          | None => None
          end
      | String "[" s1 =>
          match parse_class s1 with
          | Some (items, s2) => Some (Cls false items, s2)
          | None => None
          end
      | String "\" (String c s1) =>
          if is_alnum c then None else Some (Chr c, s1)
      | String "\" "" => None
      | String "." s1 => Some (Dot, s1)
      | String "$" s1 => Some (Eol, s1)
      | String "?" _ | String "*" _ | String "+" _ => None
      | String c s1 => Some (Chr c, s1)
      end
  end.

(** [re.compile(p)], inside the fragment. *)
Definition compile (p : string) : option regex :=
  match parse_alt (4 * String.length p + 4) p with
  | Some (r, "") => Some r
  | _ => None
  end.

Definition compile_or_never (p : string) : regex :=
  match compile p with
  | Some r => r
  | None => never
  end.

End Re.

(** ** [shlex.split] (POSIX mode, no comments, split on white space only) *)

Module Shlex.

Inductive lexstate : Type :=
| InSpace
| InWord
| InQuote (q : ascii)
| InEscape (escapedstate : option ascii).

Definition is_whitespace (c : ascii) : bool :=
  Ascii.eqb c " " || Ascii.eqb c PyStr.TAB
  || Ascii.eqb c PyStr.CR || Ascii.eqb c PyStr.LF.

Definition is_quote (c : ascii) : bool :=
  Ascii.eqb c "'" || Ascii.eqb c "034".

Definition is_escape (c : ascii) : bool := Ascii.eqb c "\".

Definition push (tok : string) (c : ascii) : string := tok ++ String c "".

(** The token loop of [shlex.read_token], run over the whole input.
    [quoted] and [tok] are the variables of the same names. *)
Fixpoint lex (st : lexstate) (quoted : bool) (tok : string) (s : string)
  : result (list string) :=
  match s with
  | "" =>
      match st with
      | InSpace => OK []
      | InWord => OK (if negb (tok =? "") || quoted then [tok] else [])
      | InQuote _ => Raise ValueError
      | InEscape _ => Raise ValueError
      end
  | String c s' =>
      match st with
      | InSpace =>
          if is_whitespace c then lex InSpace false "" s'
          else if is_escape c then lex (InEscape None) false "" s'
          else if is_quote c then lex (InQuote c) true "" s'
          else lex InWord false (String c "") s'
      | InQuote q =>
          if Ascii.eqb c q then lex InWord true tok s'
          else if is_escape c && Ascii.eqb q "034"
               then lex (InEscape (Some q)) true tok s'
               else lex (InQuote q) true (push tok c) s'
      | InEscape escapedstate =>
          match escapedstate with
          | Some q =>
              let tok' :=
                if negb (is_escape c) && negb (Ascii.eqb c q)
                then push tok "\" else tok in
              lex (InQuote q) quoted (push tok' c) s'
          | None => lex InWord quoted (push tok c) s'
          end
      | InWord =>
          if is_whitespace c
          then if negb (tok =? "") || quoted
               then toks <- lex InSpace false "" s' ;; OK (tok :: toks)
               else lex InSpace false "" s'
          else if is_quote c then lex (InQuote c) true tok s'
          else if is_escape c then lex (InEscape None) quoted tok s'
          else lex InWord quoted (push tok c) s'
      end
  end.

Definition split (s : string) : result (list string) :=
  lex InSpace false "" s.

End Shlex.

(** ** Association lists standing for Python dictionaries

    Insertion keeps the position of a key that is already present and
    appends a new key at the end, as a [dict] does. *)

Section Alist.
Variables K V : Type.
Variable eqb : K -> K -> bool.

Fixpoint alist_get (k : K) (l : list (K * V)) : option V :=
  match l with
  | [] => None
  | (k', v) :: l' => if eqb k k' then Some v else alist_get k l'
  end.

Fixpoint alist_set (k : K) (v : V) (l : list (K * V)) : list (K * V) :=
  match l with
  | [] => [(k, v)]
  | (k', v') :: l' =>
      if eqb k k' then (k, v) :: l' else (k', v') :: alist_set k v l'
  end.

Definition alist_mem (k : K) (l : list (K * V)) : bool :=
  match alist_get k l with
  | Some _ => true
  | None => false
  end.

Definition alist_values (l : list (K * V)) : list V := map snd l.
End Alist.

Definition option_string_eqb (a b : option string) : bool :=
  match a, b with
  | Some x, Some y => x =? y
  | None, None => true
  | _, _ => false
  end.

(** ** The data of [log_parser.py] *)

(** Per-language entry of [ImplicitCompilerInfo.compiler_info] and of the
    compiler-info file.  A field is [None] when the key is missing or
    holds [None]. *)
Record lang_data : Type := {
  ld_compiler_includes : option (list string);
  ld_compiler_standard : option string;
  ld_target : option string
}.

Definition empty_lang_data : lang_data :=
  {| ld_compiler_includes := None;
     ld_compiler_standard := None;
     ld_target := None |}.

(** Truth value of a language dictionary: it is not empty.  A dictionary
    of the compiler-info file is taken to have no other key than the three
    of the record, and no key that holds [None]. *)
Definition lang_data_nonempty (d : lang_data) : bool :=
  match ld_compiler_includes d, ld_compiler_standard d, ld_target d with
  | None, None, None => false
  | _, _, _ => true
  end.

(** [compiler_info[compiler]]: language to data. *)
Definition compiler_data : Type := list (string * lang_data).

(** [ImplicitCompilerInfo.compiler_info], and the object stored in the
    compiler-info file ([json.dump] writes the former as the latter). *)
Definition compiler_info_t : Type := list (string * compiler_data).

Inductive ActionType : Type := COMPILE | PREPROCESS | LINK | INFO.

(** The dictionary [details] of [parse_options]; the [BuildAction] made
    from it keeps its entries as attributes. *)
Record details : Type := {
  analyzer_options : list string;
  compiler_includes : list (string * option (list string));
  compiler_standard : list (string * option string);
  original_command : string;
  directory : string;
  output : string;
  lang : option string;
  arch : string;
  target : list (option string * option string);
  source : string;
  action_type : option ActionType;
  compiler : string
}.

(** Assignments [details[key] = v]. *)
Definition with_analyzer_options (v : list string)
           (d : details) : details :=
  {| analyzer_options := v;
     compiler_includes := compiler_includes d;
     compiler_standard := compiler_standard d;
     original_command := original_command d;
     directory := directory d;
     output := output d;
     lang := lang d;
     arch := arch d;
     target := target d;
     source := source d;
     action_type := action_type d;
     compiler := compiler d |}.

Definition with_compiler_includes (v : list (string * option (list string)))
           (d : details) : details :=
  {| analyzer_options := analyzer_options d;
     compiler_includes := v;
     compiler_standard := compiler_standard d;
     original_command := original_command d;
     directory := directory d;
     output := output d;
     lang := lang d;
     arch := arch d;
     target := target d;
     source := source d;
     action_type := action_type d;
     compiler := compiler d |}.

Definition with_compiler_standard (v : list (string * option string))
           (d : details) : details :=
  {| analyzer_options := analyzer_options d;
     compiler_includes := compiler_includes d;
     compiler_standard := v;
     original_command := original_command d;
     directory := directory d;
     output := output d;
     lang := lang d;
     arch := arch d;
     target := target d;
     source := source d;
     action_type := action_type d;
     compiler := compiler d |}.

Definition with_output (v : string)
           (d : details) : details :=
  {| analyzer_options := analyzer_options d;
     compiler_includes := compiler_includes d;
     compiler_standard := compiler_standard d;
     original_command := original_command d;
     directory := directory d;
     output := v;
     lang := lang d;
     arch := arch d;
     target := target d;
     source := source d;
     action_type := action_type d;
     compiler := compiler d |}.

Definition with_lang (v : option string)
           (d : details) : details :=
  {| analyzer_options := analyzer_options d;
     compiler_includes := compiler_includes d;
     compiler_standard := compiler_standard d;
     original_command := original_command d;
     directory := directory d;
     output := output d;
     lang := v;
     arch := arch d;
     target := target d;
     source := source d;
     action_type := action_type d;
     compiler := compiler d |}.

Definition with_arch (v : string)
           (d : details) : details :=
  {| analyzer_options := analyzer_options d;
     compiler_includes := compiler_includes d;
     compiler_standard := compiler_standard d;
     original_command := original_command d;
     directory := directory d;
     output := output d;
     lang := lang d;
     arch := v;
     target := target d;
     source := source d;
     action_type := action_type d;
     compiler := compiler d |}.

Definition with_target (v : list (option string * option string))
           (d : details) : details :=
  {| analyzer_options := analyzer_options d;
     compiler_includes := compiler_includes d;
     compiler_standard := compiler_standard d;
     original_command := original_command d;
     directory := directory d;
     output := output d;
     lang := lang d;
     arch := arch d;
     target := v;
     source := source d;
     action_type := action_type d;
     compiler := compiler d |}.

Definition with_source (v : string)
           (d : details) : details :=
  {| analyzer_options := analyzer_options d;
     compiler_includes := compiler_includes d;
     compiler_standard := compiler_standard d;
     original_command := original_command d;
     directory := directory d;
     output := output d;
     lang := lang d;
     arch := arch d;
     target := target d;
     source := v;
     action_type := action_type d;
     compiler := compiler d |}.

Definition with_action_type (v : option ActionType)
           (d : details) : details :=
  {| analyzer_options := analyzer_options d;
     compiler_includes := compiler_includes d;
     compiler_standard := compiler_standard d;
     original_command := original_command d;
     directory := directory d;
     output := output d;
     lang := lang d;
     arch := arch d;
     target := target d;
     source := source d;
     action_type := v;
     compiler := compiler d |}.

Definition with_original_command (v : string)
           (d : details) : details :=
  {| analyzer_options := analyzer_options d;
     compiler_includes := compiler_includes d;
     compiler_standard := compiler_standard d;
     original_command := v;
     directory := directory d;
     output := output d;
     lang := lang d;
     arch := arch d;
     target := target d;
     source := source d;
     action_type := action_type d;
     compiler := compiler d |}.

Definition with_directory (v : string)
           (d : details) : details :=
  {| analyzer_options := analyzer_options d;
     compiler_includes := compiler_includes d;
     compiler_standard := compiler_standard d;
     original_command := original_command d;
     directory := v;
     output := output d;
     lang := lang d;
     arch := arch d;
     target := target d;
     source := source d;
     action_type := action_type d;
     compiler := compiler d |}.

Definition with_compiler (v : string)
           (d : details) : details :=
  {| analyzer_options := analyzer_options d;
     compiler_includes := compiler_includes d;
     compiler_standard := compiler_standard d;
     original_command := original_command d;
     directory := directory d;
     output := output d;
     lang := lang d;
     arch := arch d;
     target := target d;
     source := source d;
     action_type := action_type d;
     compiler := v |}.

Definition BuildAction : Type := details.

(** What the program asks of its environment.  The caches
    [compiler_isexecutable] and [compiler_versions] store earlier answers
    of [find_executable] and of the version query, so the oracles are read
    directly. *)
Record World : Type := {
  (** [find_executable(c) is not None] *)
  find_executable : string -> bool;
  (** truth value of the version information [clangsa_version.get] gives
      for a compiler, [false] when the query fails *)
  clang_version_info : string -> bool;
  (** [__get_compiler_err(cmd)]: standard error of the command, [None]
      when it cannot be run *)
  compiler_err : string -> option string;
  (** standard error of compiling the standard probe of a language (the
      name of the temporary source is not fixed) *)
  standard_probe_err : string -> string -> option string;
  (** [os.path.exists], [os.path.isdir] *)
  path_exists : string -> bool;
  path_isdir : string -> bool;
  (** [glob.glob(os.path.join(d, "*intrin.h"))] is not empty *)
  has_intrin_header : string -> bool;
  (** content of a text file, [None] when [open] fails with an
      [OSError], as it does for a directory *)
  read_text : string -> option string;
  (** [load_json_or_empty(filename, {})] *)
  load_json_or_empty : string -> compiler_info_t;
  (** truth value of [gcc_toolchain.toolchain_in_args(options)] *)
  toolchain_in_args : list string -> bool;
  (** [re.compile(pattern)] returns, it does not raise [re.error] *)
  re_compiles : string -> bool;
  (** truth value of [re.compile(pattern).match(s)], for the pattern of
      the regex uniqueing policy *)
  re_match : string -> string -> bool;
  (** the dictionary key that the bound method [action.__hash__] stands
      for; class [BuildAction] is not among the sources, and the key is
      read from the content of the action: a key that tells apart two
      objects of the same content is outside this oracle *)
  action_hash : BuildAction -> string
}.

(** A compilation database entry. *)
Record db_entry : Type := {
  e_directory : string;
  e_file : string;
  e_command : option string;
  e_arguments : option (list string)
}.

(** ** Option tables *)

Definition SOURCE_EXTENSIONS : list string :=
  [".c"; ".cc"; ".cp"; ".cpp"; ".cxx"; ".c++"; ".o"; ".so"; ".a"].

Definition REPLACE_OPTIONS_MAP : list (string * list string) :=
  [("-mips32", ["-target"; "mips"; "-mips32"]);
   ("-mips64", ["-target"; "mips64"; "-mips64"]);
   ("-mpowerpc", ["-target"; "powerpc"]);
   ("-mpowerpc64", ["-target"; "powerpc64"])].

Definition IGNORED_OPTIONS_CLANG_list : list string :=
  ["-Werror"; "-pedantic-errors"; "-w"].

Definition IGNORED_OPTIONS_GCC_list : list string :=
  ["-fallow-fetchr-insn"; "-fcall-saved-"; "-fcond-mismatch";
   "-fconserve-stack"; "-fcrossjumping"; "-fcse-follow-jumps";
   "-fcse-skip-blocks"; "-ffixed-r2"; "-ffp$"; "-fgcse-lm";
   "-fhoist-adjacent-loads"; "-findirect-inlining"; "-finline-limit";
   "-finline-local-initialisers"; "-fipa-sra";
   "-fno-aggressive-loop-optimizations"; "-fno-delete-null-pointer-checks";
   "-fno-jump-table"; "-fno-keep-static-consts"; "-fno-strength-reduce";
   "-fno-toplevel-reorder"; "-fno-unit-at-a-time";
   "-fno-var-tracking-assignments"; "-fobjc-link-runtime";
   "-fpartial-inlining"; "-fpeephole2"; "-fr$"; "-fregmove";
   "-frename-registers"; "-freorder-functions"; "-frerun-cse-after-loop";
   "-fs$"; "-fsched-spec"; "-fstack-reuse"; "-fthread-jumps"; "-ftree-pre";
   "-ftree-switch-conversion"; "-ftree-tail-merge"; "-m(no-)?abm";
   "-m(no-)?sdata"; "-m(no-)?spe"; "-m(no-)?string$"; "-m(no-)?dsbt";
   "-m(no-)?fixed-ssp"; "-m(no-)?pointers-to-nested-functions";
   "-mpcrel-func-addr"; "-maccumulate-outgoing-args"; "-mcall-aixdesc";
   "-mppa3-addr-bug"; "-mtraceback="; "-mtext="; "-misa=";
   "-mfunction-return="; "-mindirect-branch-register"; "-mindirect-branch=";
   "-mfix-cortex-m3-ldrd$"; "-mmultiple$"; "-msahf$"; "-mthumb-interwork$";
   "-mupdate$";
   "-mapcs"; "-fno-merge-const-bfstores$"; "-fno-ipa-sra$";
   "-mno-thumb-interwork$";
   "-mno-sched-prolog";
   "-DNDEBUG$";
   "-save-temps";
   "-Werror"; "-pedantic-errors";
   "-w"; "-g(.+)?$";
   "-flto";
   "-mxl";
   "-mfloat-gprs"; "-mabi"].

Definition IGNORED_OPTIONS_GCC : Re.regex :=
  Eval vm_compute in
    Re.compile_or_never (PyStr.join "|" IGNORED_OPTIONS_GCC_list).

Definition IGNORED_OPTIONS_CLANG : Re.regex :=
  Eval vm_compute in
    Re.compile_or_never (PyStr.join "|" IGNORED_OPTIONS_CLANG_list).

Definition IGNORED_PARAM_OPTIONS_list : list (string * nat) :=
  [("-install_name", 1); ("-exported_symbols_list", 1);
   ("-current_version", 1); ("-compatibility_version", 1);
   ("-init$", 1); ("-e$", 1); ("-seg1addr", 1); ("-bundle_loader", 1);
   ("-multiply_defined", 1); ("-sectorder", 3); ("--param$", 1);
   ("-u$", 1); ("--serialize-diagnostics", 1); ("-framework", 1);
   ("-filelist", 1)].

Definition IGNORED_PARAM_OPTIONS : list (Re.regex * nat) :=
  Eval vm_compute in
    map (fun pn => (Re.compile_or_never (fst pn), snd pn))
        IGNORED_PARAM_OPTIONS_list.

Definition COMPILE_OPTIONS_list : list string :=
  ["-nostdinc"; "-nostdinc\+\+"; "-pedantic"; "-O[1-3]"; "-Os"; "-std=";
   "-stdlib="; "-f"; "-m"; "-Wno-"; "--sysroot="; "--gcc-toolchain="].

Definition COMPILE_OPTIONS : Re.regex :=
  Eval vm_compute in
    Re.compile_or_never (PyStr.join "|" COMPILE_OPTIONS_list).

Definition COMPILE_OPTIONS_MERGED_list : list string :=
  ["--sysroot"; "--include"; "-include"; "-iquote"; "-[DIUF]"; "-idirafter";
   "-isystem"; "-macros"; "-isysroot"; "-iprefix"; "-iwithprefix";
   "-iwithprefixbefore"].

Definition INCLUDE_OPTIONS_MERGED_list : list string :=
  ["-iquote"; "-[IF]"; "-isystem"; "-iprefix"; "-iwithprefix";
   "-iwithprefixbefore"].

Definition XCLANG_FLAGS_TO_SKIP : list string :=
  ["-module-file-info"; "-S"; "-emit-llvm"; "-emit-llvm-bc";
   "-emit-llvm-only"; "-emit-llvm-uselists"; "-rewrite-objc"].

Definition COMPILE_OPTIONS_MERGED : Re.regex :=
  Eval vm_compute in
    Re.compile_or_never
      ("(" ++ PyStr.join "|" COMPILE_OPTIONS_MERGED_list ++ ")").

Definition INCLUDE_OPTIONS_MERGED : Re.regex :=
  Eval vm_compute in
    Re.compile_or_never
      ("(" ++ PyStr.join "|" INCLUDE_OPTIONS_MERGED_list ++ ")").

Definition PRECOMPILATION_OPTION : Re.regex :=
  Eval vm_compute in Re.compile_or_never "-(E|M[G|T|Q|F|J|P|V|M]*)$".

Definition CLANG_OPTIONS : Re.regex :=
  Eval vm_compute in Re.compile_or_never ".*".

Definition extra_args_pattern : Re.regex :=
  Eval vm_compute in
    Re.compile_or_never "-m(32|64)|-std=|-stdlib=|-nostdinc".

(** The first flag that starts with [--sysroot], with what follows it. *)
Fixpoint first_sysroot (compiler_flags : list string)
  : option (string * list string) :=
  match compiler_flags with
  | [] => None
  | val :: rest =>
      if PyStr.startswith val "--sysroot" then Some (val, rest)
      else first_sysroot rest
  end.

Definition filter_compiler_includes_extra_args (compiler_flags : list string)
  : result (list string) :=
  let extra_opts := filter (Re.matches extra_args_pattern) compiler_flags in
  match first_sysroot compiler_flags with
  | Some (val, rest) =>
      if val =? "--sysroot"
      then match rest with
           | nxt :: _ => OK (List.app extra_opts ["--sysroot=" ++ nxt])
           | [] => Raise IndexError
           end
      else OK (List.app extra_opts [val])
  | None => OK extra_opts
  end.

(** ** [class ImplicitCompilerInfo] *)

Module ImplicitCompilerInfo.
Import PyStr.

Definition c : string := "c".
Definition cpp : string := "c++".

Definition is_executable_compiler (w : World) (compiler : string) : bool :=
  find_executable w compiler.

Definition start_mark : string := "#include <...> search starts here:".
Definition end_mark : string := "End of search list.".

(** [line[:fpos - 1]] *)
Definition before_framework (line : string) (fpos : nat) : string :=
  match fpos with
  | O => take (String.length line - 1) line
  | S n => take n line
  end.

(** The loop of [__parse_compiler_includes]. *)
Fixpoint parse_include_lines (do_append : bool) (lines : list string)
  : list string :=
  match lines with
  | [] => []
  | line :: rest =>
      if startswith line end_mark then []
      else
        let line' := if do_append then strip line else line in
        let appended :=
          if do_append
          then match find "(framework directory)" line' with
               | None => [line']
               | Some fpos => [before_framework line' fpos]
               end
          else [] in
        List.app appended
          (parse_include_lines (do_append || startswith line' start_mark)
                               rest)
  end.

Definition __parse_compiler_includes (lines : option string) : list string :=
  match lines with
  | None => []
  | Some l => if l =? "" then [] else parse_include_lines false (splitlines l)
  end.

Definition get_compiler_includes (w : World)
           (compiler language : string) (compiler_flags : list string)
  : result (list string) :=
  extra_opts <- filter_compiler_includes_extra_args compiler_flags ;;
  let cmd := compiler ++ " " ++ join " " extra_opts
             ++ " -E -x " ++ language ++ " - -v " in
  OK (map PosixPath.normpath (__parse_compiler_includes (compiler_err w cmd))).

Fixpoint target_of_lines (target : string) (lines : list string) : string :=
  match lines with
  | [] => target
  | line :: rest =>
      match split_ws (strip line) with
      | label :: value :: _ =>
          target_of_lines (if label =? "Target:" then value else target) rest
      | _ => target_of_lines target rest
      end
  end.

Definition get_compiler_target (w : World) (compiler : string) : string :=
  match compiler_err w (compiler ++ " -v") with
  | None => ""
  | Some lines => target_of_lines "" (splitlines lines)
  end.

(** The probe sources, read as the preprocessor reads them: from the
    value of the predefined macro, if any, to the text of the [#error]. *)
Definition VERSION_C (stdc_version : option N) : string :=
  match stdc_version with
  | Some v =>
      if N.leb 201710 v then "CC_FOUND_STANDARD_VER#17"
      else if N.leb 201112 v then "CC_FOUND_STANDARD_VER#11"
      else if N.leb 199901 v then "CC_FOUND_STANDARD_VER#99"
      else if N.leb 199409 v then "CC_FOUND_STANDARD_VER#94"
      else "CC_FOUND_STANDARD_VER#90"
  | None => "CC_FOUND_STANDARD_VER#90"
  end.

Definition VERSION_CPP (cplusplus : option N) : string :=
  match cplusplus with
  | Some v =>
      if N.leb 201703 v then "CC_FOUND_STANDARD_VER#17"
      else if N.leb 201402 v then "CC_FOUND_STANDARD_VER#14"
      else if N.leb 201103 v then "CC_FOUND_STANDARD_VER#11"
      else if N.leb 199711 v then "CC_FOUND_STANDARD_VER#98"
      else "CC_FOUND_STANDARD_VER#98"
  | None => "CC_FOUND_STANDARD_VER#98"
  end.

(** The longest prefix without a line feed: what [.+] can take. *)
Fixpoint until_newline (s : string) : string :=
  match s with
  | "" => ""
  | String ch s' => if Ascii.eqb ch LF then "" else String ch (until_newline s')
  end.

(** [re.search('CC_FOUND_STANDARD_VER#(.+)', err)], group 1. *)
Fixpoint search_standard (err : string) : option string :=
  let here :=
    if startswith err "CC_FOUND_STANDARD_VER#"
    then until_newline (drop (String.length "CC_FOUND_STANDARD_VER#") err)
    else "" in
  if negb (here =? "") then Some here
  else match err with
       | "" => None
       | String _ err' => search_standard err'
       end.

(** The mapping at the end of [get_compiler_standard]. *)
Definition standard_flag (language standard : string) : string :=
  if standard =? "" then ""
  else if standard =? "94" then "-std=iso9899:199409"
  else "-std=gnu" ++ (if language =? "c" then "" else "++") ++ standard.

Definition get_compiler_standard (w : World) (compiler language : string)
  : string :=
  let standard :=
    match standard_probe_err w compiler language with
    | Some err =>
        match search_standard err with
        | Some finding => finding
        | None => ""
        end
    | None => ""
    end in
  standard_flag language standard.

(** *** The cache [compiler_info] *)

(** Truth value of [compiler_info.get(compiler)]. *)
Definition known (compiler : string) (store : compiler_info_t) : bool :=
  match alist_get String.eqb compiler store with
  | Some (_ :: _) => true
  | _ => false
  end.

(** [compiler_info[compiler][lang]] updated by [f]; a missing entry is
    created empty first, as a [defaultdict] does. *)
Definition update_lang (compiler language : string)
           (f : lang_data -> lang_data) (store : compiler_info_t)
  : compiler_info_t :=
  let cdata :=
    match alist_get String.eqb compiler store with
    | Some d => d
    | None => []
    end in
  let ldata :=
    match alist_get String.eqb language cdata with
    | Some d => d
    | None => empty_lang_data
    end in
  alist_set String.eqb compiler
            (alist_set String.eqb language (f ldata) cdata) store.

Definition set_includes (v : option (list string)) (d : lang_data) :=
  {| ld_compiler_includes := v;
     ld_compiler_standard := ld_compiler_standard d;
     ld_target := ld_target d |}.

Definition set_standard (v : option string) (d : lang_data) :=
  {| ld_compiler_includes := ld_compiler_includes d;
     ld_compiler_standard := v;
     ld_target := ld_target d |}.

Definition set_target (v : option string) (d : lang_data) :=
  {| ld_compiler_includes := ld_compiler_includes d;
     ld_compiler_standard := ld_compiler_standard d;
     ld_target := v |}.

(** [compiler_info[compiler] = defaultdict(dict)] unless it is there. *)
Definition ensure_compiler (compiler : string) (store : compiler_info_t)
  : compiler_info_t :=
  if known compiler store then store
  else alist_set String.eqb compiler [] store.

(** The elements of the stored include list, split and without
    [-isystem], appended in order. *)
Fixpoint load_includes (elements : list string) : result (list string) :=
  match elements with
  | [] => OK []
  | e :: rest =>
      element <- Shlex.split e ;;
      more <- load_includes rest ;;
      OK (List.app (filter (fun x => negb (x =? "-isystem")) element) more)
  end.

(** One language of [load_compiler_info]. *)
Definition load_language (compiler language : string)
           (compiler_info : compiler_data) (store : compiler_info_t)
  : result compiler_info_t :=
  let store := update_lang compiler language (set_includes (Some [])) store in
  match alist_get String.eqb language compiler_info with
  | Some lang_data =>
      if lang_data_nonempty lang_data
      then match ld_compiler_includes lang_data with
           | None => Raise TypeError
           | Some elements =>
               includes <- load_includes elements ;;
               let store :=
                 update_lang compiler language
                             (set_includes (Some includes)) store in
               let store :=
                 update_lang compiler language
                   (set_standard (ld_compiler_standard lang_data)) store in
               OK (update_lang compiler language
                               (set_target (ld_target lang_data)) store)
           end
      else OK store
  | None => OK store
  end.

Definition load_compiler_info (w : World) (filename compiler : string)
           (store : compiler_info_t) : result compiler_info_t :=
  let contents := load_json_or_empty w filename in
  match alist_get String.eqb compiler contents with
  | None => OK store
  | Some compiler_info =>
      let store := ensure_compiler compiler store in
      store <- load_language compiler c compiler_info store ;;
      load_language compiler cpp compiler_info store
  end.

(** One language of the probing branch of [set]. *)
Definition probe_language (w : World) (compiler language : string)
           (analyzer_options : list string) (store : compiler_info_t)
  : result compiler_info_t :=
  includes <- get_compiler_includes w compiler language analyzer_options ;;
  let store :=
    update_lang compiler language (set_includes (Some includes)) store in
  let store :=
    update_lang compiler language
                (set_target (Some (get_compiler_target w compiler))) store in
  OK (update_lang compiler language
        (set_standard (Some (get_compiler_standard w compiler language)))
        store).

Definition probe (w : World) (compiler : string)
           (analyzer_options : list string) (store : compiler_info_t)
  : result compiler_info_t :=
  let store := alist_set String.eqb compiler [] store in
  store <- probe_language w compiler c analyzer_options store ;;
  probe_language w compiler cpp analyzer_options store.

Definition language_data (compiler language : string)
           (store : compiler_info_t) : option lang_data :=
  match alist_get String.eqb compiler store with
  | Some (x :: rest) =>
      match alist_get String.eqb language (x :: rest) with
      | Some d => if lang_data_nonempty d then Some d else None
      | None => None
      end
  | _ => None
  end.

(** [set_details_from_ICI], once per key. *)
Definition set_includes_from_ICI (compiler language : string)
           (store : compiler_info_t) (d : details) : details :=
  match alist_get String.eqb language (compiler_includes d) with
  | Some (Some (_ :: _)) => d
  | _ =>
      match language_data compiler language store with
      | Some ld =>
          with_compiler_includes
            (alist_set String.eqb language (ld_compiler_includes ld)
                       (compiler_includes d)) d
      | None => d
      end
  end.

Definition nonempty_string (v : option string) : bool :=
  match v with
  | Some s => negb (s =? "")
  | None => false
  end.

Definition set_standard_from_ICI (compiler language : string)
           (store : compiler_info_t) (d : details) : details :=
  if match alist_get String.eqb language (compiler_standard d) with
     | Some v => nonempty_string v
     | None => false
     end
  then d
  else
    match language_data compiler language store with
    | Some ld =>
        with_compiler_standard
          (alist_set String.eqb language (ld_compiler_standard ld)
                     (compiler_standard d)) d
    | None => d
    end.

Definition set_target_from_ICI (compiler language : string)
           (store : compiler_info_t) (d : details) : details :=
  if match alist_get option_string_eqb (Some language) (target d) with
     | Some v => nonempty_string v
     | None => false
     end
  then d
  else
    match language_data compiler language store with
    | Some ld =>
        with_target
          (alist_set option_string_eqb (Some language) (ld_target ld)
                     (target d)) d
    | None => d
    end.

(** Truth value of [compiler_info_file and os.path.exists(...)]. *)
Definition info_file_exists (w : World) (compiler_info_file : option string)
  : bool :=
  match compiler_info_file with
  | Some f => negb (f =? "") && path_exists w f
  | None => false
  end.

(** [ImplicitCompilerInfo.set(details, compiler_info_file)] *)
Definition set (w : World) (d : details)
           (compiler_info_file : option string) (store : compiler_info_t)
  : result (details * compiler_info_t) :=
  let compiler := compiler d in
  store <-
    (if info_file_exists w compiler_info_file
     then match compiler_info_file with
          | Some f => load_compiler_info w f compiler store
          | None => OK store
          end
     else if known compiler store then OK store
          else probe w compiler (analyzer_options d) store) ;;
  let d := set_includes_from_ICI compiler c store d in
  let d := set_standard_from_ICI compiler c store d in
  let d := set_target_from_ICI compiler c store d in
  let d := set_includes_from_ICI compiler cpp store d in
  let d := set_standard_from_ICI compiler cpp store d in
  let d := set_target_from_ICI compiler cpp store d in
  OK (d, store).

End ImplicitCompilerInfo.

(** ** The option cursor and the flag processors *)

(** [class OptionIterator]: the current item and the items still to come. *)
Record OptionIterator : Type := {
  _item : string;
  _it : list string
}.

(** [next(flag_iterator)] *)
Definition next (flag_iterator : OptionIterator) : result OptionIterator :=
  match _it flag_iterator with
  | [] => Raise StopIteration
  | x :: rest => OK {| _item := x; _it := rest |}
  end.

Definition get_language (extension : string) : option string :=
  alist_get String.eqb extension
    [(".c", "c"); (".cp", "c++"); (".cpp", "c++"); (".cxx", "c++");
     (".txx", "c++"); (".cc", "c++"); (".C", "c++"); (".ii", "c++");
     (".m", "objective-c"); (".mm", "objective-c++")].

Definition determine_compiler (gcc_command : list string)
           (is_executable_compiler_fun : string -> bool) : result string :=
  match gcc_command with
  | [] => Raise IndexError
  | first :: rest =>
      if PyStr.endswith first "ccache"
      then match rest with
           | [] => Raise IndexError
           | second :: _ =>
               if is_executable_compiler_fun second then OK second
               else OK first
           end
      else OK first
  end.

Definition __is_not_include_fixed (dirname : string) : bool :=
  negb (PosixPath.basename (PosixPath.normpath dirname) =? "include-fixed").

Definition __contains_no_intrinsic_headers (w : World) (dirname : string)
  : bool :=
  if negb (path_exists w dirname) then true
  else if has_intrin_header w dirname then false
  else true.

(** A processor answers whether it took the current item; it may have
    advanced the cursor and changed [details]. *)
Definition processor : Type :=
  OptionIterator -> details -> result (bool * OptionIterator * details).

Definition extend_options (l : list string) (d : details) : details :=
  with_analyzer_options (List.app (analyzer_options d) l) d.

Definition __collect_clang_compile_opts : processor :=
  fun flag_iterator details =>
    if Re.matches CLANG_OPTIONS (_item flag_iterator)
    then OK (true, flag_iterator,
             extend_options [_item flag_iterator] details)
    else OK (false, flag_iterator, details).

Definition __collect_transform_xclang_opts : processor :=
  fun flag_iterator details =>
    if _item flag_iterator =? "-Xclang"
    then
      flag_iterator <- next flag_iterator ;;
      let next_flag := _item flag_iterator in
      if PyStr.mem next_flag XCLANG_FLAGS_TO_SKIP
      then OK (true, flag_iterator, details)
      else OK (true, flag_iterator,
               extend_options ["-Xclang"; next_flag] details)
    else OK (false, flag_iterator, details).

Definition flags_with_path : list string :=
  ["-I"; "-idirafter"; "-imultilib"; "-iquote"; "-isysroot"; "-isystem";
   "-iwithprefix"; "-iwithprefixbefore"; "-sysroot"; "--sysroot"].

Definition __collect_transform_include_opts : processor :=
  fun flag_iterator details =>
    match Re.match_ COMPILE_OPTIONS_MERGED (_item flag_iterator) with
    | Some m =>
        let flag := PyStr.take m (_item flag_iterator) in
        let together :=
          negb (Nat.eqb (String.length flag)
                        (String.length (_item flag_iterator))) in
        it_param <-
          (if together
           then OK (flag_iterator,
                    PyStr.drop (String.length flag) (_item flag_iterator))
           else flag_iterator <- next flag_iterator ;;
                OK (flag_iterator, _item flag_iterator)) ;;
        let '(flag_iterator, param) := it_param in
        let '(together, param) :=
          if PyStr.mem flag flags_with_path
          then
            let '(together, param) :=
              if PyStr.startswith param "="
              then (false, PyStr.drop 1 param)
              else (together, param) in
            (together,
             PosixPath.normpath (PosixPath.join (directory details) param))
          else (together, param) in
        if together
        then OK (true, flag_iterator, extend_options [flag ++ param] details)
        else OK (true, flag_iterator, extend_options [flag; param] details)
    | None => OK (false, flag_iterator, details)
    end.

Definition __collect_compile_opts : processor :=
  fun flag_iterator details =>
    if Re.matches COMPILE_OPTIONS (_item flag_iterator)
    then OK (true, flag_iterator,
             extend_options [_item flag_iterator] details)
    else OK (false, flag_iterator, details).

Definition __skip_sources : processor :=
  fun flag_iterator details =>
    match _item flag_iterator with
    | "" => Raise IndexError
    | String ch _ =>
        OK (negb (Ascii.eqb ch "-"), flag_iterator, details)
    end.

Definition is_compile (t : option ActionType) : bool :=
  match t with
  | Some COMPILE => true
  | _ => false
  end.

Definition __determine_action_type : processor :=
  fun flag_iterator details =>
    if _item flag_iterator =? "-c"
    then OK (true, flag_iterator, with_action_type (Some COMPILE) details)
    else if PyStr.startswith (_item flag_iterator) "-print-prog-name"
    then OK (true, flag_iterator,
             if negb (is_compile (action_type details))
             then with_action_type (Some INFO) details else details)
    else if Re.matches PRECOMPILATION_OPTION (_item flag_iterator)
    then OK (true, flag_iterator,
             if negb (is_compile (action_type details))
             then with_action_type (Some PREPROCESS) details else details)
    else OK (false, flag_iterator, details).

Definition __get_arch : processor :=
  fun flag_iterator details =>
    if _item flag_iterator =? "-arch"
    then flag_iterator <- next flag_iterator ;;
         OK (true, flag_iterator, with_arch (_item flag_iterator) details)
    else OK (false, flag_iterator, details).

Definition __get_language : processor :=
  fun flag_iterator details =>
    if PyStr.startswith (_item flag_iterator) "-x"
    then
      if _item flag_iterator =? "-x"
      then flag_iterator <- next flag_iterator ;;
           OK (true, flag_iterator,
               with_lang (Some (_item flag_iterator)) details)
      else OK (true, flag_iterator,
               with_lang (Some (PyStr.drop 2 (_item flag_iterator))) details)
    else OK (false, flag_iterator, details).

Definition __get_output : processor :=
  fun flag_iterator details =>
    if _item flag_iterator =? "-o"
    then flag_iterator <- next flag_iterator ;;
         OK (true, flag_iterator, with_output (_item flag_iterator) details)
    else OK (false, flag_iterator, details).

Definition __replace : processor :=
  fun flag_iterator details =>
    match alist_get String.eqb (_item flag_iterator) REPLACE_OPTIONS_MAP with
    | Some (x :: value) =>
        OK (true, flag_iterator, extend_options (x :: value) details)
    | _ => OK (false, flag_iterator, details)
    end.

Definition __skip_clang : processor :=
  fun flag_iterator details =>
    OK (Re.matches IGNORED_OPTIONS_CLANG (_item flag_iterator),
        flag_iterator, details).

(** [for _ in range(arg_num): next(flag_iterator)] *)
Fixpoint skip_params (arg_num : nat) (flag_iterator : OptionIterator)
  : result OptionIterator :=
  match arg_num with
  | O => OK flag_iterator
  | S n => flag_iterator <- next flag_iterator ;; skip_params n flag_iterator
  end.

(** The loop over [IGNORED_PARAM_OPTIONS.items()]. *)
Fixpoint skip_param_options (table : list (Re.regex * nat))
         (flag_iterator : OptionIterator) (d : details)
  : result (bool * OptionIterator * details) :=
  match table with
  | [] => OK (false, flag_iterator, d)
  | (pattern, arg_num) :: table' =>
      if Re.matches pattern (_item flag_iterator)
      then flag_iterator <- skip_params arg_num flag_iterator ;;
           OK (true, flag_iterator, d)
      else skip_param_options table' flag_iterator d
  end.

Definition __skip_gcc : processor :=
  fun flag_iterator details =>
    if Re.matches IGNORED_OPTIONS_GCC (_item flag_iterator)
    then OK (true, flag_iterator, details)
    else skip_param_options IGNORED_PARAM_OPTIONS flag_iterator details.

Definition clang_flag_collectors : list processor :=
  [__skip_sources; __skip_clang; __collect_transform_xclang_opts;
   __get_output; __determine_action_type; __get_arch; __get_language;
   __collect_transform_include_opts; __collect_clang_compile_opts].

Definition gcc_flag_transformers : list processor :=
  [__skip_gcc; __replace; __collect_compile_opts;
   __collect_transform_include_opts; __determine_action_type;
   __skip_sources; __get_arch; __get_language; __get_output].

(** The inner loop of [parse_options]: the processors are tried in order
    and the first that takes the item ends the loop. *)
Fixpoint run_processors (flag_processors : list processor)
         (it : OptionIterator) (d : details)
  : result (OptionIterator * details) :=
  match flag_processors with
  | [] => OK (it, d)
  | flag_processor :: others =>
      r <- flag_processor it d ;;
      let '(taken, it, d) := r in
      if taken then OK (it, d) else run_processors others it d
  end.

(** The outer loop [for it in OptionIterator(args)].  The cursor only
    moves forward, so [fuel] is the number of items still to come at most;
    [process_flags_cons] below gives the loop without it. *)
Fixpoint process_flags_fuel (fuel : nat) (flag_processors : list processor)
         (args : list string) (d : details) : result details :=
  match fuel, args with
  | S fuel', x :: rest =>
      r <- run_processors flag_processors {| _item := x; _it := rest |} d ;;
      let '(it, d) := r in
      process_flags_fuel fuel' flag_processors (_it it) d
  | _, _ => OK d
  end.

Definition process_flags (flag_processors : list processor)
           (args : list string) (d : details) : result details :=
  process_flags_fuel (List.length args) flag_processors args d.

(** ** [parse_options] *)

Definition empty_details : details :=
  {| analyzer_options := [];
     compiler_includes := [];
     compiler_standard := [];
     original_command := "";
     directory := "";
     output := "";
     lang := None;
     arch := "";
     target := [];
     source := "";
     action_type := None;
     compiler := "" |}.

(** [details['compiler_includes'][lang] = list(filter(f, includes))] for
    every language; a value [None] cannot be iterated. *)
Fixpoint filter_compiler_includes (f : string -> bool)
         (l : list (string * option (list string)))
  : result (list (string * option (list string))) :=
  match l with
  | [] => OK []
  | (language, None) :: _ => Raise TypeError
  | (language, Some includes) :: rest =>
      rest' <- filter_compiler_includes f rest ;;
      OK ((language, Some (filter f includes)) :: rest')
  end.

Definition keep_include_value (w : World) (value : string) : bool :=
  (path_isdir w value && __contains_no_intrinsic_headers w value)
  || negb (path_isdir w value).

(** The loop that filters the include flags of intrinsic directories out
    of [analyzer_options]. *)
Fixpoint aop_without_intrin (w : World) (analyzer_options : list string)
  : result (list string) :=
  match analyzer_options with
  | [] => OK []
  | aopt :: rest =>
      match Re.match_ INCLUDE_OPTIONS_MERGED aopt with
      | Some m =>
          let flag := PyStr.take m aopt in
          let together :=
            negb (Nat.eqb (String.length flag) (String.length aopt)) in
          if together
          then
            let value := PyStr.drop (String.length flag) aopt in
            more <- aop_without_intrin w rest ;;
            OK (if keep_include_value w value then aopt :: more else more)
          else
            match rest with
            | [] => Raise StopIteration
            | value :: rest' =>
                more <- aop_without_intrin w rest' ;;
                OK (if keep_include_value w value
                    then aopt :: value :: more else more)
            end
      | None =>
          more <- aop_without_intrin w rest ;;
          OK (aopt :: more)
      end
  end.

(** The command of an entry, split, with the text kept as
    [original_command]. *)
Definition entry_command (compilation_db_entry : db_entry)
  : result (list string * string) :=
  match e_arguments compilation_db_entry with
  | Some gcc_command => OK (gcc_command, PyStr.join " " gcc_command)
  | None =>
      match e_command compilation_db_entry with
      | Some command =>
          gcc_command <- Shlex.split command ;;
          OK (gcc_command, command)
      | None => Raise KeyError
      end
  end.

(** What [parse_options] does once the flags have been processed: the
    action type and the language are settled from the extension of the
    source file. *)
Definition settle_source (file : string) (d : details)
  : details * option string :=
  let d := match action_type d with
           | None => with_action_type (Some COMPILE) d
           | Some _ => d
           end in
  let d := with_source file d in
  let d := if source d =? "." then with_source "" d else d in
  let lang_of_ext := get_language (snd (PosixPath.splitext (source d))) in
  let d :=
    match lang_of_ext with
    | Some l =>
        match lang d with
        | None => with_lang (Some l) d
        | Some _ => d
        end
    | None => with_action_type (Some LINK) d
    end in
  (with_target (alist_set option_string_eqb lang_of_ext (Some (arch d))
                          (target d)) d,
   lang_of_ext).

(** [details] when the flags are about to be processed. *)
Definition start_details (original_command directory the_compiler : string)
  : details :=
  let d := with_original_command original_command empty_details in
  let d := with_directory directory d in
  let d := with_action_type None d in
  let d := with_compiler the_compiler d in
  if PyStr.contains "++" (PosixPath.basename (compiler d))
  then with_lang (Some "c++") d else d.

(** The chain of processors for a compiler. *)
Definition flag_processors_for (using_clang_to_compile_and_analyze : bool)
  : list processor :=
  if using_clang_to_compile_and_analyze
  then clang_flag_collectors else gcc_flag_transformers.

(** Truth value of the version information of the compiler.  The cache
    [compiler_versions] holds earlier answers of the version function for
    the compiler; a call without a version function is taken to find no
    answer in it. *)
Definition compiler_version_info
           (get_clangsa_version_func : option (string -> bool))
           (the_compiler : string) : bool :=
  match get_clangsa_version_func with
  | Some f => f the_compiler
  | None => false
  end.

(** The part of [parse_options] that follows the loop over the flags. *)
Definition finish_options (w : World) (file : string)
           (compiler_info_file : option string)
           (keep_gcc_include_fixed keep_gcc_intrin : bool)
           (using_clang_to_compile_and_analyze : bool)
           (store : compiler_info_t) (d : details)
  : result (BuildAction * compiler_info_t) :=
  let '(d, _) := settle_source file d in
  let toolchain := toolchain_in_args w (analyzer_options d) in
  r <-
    (if (negb toolchain && negb using_clang_to_compile_and_analyze)
        || ImplicitCompilerInfo.info_file_exists w compiler_info_file
     then ImplicitCompilerInfo.set w d compiler_info_file store
     else OK (d, store)) ;;
  let '(d, store) := r in
  d <-
    (if negb keep_gcc_include_fixed
     then includes <-
            filter_compiler_includes __is_not_include_fixed
                                     (compiler_includes d) ;;
          OK (with_compiler_includes includes d)
     else OK d) ;;
  d <-
    (if negb keep_gcc_intrin
     then includes <-
            filter_compiler_includes (__contains_no_intrinsic_headers w)
                                     (compiler_includes d) ;;
          let d := with_compiler_includes includes d in
          options <- aop_without_intrin w (analyzer_options d) ;;
          OK (with_analyzer_options options d)
     else OK d) ;;
  OK (d, store).

Definition parse_options (w : World) (compilation_db_entry : db_entry)
           (compiler_info_file : option string)
           (keep_gcc_include_fixed keep_gcc_intrin : bool)
           (get_clangsa_version_func : option (string -> bool))
           (store : compiler_info_t)
  : result (BuildAction * compiler_info_t) :=
  cmd <- entry_command compilation_db_entry ;;
  let '(gcc_command, original) := cmd in
  the_compiler <-
    determine_compiler gcc_command
                       (ImplicitCompilerInfo.is_executable_compiler w) ;;
  let d := start_details original (e_directory compilation_db_entry)
                         the_compiler in
  let using_clang_to_compile_and_analyze :=
    compiler_version_info get_clangsa_version_func the_compiler in
  d <- process_flags
         (flag_processors_for using_clang_to_compile_and_analyze)
         (tl gcc_command) d ;;
  finish_options w (e_file compilation_db_entry) compiler_info_file
                 keep_gcc_include_fixed keep_gcc_intrin
                 using_clang_to_compile_and_analyze store d.

(** ** Response files *)

(** [open] raises an [OSError] for a file that cannot be opened; the
    content of an opened file is split. *)
Definition process_response_file (w : World) (response_file : string)
  : result (list string * list string) :=
  r_file <- match read_text w response_file with
            | Some text => OK text
            | None => Raise OSError
            end ;;
  options <- Shlex.split r_file ;;
  let sources :=
    filter (fun opt =>
              negb (PyStr.startswith opt "-")
              && PyStr.mem (PyStr.lower (snd (PosixPath.splitext opt)))
                           SOURCE_EXTENSIONS)
           options in
  OK (options, sources).

(** The loop over the options of one command: the expanded command and
    the source files named in the response files. *)
Fixpoint expand_options (w : World) (source_dir : string)
         (options : list string) : result (list string * list string) :=
  match options with
  | [] => OK ([], [])
  | opt :: rest =>
      if PyStr.startswith opt "@"
      then
        let response_file := PosixPath.join source_dir (PyStr.drop 1 opt) in
        if negb (path_exists w response_file)
        then expand_options w source_dir rest
        else
          r <- process_response_file w response_file ;;
          let '(opts, sources) := r in
          more <- expand_options w source_dir rest ;;
          let '(cmd, source_files) := more in
          OK (List.app opts cmd, List.app sources source_files)
      else
        more <- expand_options w source_dir rest ;;
        let '(cmd, source_files) := more in
        OK (opt :: cmd, source_files)
  end.

Definition with_command (command : string) (e : db_entry) : db_entry :=
  {| e_directory := e_directory e;
     e_file := e_file e;
     e_command := Some command;
     e_arguments := e_arguments e |}.

Definition with_file (file : string) (e : db_entry) : db_entry :=
  {| e_directory := e_directory e;
     e_file := file;
     e_command := e_command e;
     e_arguments := e_arguments e |}.

(** The entries that one entry contributes to the result. *)
Definition extend_entry (w : World) (entry : db_entry)
  : result (list db_entry) :=
  match e_command entry with
  | Some command =>
      if PyStr.contains "@" command
      then
        options <- Shlex.split command ;;
        r <- expand_options w (e_directory entry) options ;;
        let '(cmd, source_files) := r in
        let entry := with_command (PyStr.join " " cmd) entry in
        if PyStr.contains "@" (e_file entry)
        then OK (map (fun source_file => with_file source_file entry)
                     source_files)
        else OK [entry]
      else OK [entry]
  | None => OK [entry]
  end.

Fixpoint extend_compilation_database_entries (w : World)
         (compilation_database : list db_entry)
  : result (list db_entry) :=
  match compilation_database with
  | [] => OK []
  | entry :: rest =>
      entries <- extend_entry w entry ;;
      more <- extend_compilation_database_entries w rest ;;
      OK (List.app entries more)
  end.

(** ** [fnmatch.translate] and matching against the compiled pattern

    The compiled expression is kept as a list of pattern items: [*] is any
    text, [?] any character, [[seq]] and [[!seq]] a character class, any
    other character itself.  The expression ends with [\Z], so a match is
    a match of the whole subject. *)

Module Fnmatch.

Inductive item : Type :=
| Star
| Any
| Lit (c : ascii)
| Class (neg : bool) (members : list (ascii * ascii)).

(** The scan for the bracket that closes a class: [phase] is 0 right
    after the opening bracket, 1 after a leading [!], 2 further on, where
    a closing bracket ends the class. *)
Fixpoint closes (phase : nat) (s : string) : bool :=
  match s with
  | "" => false
  | String c s' =>
      match phase with
      | 0 => if Ascii.eqb c "!" then closes 1 s' else closes 2 s'
      | 1 => closes 2 s'
      | _ => if Ascii.eqb c "]" then true else closes 2 s'
      end
  end.

(** The members of a class from its text, a range being written
    [lo-hi]. *)
Fixpoint members (stuff : string) : list (ascii * ascii) :=
  match stuff with
  | "" => []
  | String a (String "-" (String b rest)) => (a, b) :: members rest
  | String a rest => (a, a) :: members rest
  end.

Inductive state : Type :=
| Normal
| InClass (phase : nat) (neg : bool) (stuff : string).

Fixpoint translate_go (st : state) (pat : string) : list item :=
  match pat with
  | "" => []
  | String c pat' =>
      match st with
      | Normal =>
          if Ascii.eqb c "*" then Star :: translate_go Normal pat'
          else if Ascii.eqb c "?" then Any :: translate_go Normal pat'
          else if Ascii.eqb c "["
          then if closes 0 pat'
               then translate_go (InClass 0 false "") pat'
               else Lit c :: translate_go Normal pat'
          else Lit c :: translate_go Normal pat'
      | InClass 0 neg stuff =>
          if Ascii.eqb c "!" then translate_go (InClass 1 true stuff) pat'
          else translate_go (InClass 2 neg (stuff ++ String c "")) pat'
      | InClass 1 neg stuff =>
          translate_go (InClass 2 neg (stuff ++ String c "")) pat'
      | InClass _ neg stuff =>
          if Ascii.eqb c "]"
          then Class neg (members stuff) :: translate_go Normal pat'
          else translate_go (InClass 2 neg (stuff ++ String c "")) pat'
      end
  end.

Definition translate (pat : string) : list item :=
  translate_go Normal pat.

Definition in_class (neg : bool) (ms : list (ascii * ascii)) (d : ascii)
  : bool :=
  xorb neg (existsb (Re.in_range d) ms).

(** [rexpr.match(s)] for the expression compiled from the items. *)
Fixpoint matches (p : list item) (s : string) : bool :=
  match p with
  | [] => s =? ""
  | Star :: p' =>
      (fix star (s : string) : bool :=
         matches p' s
         || match s with
            | "" => false
            | String _ s' => star s'
            end) s
  | Any :: p' =>
      match s with
      | String _ s' => matches p' s'
      | "" => false
      end
  | Lit c :: p' =>
      match s with
      | String d s' => Ascii.eqb c d && matches p' s'
      | "" => false
      end
  | Class neg ms :: p' =>
      match s with
      | String d s' => in_class neg ms d && matches p' s'
      | "" => false
      end
  end.

(** [fnmatch.fnmatchcase(name, pat)] *)
Definition fnmatchcase (name pat : string) : bool :=
  matches (translate pat) name.

End Fnmatch.

(** ** [class SkipListHandler] *)

Module SkipListHandler.

(** An element of [self.__skip]: the line and its compiled pattern. *)
Definition rule : Type := string * list Fnmatch.item.

Definition sign (line : string) : option ascii :=
  match line with
  | String c _ => Some c
  | "" => None
  end.

Definition is_sign (line : string) (c : ascii) : bool :=
  match sign line with
  | Some d => Ascii.eqb c d
  | None => false
  end.

Definition __check_line_format (skip_lines : list string) : list string :=
  filter (fun line =>
            negb (Nat.ltb (String.length line) 2
                  || negb (is_sign line "-" || is_sign line "+")))
         skip_lines.

Definition __gen_regex (skip_lines : list string) : list rule :=
  map (fun skip_line =>
         let norm_skip_path :=
           PosixPath.normpath (PyStr.strip (PyStr.drop 1 skip_line)) in
         (skip_line, Fnmatch.translate (norm_skip_path ++ "*")))
      skip_lines.

Definition skip_file_lines (skip_file_content : string) : list string :=
  filter (fun line => negb (line =? ""))
         (map PyStr.strip (PyStr.splitlines skip_file_content)).

(** [SkipListHandler(skip_file_content)]: the list [self.__skip]. *)
Definition __init__ (skip_file_content : string) : list rule :=
  __gen_regex (__check_line_format (skip_file_lines skip_file_content)).

Definition overwrite_skip_content (skip_lines : list string) : list rule :=
  __gen_regex (__check_line_format skip_lines).

Fixpoint should_skip (__skip : list rule) (source : string) : bool :=
  match __skip with
  | [] => false
  | (line, rexpr) :: rest =>
      if Fnmatch.matches rexpr source then is_sign line "-"
      else should_skip rest source
  end.

End SkipListHandler.

(** ** [parse_unique_log] *)

Inductive CompileActionUniqueingType : Type :=
| NONE
| SOURCE_ALPHA
| SOURCE_REGEX
| STRICT.

Definition build_action_uniqueing (compile_uniqueing : string)
  : CompileActionUniqueingType :=
  if compile_uniqueing =? "alpha" then SOURCE_ALPHA
  else if compile_uniqueing =? "none" then NONE
  else if compile_uniqueing =? "strict" then STRICT
  else SOURCE_REGEX.

(** A call of [LOG.error]: the format and its arguments. *)
Record log_record : Type := {
  log_format : string;
  log_args : list string
}.

(** [uniqued_build_actions]: key to action, in insertion order. *)
Definition uniqued : Type := list (string * BuildAction).

(** What the uniqueing of one action leads to: the dictionary goes on, or
    an error is logged and [sys.exit(1)] is called. *)
Inductive unique_result : Type :=
| Uniqued (uniqued_build_actions : uniqued)
| Failed (logged : log_record).

Definition strict_failure (kept action : BuildAction) : log_record :=
  {| log_format := "Build Action uniqueing failed as both '%s' and '%s'";
     log_args := [original_command kept; original_command action] |}.

Definition regex_failure (kept action : BuildAction)
           (compile_uniqueing : string) : log_record :=
  {| log_format :=
       "Build Action uniqueing failed as both " ++ String PyStr.LF ""
       ++ " %s" ++ String PyStr.LF "" ++ " and " ++ String PyStr.LF ""
       ++ " %s " ++ String PyStr.LF "" ++ " match regex pattern:%s";
     log_args := [original_command kept; original_command action;
                  compile_uniqueing] |}.

(** The [if]/[elif] chain on [build_action_uniqueing] for one action. *)
Definition unique_action (w : World) (compile_uniqueing : string)
           (action : BuildAction) (uniqued_build_actions : uniqued)
  : unique_result :=
  match build_action_uniqueing compile_uniqueing with
  | NONE =>
      if negb (alist_mem String.eqb (action_hash w action)
                         uniqued_build_actions)
      then Uniqued (alist_set String.eqb (action_hash w action) action
                              uniqued_build_actions)
      else Uniqued uniqued_build_actions
  | STRICT =>
      match alist_get String.eqb (source action) uniqued_build_actions with
      | None =>
          Uniqued (alist_set String.eqb (source action) action
                             uniqued_build_actions)
      | Some kept => Failed (strict_failure kept action)
      end
  | SOURCE_ALPHA =>
      match alist_get String.eqb (source action) uniqued_build_actions with
      | None =>
          Uniqued (alist_set String.eqb (source action) action
                             uniqued_build_actions)
      | Some kept =>
          if String.ltb (output action) (output kept)
          then Uniqued (alist_set String.eqb (source action) action
                                  uniqued_build_actions)
          else Uniqued uniqued_build_actions
      end
  | SOURCE_REGEX =>
      match alist_get String.eqb (source action) uniqued_build_actions with
      | None =>
          Uniqued (alist_set String.eqb (source action) action
                             uniqued_build_actions)
      | Some kept =>
          if re_match w compile_uniqueing (original_command action)
             && negb (re_match w compile_uniqueing (original_command kept))
          then Uniqued (alist_set String.eqb (source action) action
                                  uniqued_build_actions)
          else if re_match w compile_uniqueing (original_command action)
                  && re_match w compile_uniqueing (original_command kept)
          then Failed (regex_failure kept action compile_uniqueing)
          else Uniqued uniqued_build_actions
      end
  end.

(** The uniqueing of a batch of actions, one after the other, as the
    loop of [parse_unique_log] applies it to the actions it assembles. *)
Fixpoint unique_actions (w : World) (compile_uniqueing : string)
         (actions : list BuildAction) (uniqued_build_actions : uniqued)
  : unique_result :=
  match actions with
  | [] => Uniqued uniqued_build_actions
  | action :: rest =>
      match unique_action w compile_uniqueing action
                          uniqued_build_actions with
      | Uniqued u => unique_actions w compile_uniqueing rest u
      | Failed logged => Failed logged
      end
  end.

(** The test [if not action.lang] and the test on the action type. *)
Definition analyzable (action : BuildAction) : bool :=
  match lang action with
  | Some l => negb (l =? "")
  | None => false
  end
  && is_compile (action_type action).

(** The skip handlers are given or [None]. *)
Definition skipped_at_both_phases
           (analysis_skip_handler pre_analysis_skip_handler
            : option (list SkipListHandler.rule))
           (ctu_or_stats_enabled : bool) (file : string) : bool :=
  match analysis_skip_handler with
  | Some handler =>
      SkipListHandler.should_skip handler file
      && (negb ctu_or_stats_enabled
          || match pre_analysis_skip_handler with
             | Some pre => SkipListHandler.should_skip pre file
             | None => false
             end)
  | None => false
  end.

(** The state of the loop over the entries. *)
Record loop_state : Type := {
  uniqued_build_actions : uniqued;
  skipped_cmp_cmd_count : nat;
  compiler_info : compiler_info_t
}.

(** How the body of the [try] ends. *)
Inductive loop_result : Type :=
| Completed (st : loop_state)
| Exited (code : nat) (logged : log_record)
| Raised (e : exn).

(** The result of a run: the actions with the number of skipped
    commands and the compiler information written to
    [compiler_info.json], or the end of the process by [sys.exit], or an
    exception that nothing catches. *)
Inductive outcome : Type :=
| Returned (actions : list BuildAction) (skipped : nat)
           (compiler_info_out : compiler_info_t)
| SysExit (code : nat) (logged : log_record)
| Unhandled (e : exn).

Definition invalid_database (compilation_database : list db_entry)
  : log_record :=
  match compilation_database with
  | [] => {| log_format := "The compile database is empty.";
             log_args := [] |}
  | _ => {| log_format := "The compile database is not valid.";
            log_args := [] |}
  end.

(** The [except (ValueError, KeyError, TypeError)] clause. *)
Definition caught (e : exn) : bool :=
  match e with
  | ValueError | KeyError | TypeError => true
  | _ => false
  end.

Section ParseUniqueLog.
Variable w : World.
Variable compile_uniqueing : string.
Variable compiler_info_file : option string.
Variables keep_gcc_include_fixed keep_gcc_intrin : bool.
Variables analysis_skip_handler pre_analysis_skip_handler
  : option (list SkipListHandler.rule).
Variable ctu_or_stats_enabled : bool.

Fixpoint parse_entries (entries : list db_entry) (st : loop_state)
  : loop_result :=
  match entries with
  | [] => Completed st
  | entry :: rest =>
      let entry :=
        with_file (PosixPath.normpath
                     (PosixPath.join (e_directory entry) (e_file entry)))
                  entry in
      if skipped_at_both_phases analysis_skip_handler
                                pre_analysis_skip_handler
                                ctu_or_stats_enabled (e_file entry)
      then parse_entries rest
             {| uniqued_build_actions := uniqued_build_actions st;
                skipped_cmp_cmd_count := S (skipped_cmp_cmd_count st);
                compiler_info := compiler_info st |}
      else
        match parse_options w entry compiler_info_file
                            keep_gcc_include_fixed keep_gcc_intrin
                            (Some (clang_version_info w))
                            (compiler_info st) with
        | Raise e => Raised e
        | OK (action, store) =>
            if analyzable action
            then match unique_action w compile_uniqueing action
                                     (uniqued_build_actions st) with
                 | Failed logged => Exited 1 logged
                 | Uniqued u =>
                     parse_entries rest
                       {| uniqued_build_actions := u;
                          skipped_cmp_cmd_count := skipped_cmp_cmd_count st;
                          compiler_info := store |}
                 end
            else parse_entries rest
                   {| uniqued_build_actions := uniqued_build_actions st;
                      skipped_cmp_cmd_count := skipped_cmp_cmd_count st;
                      compiler_info := store |}
        end
  end.

(** The choice of the policy at the head of the [try]: the regex policy
    runs [uniqueing_re = re.compile(compile_uniqueing)], which raises
    [re.error] for a pattern that does not compile. *)
Definition uniqueing_re : result unit :=
  match build_action_uniqueing compile_uniqueing with
  | SOURCE_REGEX =>
      if re_compiles w compile_uniqueing then OK tt else Raise ReError
  | _ => OK tt
  end.

(** The file [compiler_info.json] is taken to be writable. *)
Definition parse_unique_log (compilation_database : list db_entry)
           (store : compiler_info_t) : outcome :=
  let body :=
    match uniqueing_re with
    | Raise e => Raised e
    | OK _ =>
        match extend_compilation_database_entries w compilation_database with
        | Raise e => Raised e
        | OK entries =>
            parse_entries entries
              {| uniqued_build_actions := [];
                 skipped_cmp_cmd_count := 0;
                 compiler_info := store |}
        end
    end in
  match body with
  | Completed st =>
      Returned (alist_values (uniqued_build_actions st))
               (skipped_cmp_cmd_count st) (compiler_info st)
  | Exited code logged => SysExit code logged
  | Raised e =>
      if caught e then SysExit 1 (invalid_database compilation_database)
      else Unhandled e
  end.
End ParseUniqueLog.

(** ** Notions used in the statements *)

(** A world in which nothing exists: no executable, no file, and no
    compiler that answers. *)
Definition empty_world : World :=
  {| find_executable := fun _ => false;
     clang_version_info := fun _ => false;
     compiler_err := fun _ => None;
     standard_probe_err := fun _ _ => None;
     path_exists := fun _ => false;
     path_isdir := fun _ => false;
     has_intrin_header := fun _ => false;
     read_text := fun _ => Some "";
     load_json_or_empty := fun _ => [];
     toolchain_in_args := fun _ => false;
     re_compiles := fun _ => true;
     re_match := fun _ _ => false;
     action_hash := fun a => original_command a |}.

(** The same world with every compiler answering the version query as
    Clang does. *)
Definition clang_world : World :=
  {| find_executable := fun _ => false;
     clang_version_info := fun _ => true;
     compiler_err := fun _ => None;
     standard_probe_err := fun _ _ => None;
     path_exists := fun _ => false;
     path_isdir := fun _ => false;
     has_intrin_header := fun _ => false;
     read_text := fun _ => Some "";
     load_json_or_empty := fun _ => [];
     toolchain_in_args := fun _ => false;
     re_compiles := fun _ => true;
     re_match := fun _ _ => false;
     action_hash := fun a => original_command a |}.

Definition entry_of_command (directory file command : string) : db_entry :=
  {| e_directory := directory;
     e_file := file;
     e_command := Some command;
     e_arguments := None |}.

(** Flags for which the first processor of the chain that takes them
    reads the item that follows: the output, the architecture, the
    language, the flags with a separate argument of
    [COMPILE_OPTIONS_MERGED], and, in the Clang chain, [-Xclang] and
    [-macros], in the other chain the flags of [IGNORED_PARAM_OPTIONS]. *)
Definition parameter_flags (clang : bool) : list string :=
  List.app
    ["-o"; "-arch"; "-x"; "-I"; "-D"; "-U"; "-F"; "--sysroot"; "--include";
     "-include"; "-iquote"; "-idirafter"; "-isystem"; "-isysroot";
     "-iprefix"; "-iwithprefix"]
    (if clang then ["-Xclang"; "-macros"]
     else ["-install_name"; "-exported_symbols_list"; "-current_version";
           "-compatibility_version"; "-init"; "-e"; "-seg1addr";
           "-bundle_loader"; "-multiply_defined"; "-sectorder"; "--param";
           "-u"; "--serialize-diagnostics"; "-framework"; "-filelist"]).

(** A processor that answers on a cursor has read some of the items to
    come, and answers the same whatever follows the items it has read. *)
Definition advances (p : processor) : Prop :=
  forall item l d taken it' d',
    p {| _item := item; _it := l |} d = OK (taken, it', d') ->
    exists consumed,
      l = (consumed ++ _it it')%list /\
      forall r,
        p {| _item := item; _it := (consumed ++ r)%list |} d
        = OK (taken, {| _item := _item it'; _it := r |}, d').

(** In a class, the text that follows holds the closing bracket. *)
Definition class_closes (st : Fnmatch.state) (s : string) : Prop :=
  match st with
  | Fnmatch.Normal => True
  | Fnmatch.InClass phase _ _ => Fnmatch.closes phase s = true
  end.

(** The flags of [flags_with_path] that [COMPILE_OPTIONS_MERGED] matches
    as themselves. *)
Definition merged_path_flags : list string :=
  ["-I"; "-idirafter"; "-iquote"; "-isysroot"; "-isystem"; "-iwithprefix";
   "--sysroot"].

(** An action of which only the source and the output are given. *)
Definition action_of (source_path output_path : string) : BuildAction :=
  with_action_type (Some COMPILE)
    (with_lang (Some "c++")
       (with_output output_path (with_source source_path empty_details))).

(** What the loop of the alphabetical policy maintains: each key is the
    source of its action, which is one of the actions seen, and no action
    seen has an output before the output of the action kept for its
    source. *)
Definition alpha_inv (seen : list BuildAction) (u : uniqued) : Prop :=
  NoDup (map fst u)
  /\ (forall k kept,
         alist_get String.eqb k u = Some kept ->
         source kept = k /\ In kept seen)
  /\ (forall a,
         In a seen ->
         exists kept,
           alist_get String.eqb (source a) u = Some kept
           /\ String.ltb (output a) (output kept) = false).

(** The loop of [parse_unique_log] without the uniqueing: the actions that
    are assembled from the entries and pass the tests on the language and
    on the action type, in the order of the entries, with the number of
    skipped entries and the compiler information at the end. *)
Fixpoint assembled (w : World) (compiler_info_file : option string)
         (keep_gcc_include_fixed keep_gcc_intrin : bool)
         (analysis_skip_handler pre_analysis_skip_handler
          : option (list SkipListHandler.rule))
         (ctu_or_stats_enabled : bool)
         (entries : list db_entry) (store : compiler_info_t)
  : result (list BuildAction * nat * compiler_info_t) :=
  match entries with
  | [] => OK ([], 0, store)
  | entry :: rest =>
      let entry :=
        with_file (PosixPath.normpath
                     (PosixPath.join (e_directory entry) (e_file entry)))
                  entry in
      if skipped_at_both_phases analysis_skip_handler
                                pre_analysis_skip_handler
                                ctu_or_stats_enabled (e_file entry)
      then
        r <- assembled w compiler_info_file keep_gcc_include_fixed
                       keep_gcc_intrin analysis_skip_handler
                       pre_analysis_skip_handler ctu_or_stats_enabled
                       rest store ;;
        let '(actions, skipped, store) := r in
        OK (actions, S skipped, store)
      else
        r <- parse_options w entry compiler_info_file
                           keep_gcc_include_fixed keep_gcc_intrin
                           (Some (clang_version_info w)) store ;;
        let '(action, store) := r in
        r <- assembled w compiler_info_file keep_gcc_include_fixed
                       keep_gcc_intrin analysis_skip_handler
                       pre_analysis_skip_handler ctu_or_stats_enabled
                       rest store ;;
        let '(actions, skipped, store) := r in
        OK (if analyzable action then action :: actions else actions,
            skipped, store)
  end.

(** A world in which the pattern of the regex policy is a plain text, so
    that it matches the commands that start with it. *)
Definition literal_pattern_world : World :=
  {| find_executable := fun _ => false;
     clang_version_info := fun _ => false;
     compiler_err := fun _ => None;
     standard_probe_err := fun _ _ => None;
     path_exists := fun _ => false;
     path_isdir := fun _ => false;
     has_intrin_header := fun _ => false;
     read_text := fun _ => Some "";
     load_json_or_empty := fun _ => [];
     toolchain_in_args := fun _ => false;
     re_compiles := fun _ => true;
     re_match := fun pattern s => PyStr.startswith s pattern;
     action_hash := fun a => original_command a |}.

(** An action of which the command, the source and the output are
    given. *)
Definition action_of_command (command source_path output_path : string)
  : BuildAction :=
  with_original_command command (action_of source_path output_path).


(** A reference to a response file, [@name]: an option that starts with
    [@]. *)
Definition response_file_reference (opt : string) : bool :=
  PyStr.startswith opt "@".



(** A world with one file, [/proj/opts.rsp], that holds
    [-DFOO main.cpp]. *)
Definition response_file_world : World :=
  {| find_executable := fun _ => false;
     clang_version_info := fun _ => false;
     compiler_err := fun _ => None;
     standard_probe_err := fun _ _ => None;
     path_exists := fun p => p =? "/proj/opts.rsp";
     path_isdir := fun _ => false;
     has_intrin_header := fun _ => false;
     read_text := fun p => if p =? "/proj/opts.rsp"
                           then Some "-DFOO main.cpp"
                           else None;
     load_json_or_empty := fun _ => [];
     toolchain_in_args := fun _ => false;
     re_compiles := fun _ => true;
     re_match := fun _ _ => false;
     action_hash := fun a => original_command a |}.

(** A world in which the compilation of the standard probe prints the
    given [#error] text as a compiler does. *)
Definition standard_probe_world (error_text : string) : World :=
  {| find_executable := fun _ => false;
     clang_version_info := fun _ => false;
     compiler_err := fun _ => None;
     standard_probe_err :=
       fun _ _ => Some ("probe:3:6: error: #error " ++ error_text
                        ++ String PyStr.LF "");
     path_exists := fun _ => false;
     path_isdir := fun _ => false;
     has_intrin_header := fun _ => false;
     read_text := fun _ => Some "";
     load_json_or_empty := fun _ => [];
     toolchain_in_args := fun _ => false;
     re_compiles := fun _ => true;
     re_match := fun _ _ => false;
     action_hash := fun a => original_command a |}.

(** What a compiler prints for its include search, here with one
    directory whose name has a space. *)
Definition include_listing : string :=
  "#include <...> search starts here:" ++ String PyStr.LF ""
  ++ " /opt/my sdk/include" ++ String PyStr.LF ""
  ++ "End of search list." ++ String PyStr.LF "".

(** A world whose compilers print [include_listing] when they are asked
    for their include search. *)
Definition include_probe_world : World :=
  {| find_executable := fun _ => false;
     clang_version_info := fun _ => false;
     compiler_err :=
       fun cmd => if PyStr.endswith cmd " - -v " then Some include_listing
                  else None;
     standard_probe_err := fun _ _ => None;
     path_exists := fun _ => false;
     path_isdir := fun _ => false;
     has_intrin_header := fun _ => false;
     read_text := fun _ => Some "";
     load_json_or_empty := fun _ => [];
     toolchain_in_args := fun _ => false;
     re_compiles := fun _ => true;
     re_match := fun _ _ => false;
     action_hash := fun a => original_command a |}.

(** A world in which every compiler-info file holds [contents]. *)
Definition compiler_info_file_world (contents : compiler_info_t) : World :=
  {| find_executable := fun _ => false;
     clang_version_info := fun _ => false;
     compiler_err := fun _ => None;
     standard_probe_err := fun _ _ => None;
     path_exists := fun _ => true;
     path_isdir := fun _ => false;
     has_intrin_header := fun _ => false;
     read_text := fun _ => Some "";
     load_json_or_empty := fun _ => contents;
     toolchain_in_args := fun _ => false;
     re_compiles := fun _ => true;
     re_match := fun _ _ => false;
     action_hash := fun a => original_command a |}.

(** Characters that [shlex] takes as they are. *)
Definition plain_char (c : ascii) : bool :=
  negb (Shlex.is_whitespace c || Shlex.is_quote c || Shlex.is_escape c).

Fixpoint plain_chars (s : string) : bool :=
  match s with
  | "" => true
  | String c s' => plain_char c && plain_chars s'
  end.

(** An include path that the loader reads back as it was written. *)
Definition loadable (s : string) : bool :=
  plain_chars s && negb (s =? "") && negb (s =? "-isystem").

(** ** Notions used in the further properties *)

(** What the processing of the item [item] may do to [details]: options
    are only added at the end, COMPILE stays, a language that is set stays
    set and changes only for an item that starts with [-x], and the other
    entries that [parse_options] fills in itself are left alone. *)
Definition flag_effect (item : string) (d d' : details) : Prop :=
  (exists added,
      analyzer_options d' = List.app (analyzer_options d) added)
  /\ (action_type d = Some COMPILE -> action_type d' = Some COMPILE)
  /\ (lang d <> None -> lang d' <> None)
  /\ (PyStr.startswith item "-x" = false -> lang d' = lang d)
  /\ (negb (item =? "-o") = true -> output d' = output d)
  /\ original_command d' = original_command d
  /\ directory d' = directory d
  /\ compiler d' = compiler d
  /\ source d' = source d
  /\ compiler_includes d' = compiler_includes d
  /\ compiler_standard d' = compiler_standard d
  /\ target d' = target d.

(** A processor that does not take the item leaves the cursor and
    [details] as they are, and one that answers has the effect above. *)
Definition well_behaved (p : processor) : Prop :=
  forall it d taken it' d',
    p it d = OK (taken, it', d') ->
    (taken = false -> it' = it /\ d' = d)
    /\ flag_effect (_item it) d d'.

(** The effect of the processing of a list of items. *)
Definition flags_effect (args : list string) (d d' : details) : Prop :=
  (exists added,
      analyzer_options d' = List.app (analyzer_options d) added)
  /\ (action_type d = Some COMPILE -> action_type d' = Some COMPILE)
  /\ (lang d <> None -> lang d' <> None)
  /\ (Forall (fun item => PyStr.startswith item "-x" = false) args ->
      lang d' = lang d)
  /\ (Forall (fun item => negb (item =? "-o") = true) args ->
      output d' = output d)
  /\ original_command d' = original_command d
  /\ directory d' = directory d
  /\ compiler d' = compiler d
  /\ source d' = source d
  /\ compiler_includes d' = compiler_includes d
  /\ compiler_standard d' = compiler_standard d
  /\ target d' = target d.

(** Every match of [r] begins with the character [c]. *)
Fixpoint headed (c : ascii) (r : Re.regex) : bool :=
  match r with
  | Re.Chr c' => Ascii.eqb c' c
  | Re.Seq r1 _ => headed c r1
  | Re.Alt r1 r2 => headed c r1 && headed c r2
  | Re.Plus r1 => headed c r1
  | _ => false
  end.

(** The entries of [details] that only the command and the entry of the
    database decide: what follows the processing of the flags leaves them
    alone, but for the source, the language and the action type that
    [settle_source] settles. *)
Definition keeps_command_data (d d' : details) : Prop :=
  original_command d' = original_command d
  /\ directory d' = directory d
  /\ compiler d' = compiler d
  /\ source d' = source d
  /\ lang d' = lang d
  /\ output d' = output d
  /\ arch d' = arch d
  /\ action_type d' = action_type d.

(** The source that [parse_options] stores for the file of an entry. *)
Definition source_of_file (file : string) : string :=
  if file =? "." then "" else file.

(** A world in which [g++] is the one executable. *)
Definition ccache_world : World :=
  {| find_executable := fun c => c =? "g++";
     clang_version_info := fun _ => false;
     compiler_err := fun _ => None;
     standard_probe_err := fun _ _ => None;
     path_exists := fun _ => false;
     path_isdir := fun _ => false;
     has_intrin_header := fun _ => false;
     read_text := fun _ => Some "";
     load_json_or_empty := fun _ => [];
     toolchain_in_args := fun _ => false;
     re_compiles := fun _ => true;
     re_match := fun _ _ => false;
     action_hash := fun a => original_command a |}.

(** The state in which the loop over the entries starts. *)
Definition initial_state (store : compiler_info_t) : loop_state :=
  {| uniqued_build_actions := [];
     skipped_cmp_cmd_count := 0;
     compiler_info := store |}.

(** Whether the loop of [parse_unique_log] skips the entry. *)
Definition entry_skipped
           (analysis_skip_handler pre_analysis_skip_handler
            : option (list SkipListHandler.rule))
           (ctu_or_stats_enabled : bool) (entry : db_entry) : bool :=
  skipped_at_both_phases analysis_skip_handler pre_analysis_skip_handler
    ctu_or_stats_enabled
    (PosixPath.normpath
       (PosixPath.join (e_directory entry) (e_file entry))).

(** A command from which no compiler can be read, or whose first argument
    is the empty string. *)
Definition no_first_flag (gcc_command : list string) : Prop :=
  gcc_command = []
  \/ (exists cc, gcc_command = [cc] /\ PyStr.endswith cc "ccache" = true)
  \/ (exists cc rest, gcc_command = cc :: "" :: rest).

(** Every language of [compiler_includes] holds a list of directories, and
    [f] holds of each directory. *)
Definition all_includes (f : string -> bool)
           (l : list (string * option (list string))) : Prop :=
  Forall (fun entry =>
            exists includes,
              snd entry = Some includes
              /\ Forall (fun dirname => f dirname = true) includes) l.

(** A world in which the compilers list an [include-fixed] directory and a
    directory with intrinsic headers in their include search. *)
Definition gcc_include_world : World :=
  {| find_executable := fun _ => false;
     clang_version_info := fun _ => false;
     compiler_err :=
       fun cmd =>
         if PyStr.endswith cmd " - -v "
         then Some ("#include <...> search starts here:" ++ String PyStr.LF ""
                    ++ " /usr/lib/gcc/include" ++ String PyStr.LF ""
                    ++ " /usr/lib/gcc/include-fixed" ++ String PyStr.LF ""
                    ++ " /usr/include" ++ String PyStr.LF ""
                    ++ "End of search list." ++ String PyStr.LF "")
         else None;
     standard_probe_err := fun _ _ => None;
     path_exists := fun _ => true;
     path_isdir := fun _ => true;
     has_intrin_header := fun dirname => dirname =? "/usr/lib/gcc/include";
     read_text := fun _ => Some "";
     load_json_or_empty := fun _ => [];
     toolchain_in_args := fun _ => false;
     re_compiles := fun _ => true;
     re_match := fun _ _ => false;
     action_hash := fun a => original_command a |}.

(** The target that a line of the output of [-v] names: the second word
    of a line whose first word is [Target:]. *)
Definition names_target (line : string) : option string :=
  match PyStr.split_ws (PyStr.strip line) with
  | label :: value :: _ => if label =? "Target:" then Some value else None
  | _ => None
  end.

(** A line before the include search: it starts none of the two marks. *)
Definition outside_line (line : string) : bool :=
  negb (PyStr.startswith line ImplicitCompilerInfo.end_mark)
  && negb (PyStr.startswith line ImplicitCompilerInfo.start_mark).

(** The directory that a line of the include search gives: the line
    without its surrounding white space, cut one character before
    [(framework directory)] when it holds that text. *)
Definition include_of_line (line : string) : string :=
  match PyStr.find "(framework directory)" (PyStr.strip line) with
  | None => PyStr.strip line
  | Some fpos =>
      ImplicitCompilerInfo.before_framework (PyStr.strip line) fpos
  end.

(** A world whose compilers print their version with a target. *)
Definition target_world : World :=
  {| find_executable := fun _ => false;
     clang_version_info := fun _ => false;
     compiler_err :=
       fun cmd =>
         if PyStr.endswith cmd " -v"
         then Some ("Using built-in specs." ++ String PyStr.LF ""
                    ++ "Target: x86_64-linux-gnu" ++ String PyStr.LF ""
                    ++ "Thread model: posix" ++ String PyStr.LF "")
         else None;
     standard_probe_err := fun _ _ => None;
     path_exists := fun _ => false;
     path_isdir := fun _ => false;
     has_intrin_header := fun _ => false;
     read_text := fun _ => Some "";
     load_json_or_empty := fun _ => [];
     toolchain_in_args := fun _ => false;
     re_compiles := fun _ => true;
     re_match := fun _ _ => false;
     action_hash := fun a => original_command a |}.

(** The option names no response file that exists. *)
Definition no_file_behind (w : World) (source_dir opt : string) : bool :=
  negb (PyStr.startswith opt "@"
        && path_exists w (PosixPath.join source_dir (PyStr.drop 1 opt))).

(** A word that [shlex.split] gives back as it is: not empty, and without
    white space, quote or backslash. *)
Definition plain_word (s : string) : bool :=
  plain_chars s && negb (s =? "").

(** What the loop of [parse_unique_log] maintains of the actions it keeps,
    whatever the policy: each is a compile action with a language, and
    under the policies that key the actions by their source no two have
    the same key and each key is the source of its action. *)
Definition kept_inv (compile_uniqueing : string) (u : uniqued) : Prop :=
  Forall (fun ka => analyzable (snd ka) = true) u
  /\ (compile_uniqueing <> "none" ->
      NoDup (map fst u)
      /\ Forall (fun ka => source (snd ka) = fst ka) u).

(** A skip list that skips every path under [/vendor]. *)
Definition vendor_skip_list : list SkipListHandler.rule :=
  SkipListHandler.__init__ "-/vendor".

(** The dictionary that the strict policy builds from actions with
    distinct sources. *)
Definition keyed_by_source (actions : list BuildAction) : uniqued :=
  map (fun a => (source a, a)) actions.

(** The flags of [IGNORED_PARAM_OPTIONS], as they are written in a
    command, with the number of parameters that are skipped with them. *)
Definition ignored_param_flags : list (string * nat) :=
  [("-install_name", 1); ("-exported_symbols_list", 1);
   ("-current_version", 1); ("-compatibility_version", 1);
   ("-init", 1); ("-e", 1); ("-seg1addr", 1); ("-bundle_loader", 1);
   ("-multiply_defined", 1); ("-sectorder", 3); ("--param", 1);
   ("-u", 1); ("--serialize-diagnostics", 1); ("-framework", 1);
   ("-filelist", 1)].

(** A world whose compilers answer every command with the listing of two
    include directories. *)
Definition listing_world : World :=
  {| find_executable := fun _ => false;
     clang_version_info := fun _ => false;
     compiler_err :=
       fun _ =>
         Some ("#include <...> search starts here:" ++ String PyStr.LF ""
               ++ " /usr/lib/gcc/include" ++ String PyStr.LF ""
               ++ " /usr/include" ++ String PyStr.LF ""
               ++ "End of search list." ++ String PyStr.LF "");
     standard_probe_err := fun _ _ => None;
     path_exists := fun _ => false;
     path_isdir := fun _ => false;
     has_intrin_header := fun _ => false;
     read_text := fun _ => Some "";
     load_json_or_empty := fun _ => [];
     toolchain_in_args := fun _ => false;
     re_compiles := fun _ => true;
     re_match := fun _ _ => false;
     action_hash := fun a => original_command a |}.

(** The items from which the chain of the other compilers makes options:
    the keys of [REPLACE_OPTIONS_MAP] and the items that
    [COMPILE_OPTIONS] or [COMPILE_OPTIONS_MERGED] match. *)
Definition collected_by_gcc_chain (item : string) : bool :=
  match alist_get String.eqb item REPLACE_OPTIONS_MAP with
  | Some (_ :: _) => true
  | _ => false
  end
  || Re.matches COMPILE_OPTIONS item
  || match Re.match_ COMPILE_OPTIONS_MERGED item with
     | Some _ => true
     | None => false
     end.

(** A processor that never changes the options. *)
Definition keeps_options (p : processor) : Prop :=
  forall it d taken it' d',
    p it d = OK (taken, it', d') ->
    analyzer_options d' = analyzer_options d.

(** ** [clangsa_version.py]: the parser of the output of [--version] *)

(** [class ClangVersionInfo], with the numbers that [int] gives. *)
Record ClangVersionInfo : Type := {
  major_version : N;
  minor_version : N;
  patch_version : N;
  installed_dir : string;
  vendor : string
}.

(** [class ClangVersionInfoParser] *)
Module ClangVersionInfoParser.

Definition is_digit (c : ascii) : bool :=
  let n := nat_of_ascii c in (Nat.leb 48 n && Nat.leb n 57).

(** [[0-9]+] at the start of [s], taken greedily: the digits and what
    follows them.  A dot or a white space follows the digits in the
    pattern, so that no shorter run of digits gives a match. *)
Fixpoint digits (s : string) : string * string :=
  match s with
  | String c s' =>
      if is_digit c
      then let (d, r) := digits s' in (String c d, r)
      else ("", s)
  | "" => ("", "")
  end.

Definition number (s : string) : option (string * string) :=
  let (d, r) := digits s in
  if d =? "" then None else Some (d, r).

(** The text [p] at the start of [s]: what follows it. *)
Definition literal (p s : string) : option string :=
  if PyStr.startswith s p
  then Some (PyStr.drop (String.length p) s) else None.

(** [int] of a string of digits.  An interpreter may refuse to convert a
    string of more than 4300 digits; the statements keep to shorter
    strings. *)
Fixpoint int_acc (acc : N) (s : string) : N :=
  match s with
  | "" => acc
  | String c s' =>
      int_acc (acc * 10 + N.of_nat (nat_of_ascii c - 48)) s'
  end.

Definition int (s : string) : N := int_acc 0 s.

(** [(?P<vendor>clang|Apple LLVM)] at the start of [s]. *)
Definition vendor_here (s : string) : option (string * string) :=
  match literal "clang" s with
  | Some r => Some ("clang", r)
  | None =>
      match literal "Apple LLVM" s with
      | Some r => Some ("Apple LLVM", r)
      | None => None
      end
  end.

(** [clang_version_pattern] at the start of [s]: the groups [vendor],
    [major_version], [minor_version] and [patch_version]. *)
Definition version_here (s : string)
  : option (string * string * string * string) :=
  match vendor_here s with
  | Some (the_vendor, r) =>
      match literal " version " r with
      | Some r =>
          match number r with
          | Some (major, r) =>
              match literal "." r with
              | Some r =>
                  match number r with
                  | Some (minor, r) =>
                      match literal "." r with
                      | Some r =>
                          match number r with
                          | Some (patch, _) =>
                              Some (the_vendor, major, minor, patch)
                          | None => None
                          end
                      | None => None
                      end
                  | None => None
                  end
              | None => None
              end
          | None => None
          end
      | None => None
      end
  | None => None
  end.

(** [re.search(self.clang_version_pattern, version_string)] *)
Fixpoint search_version (s : string)
  : option (string * string * string * string) :=
  match version_here s with
  | Some groups => Some groups
  | None =>
      match s with
      | "" => None
      | String _ s' => search_version s'
      end
  end.

(** [[^\s]*] at the start of [s], taken greedily. *)
Fixpoint not_space (s : string) : string :=
  match s with
  | String c s' => if PyStr.isspace c then "" else String c (not_space s')
  | "" => ""
  end.

Definition installed_dir_label : string := "InstalledDir: ".

(** [re.search(self.clang_installed_dir_pattern, version_string)], the
    group [installed_dir]. *)
Definition search_installed_dir (s : string) : option string :=
  match PyStr.find installed_dir_label s with
  | Some i =>
      Some (not_space (PyStr.drop (i + String.length installed_dir_label) s))
  | None => None
  end.

(** [ClangVersionInfoParser.parse]; [None] stands for [False]. *)
Definition parse (version_string : string) : option ClangVersionInfo :=
  match search_version version_string,
        search_installed_dir version_string with
  | Some (the_vendor, major, minor, patch), Some dir =>
      Some {| major_version := int major;
              minor_version := int minor;
              patch_version := int patch;
              installed_dir := dir;
              vendor := the_vendor |}
  | _, _ => None
  end.

End ClangVersionInfoParser.

(** A string of digits that is not empty, and not longer than the 4300
    digits to which an interpreter may limit the conversion to [int]. *)
Definition digit_string (s : string) : bool :=
  negb (s =? "")
  && Nat.leb (String.length s) 4300
  && forallb ClangVersionInfoParser.is_digit (list_ascii_of_string s).

(** What follows the patch number is not a digit. *)
Definition no_digit_first (s : string) : bool :=
  match s with
  | String c _ => negb (ClangVersionInfoParser.is_digit c)
  | "" => true
  end.

(** A directory without white space, followed by white space or by the
    end of the text. *)
Definition directory_then_space (dir post : string) : bool :=
  forallb (fun c => negb (PyStr.isspace c)) (list_ascii_of_string dir)
  && match post with
     | String c _ => PyStr.isspace c
     | "" => true
     end.

(** The items that a collector of the Clang chain takes before the last
    one, [__collect_clang_compile_opts], is asked. *)
Definition taken_before_clang_collector (item : string) : bool :=
  Re.matches IGNORED_OPTIONS_CLANG item
  || (item =? "-Xclang")
  || (item =? "-o")
  || (item =? "-c")
  || PyStr.startswith item "-print-prog-name"
  || Re.matches PRECOMPILATION_OPTION item
  || (item =? "-arch")
  || PyStr.startswith item "-x"
  || match Re.match_ COMPILE_OPTIONS_MERGED item with
     | Some _ => true
     | None => false
     end.

(** A world in which [/proj/inc] is a directory: it exists, and [open]
    fails for it. *)
Definition directory_world : World :=
  {| find_executable := fun _ => false;
     clang_version_info := fun _ => false;
     compiler_err := fun _ => None;
     standard_probe_err := fun _ _ => None;
     path_exists := fun p => p =? "/proj/inc";
     path_isdir := fun p => p =? "/proj/inc";
     has_intrin_header := fun _ => false;
     read_text := fun _ => None;
     load_json_or_empty := fun _ => [];
     toolchain_in_args := fun _ => false;
     re_compiles := fun _ => true;
     re_match := fun _ _ => false;
     action_hash := fun a => original_command a |}.

(** [details] with other options before its own and with another
    command text. *)
Definition rebase (options : list string) (command : string) (d : details)
  : details :=
  with_original_command command
    (with_analyzer_options (List.app options (analyzer_options d)) d).

(** A processor goes the same way on [details] that differ in the options
    they start with and in the command text only. *)
Definition rebases (p : processor) : Prop :=
  forall options command it d,
    p it (rebase options command d)
    = match p it d with
      | OK (taken, it', d') => OK (taken, it', rebase options command d')
      | Raise e => Raise e
      end.

(** The flags of [merged_path_flags] that [INCLUDE_OPTIONS_MERGED]
    matches: the filter of the directories with intrinsic headers reads
    their value. *)
Definition intrin_filtered_flags : list string :=
  ["-I"; "-iquote"; "-isystem"; "-iwithprefix"].

(** The option of the flag [F] with the path [path] is dropped by the
    filter of the directories with intrinsic headers. *)
Definition dropped_as_intrin (w : World) (keep_gcc_intrin : bool)
           (F path : string) : bool :=
  negb keep_gcc_intrin
  && PyStr.mem F intrin_filtered_flags
  && negb (keep_include_value w path).

(** The filter of the directories with intrinsic headers, when it runs,
    reads the options as whole units: no include flag at their end is left
    without its value. *)
Definition read_in_units (w : World) (keep_gcc_intrin : bool)
           (options : list string) : Prop :=
  keep_gcc_intrin = true
  \/ exists kept, aop_without_intrin w options = OK kept.

(** * Properties *)

(** ** The model on small inputs *)

(** The patterns of the option tables are inside the fragment that
    [Re.compile] reads. *)
Lemma option_tables_compile :
  forallb (fun p => match Re.compile p with Some _ => true | None => false end)
          (List.concat
             [IGNORED_OPTIONS_CLANG_list; IGNORED_OPTIONS_GCC_list;
              map fst IGNORED_PARAM_OPTIONS_list; COMPILE_OPTIONS_list;
              COMPILE_OPTIONS_MERGED_list; INCLUDE_OPTIONS_MERGED_list;
              ["-(E|M[G|T|Q|F|J|P|V|M]*)$"; ".*";
               "-m(32|64)|-std=|-stdlib=|-nostdinc"]])
  = true.
Proof. vm_compute. reflexivity. Qed.

(** What the patterns take: a prefix for most, the whole flag for the
    patterns that end with [$]. *)
Lemma option_patterns_examples :
  map (Re.matches IGNORED_OPTIONS_GCC)
      ["-w"; "-Wall"; "-Werror=format"; "-g"; "-ggdb3"; "-DNDEBUG";
       "-DNDEBUG=1"; "-fstack"; "-fs"; "-mno-abm"; "-I/x"]
  = [true; false; true; true; true; true; false; false; true; true; false]
  /\ map (Re.match_ COMPILE_OPTIONS_MERGED)
         ["-I/x"; "-I"; "--sysroot=/x"; "-isysroot"; "-iwithprefixbefore";
          "-c"; "-imultilib"]
     = [Some 2; Some 2; Some 9; Some 9; Some 12; None; None]
  /\ map (Re.matches PRECOMPILATION_OPTION)
         ["-E"; "-M"; "-MM"; "-MF"; "-MD"; "-MMD"; "-Ex"]
     = [true; true; true; true; false; false; false]
  /\ map (Re.matches COMPILE_OPTIONS)
         ["-O2"; "-O0"; "-Os"; "-nostdinc++"; "-fPIC"; "-m64"; "-std=c99";
          "--sysroot=/a"; "--sysroot"; "-Wno-unused"; "-Wall"]
     = [true; false; true; true; true; true; true; true; false; true; false].
Proof. vm_compute. repeat split. Qed.

(** The command [gcc -O2 -Iinc -c a.c -o a.o] issued in [/proj], for a
    compiler that is not Clang and answers no probe. *)
Lemma gcc_command_example :
  exists action store,
    parse_options empty_world
                  (entry_of_command "/proj" "a.c" "gcc -O2 -Iinc -c a.c -o a.o")
                  None false false (Some (clang_version_info empty_world)) []
    = OK (action, store)
    /\ lang action = Some "c"
    /\ action_type action = Some COMPILE
    /\ output action = "a.o"
    /\ analyzer_options action = ["-O2"; "-I/proj/inc"]
    /\ source action = "a.c"
    /\ compiler action = "gcc"
    /\ original_command action = "gcc -O2 -Iinc -c a.c -o a.o".
Proof.
  eexists; eexists. split; [vm_compute; reflexivity|]. repeat split.
Qed.

(** [shlex.split], [os.path.normpath], [os.path.splitext] and the skip
    list on small inputs. *)
Lemma library_examples :
  Shlex.split "gcc  'a b'\ c -DX=1 ''" = OK ["gcc"; "a b c"; "-DX=1"; ""]
  /\ Shlex.split "gcc 'a" = Raise ValueError
  /\ map PosixPath.normpath ["/a/./b/../c//d/"; "//a/../.."; "a/../.."; ""]
     = ["/a/c/d"; "//"; ".."; "."]
  /\ map PosixPath.splitext ["/x/a.tar.gz"; "/x/.bashrc"; "/x.y/a"; "a.C"]
     = [("/x/a.tar", ".gz"); ("/x/.bashrc", ""); ("/x.y/a", "");
        ("a", ".C")]
  /\ map (fun pat => Fnmatch.fnmatchcase "abc" pat)
         ["a[a-c]c"; "a[!a-c]c"; "a?c"; "*"; "ab"; "a*c*"; "[]abc"; "abc["]
     = [true; false; true; true; false; true; false; false].
Proof. vm_compute. repeat split. Qed.

(** ** The cursor only moves forward *)

Lemma next_advances item l it' :
  next {| _item := item; _it := l |} = OK it' ->
  exists x, l = x :: _it it' /\ _item it' = x.
Proof.
  unfold next; simpl. destruct l as [|x l']; intros H; inversion H; subst.
  exists x; split; reflexivity.
Qed.

Ltac use_cases :=
  cbn [next bind _item _it app];
  repeat match goal with
         | E : ?t = _ |- context [?t] => rewrite E
         end;
  cbn [next bind _item _it app].

Ltac stay :=
  match goal with
  | H : OK _ = OK _ |- _ =>
      inversion H; subst; clear H; exists (@nil string); split;
      [reflexivity | intros; use_cases; reflexivity]
  end.

Ltac one_more x :=
  match goal with
  | H : OK _ = OK _ |- _ =>
      inversion H; subst; clear H; exists [x]; split;
      [reflexivity | intros; use_cases; reflexivity]
  end.

Lemma skip_sources_advances : advances __skip_sources.
Proof.
  intros item l d taken it' d'. unfold __skip_sources; cbn [_item _it].
  destruct item; intros H; [discriminate H | stay].
Qed.

Lemma skip_clang_advances : advances __skip_clang.
Proof.
  intros item l d taken it' d'. unfold __skip_clang; simpl. intros H. stay.
Qed.

Lemma collect_clang_compile_opts_advances :
  advances __collect_clang_compile_opts.
Proof.
  intros item l d taken it' d'. unfold __collect_clang_compile_opts; cbn [_item _it].
  destruct (Re.matches CLANG_OPTIONS item); intros H; stay.
Qed.

Lemma collect_compile_opts_advances : advances __collect_compile_opts.
Proof.
  intros item l d taken it' d'. unfold __collect_compile_opts; cbn [_item _it].
  destruct (Re.matches COMPILE_OPTIONS item); intros H; stay.
Qed.

Lemma replace_advances : advances __replace.
Proof.
  intros item l d taken it' d'. unfold __replace; cbn [_item _it].
  destruct (alist_get String.eqb item REPLACE_OPTIONS_MAP) as [[|x v]|];
    intros H; stay.
Qed.

Lemma determine_action_type_advances : advances __determine_action_type.
Proof.
  intros item l d taken it' d'. unfold __determine_action_type; cbn [_item _it].
  destruct (item =? "-c"); [intros H; stay|].
  destruct (PyStr.startswith item "-print-prog-name") eqn:?; [intros H; stay|].
  destruct (Re.matches PRECOMPILATION_OPTION item); intros H; stay.
Qed.

Lemma xclang_advances : advances __collect_transform_xclang_opts.
Proof.
  intros item l d taken it' d'. unfold __collect_transform_xclang_opts; cbn [_item _it].
  destruct (item =? "-Xclang"); [|intros H; stay].
  destruct l as [|x l']; cbn [next _item _it bind]; [discriminate|].
  destruct (PyStr.mem x XCLANG_FLAGS_TO_SKIP) eqn:?; intros H; one_more x.
Qed.

Lemma get_output_advances : advances __get_output.
Proof.
  intros item l d taken it' d'. unfold __get_output; cbn [_item _it].
  destruct (item =? "-o"); [|intros H; stay].
  destruct l as [|x l']; cbn [next _item _it bind]; [discriminate|]. intros H; one_more x.
Qed.

Lemma get_arch_advances : advances __get_arch.
Proof.
  intros item l d taken it' d'. unfold __get_arch; cbn [_item _it].
  destruct (item =? "-arch"); [|intros H; stay].
  destruct l as [|x l']; cbn [next _item _it bind]; [discriminate|]. intros H; one_more x.
Qed.

Lemma get_language_advances : advances __get_language.
Proof.
  intros item l d taken it' d'. unfold __get_language; cbn [_item _it].
  destruct (PyStr.startswith item "-x") eqn:?; [|intros H; stay].
  destruct (item =? "-x"); [|intros H; stay].
  destruct l as [|x l']; cbn [next _item _it bind]; [discriminate|]. intros H; one_more x.
Qed.

Lemma include_opts_advances : advances __collect_transform_include_opts.
Proof.
  intros item l d taken it' d'. unfold __collect_transform_include_opts; cbn [_item _it].
  destruct (Re.match_ COMPILE_OPTIONS_MERGED item) as [m|]; [|intros H; stay].
  destruct (negb (String.length (PyStr.take m item) =? String.length item)%nat) eqn:?.
  - cbn [bind].
    destruct (PyStr.mem (PyStr.take m item) flags_with_path) eqn:?.
    + destruct (PyStr.startswith _ "=") eqn:?; intros H; stay.
    + intros H; stay.
  - destruct l as [|x l']; cbn [next _item _it bind]; [discriminate|].
    destruct (PyStr.mem (PyStr.take m item) flags_with_path) eqn:?.
    + destruct (PyStr.startswith x "=") eqn:?; intros H; one_more x.
    + intros H; one_more x.
Qed.

Lemma skip_params_advances n :
  forall item l it',
    skip_params n {| _item := item; _it := l |} = OK it' ->
    exists consumed,
      l = (consumed ++ _it it')%list /\
      forall r,
        skip_params n {| _item := item; _it := (consumed ++ r)%list |}
        = OK {| _item := _item it'; _it := r |}.
Proof.
  induction n as [|n IH]; intros item l it' H.
  - inversion H; subst. exists []. split; [reflexivity|]. intros; reflexivity.
  - destruct l as [|x l']; [discriminate H|].
    cbn [skip_params next bind _it] in H.
    destruct (IH _ _ _ H) as [consumed [Hl Hr]].
    exists (x :: consumed). split.
    + simpl. now rewrite <- Hl.
    + intros r. cbn [skip_params next bind _it app]. apply Hr.
Qed.

Lemma skip_param_options_advances table :
  advances (skip_param_options table).
Proof.
  induction table as [|[pattern arg_num] table IH];
    intros item l d taken it' d'; cbn [skip_param_options _item].
  - intros H; stay.
  - destruct (Re.matches pattern item) eqn:E.
    + destruct (skip_params arg_num {| _item := item; _it := l |}) eqn:Es;
        cbn [bind]; [|discriminate].
      intros H; inversion H; subst; clear H.
      destruct (@skip_params_advances _ _ _ _ Es) as [consumed [Hl Hr]].
      exists consumed. split; [assumption|].
      intros r. now rewrite Hr.
    + apply IH.
Qed.

Lemma skip_gcc_advances : advances __skip_gcc.
Proof.
  intros item l d taken it' d'. unfold __skip_gcc; cbn [_item].
  destruct (Re.matches IGNORED_OPTIONS_GCC item) eqn:E.
  - intros H; stay.
  - apply skip_param_options_advances.
Qed.

Lemma clang_flag_collectors_advance : Forall advances clang_flag_collectors.
Proof.
  repeat constructor;
    auto using skip_sources_advances, skip_clang_advances, xclang_advances,
      get_output_advances, determine_action_type_advances, get_arch_advances,
      get_language_advances, include_opts_advances,
      collect_clang_compile_opts_advances.
Qed.

Lemma gcc_flag_transformers_advance : Forall advances gcc_flag_transformers.
Proof.
  repeat constructor;
    auto using skip_gcc_advances, replace_advances,
      collect_compile_opts_advances, include_opts_advances,
      determine_action_type_advances, skip_sources_advances,
      get_arch_advances, get_language_advances, get_output_advances.
Qed.

Lemma flag_processors_advance clang :
  Forall advances (flag_processors_for clang).
Proof.
  destruct clang;
    [apply clang_flag_collectors_advance | apply gcc_flag_transformers_advance].
Qed.

Lemma run_processors_advances ps :
  Forall advances ps ->
  forall item l d it' d',
    run_processors ps {| _item := item; _it := l |} d = OK (it', d') ->
    exists consumed,
      l = (consumed ++ _it it')%list /\
      forall r,
        run_processors ps {| _item := item; _it := (consumed ++ r)%list |} d
        = OK ({| _item := _item it'; _it := r |}, d').
Proof.
  induction 1 as [|p ps Hp _ IH]; intros item l d it' d' H.
  - inversion H; subst. exists []. split; [reflexivity|]. intros; reflexivity.
  - cbn [run_processors] in H.
    destruct (p {| _item := item; _it := l |} d) as [[[taken it1] d1]|e] eqn:Ep;
      cbn [bind] in H; [|discriminate H].
    destruct (Hp _ _ _ _ _ _ Ep) as [c1 [Hl1 Hr1]].
    destruct taken.
    + inversion H; subst. exists c1. split; [reflexivity|].
      intros r. cbn [run_processors]. now rewrite Hr1.
    + destruct it1 as [item1 l1]. cbn [_it _item] in *.
      destruct (IH _ _ _ _ _ H) as [c2 [Hl2 Hr2]].
      exists (c1 ++ c2)%list. split.
      * now rewrite <- app_assoc, <- Hl2.
      * intros r. cbn [run_processors].
        rewrite <- app_assoc, Hr1. cbn [bind]. apply Hr2.
Qed.

Lemma run_processors_shorter ps :
  Forall advances ps ->
  forall item l d it' d',
    run_processors ps {| _item := item; _it := l |} d = OK (it', d') ->
    List.length (_it it') <= List.length l.
Proof.
  intros Hps item l d it' d' H.
  destruct (@run_processors_advances _ Hps _ _ _ _ _ H) as [c [Hl _]].
  apply (f_equal (@List.length string)) in Hl.
  rewrite length_app in Hl. lia.
Qed.

(** With enough of it, [fuel] does not matter. *)
Lemma process_flags_fuel_enough ps :
  Forall advances ps ->
  forall fuel1 fuel2 args d,
    List.length args <= fuel1 -> List.length args <= fuel2 ->
    process_flags_fuel fuel1 ps args d = process_flags_fuel fuel2 ps args d.
Proof.
  intros Hps. induction fuel1 as [|fuel1 IH]; intros fuel2 args d H1 H2.
  - destruct args; [|simpl in H1; lia]. destruct fuel2; reflexivity.
  - destruct args as [|x rest]; [destruct fuel2; reflexivity|].
    destruct fuel2 as [|fuel2]; [simpl in H2; lia|].
    cbn [process_flags_fuel].
    destruct (run_processors ps {| _item := x; _it := rest |} d)
      as [[it' d1]|e] eqn:E; cbn [bind]; [|reflexivity].
    pose proof (@run_processors_shorter _ Hps _ _ _ _ _ E) as Hlen.
    simpl in H1, H2. apply IH; lia.
Qed.

(** The loop over the items, as the program has it. *)
Lemma process_flags_cons ps x rest d :
  Forall advances ps ->
  process_flags ps (x :: rest) d
  = (r <- run_processors ps {| _item := x; _it := rest |} d ;;
     let '(it, d) := r in process_flags ps (_it it) d).
Proof.
  intros Hps. unfold process_flags. cbn [List.length process_flags_fuel].
  destruct (run_processors ps {| _item := x; _it := rest |} d)
    as [[it' d1]|e] eqn:E; cbn [bind]; [|reflexivity].
  pose proof (@run_processors_shorter _ Hps _ _ _ _ _ E) as Hlen.
  apply process_flags_fuel_enough; auto.
Qed.

Lemma process_flags_nil ps d : process_flags ps [] d = OK d.
Proof. reflexivity. Qed.

(** Items that are processed to the end leave what follows them to be
    processed next. *)
Lemma process_flags_app ps :
  Forall advances ps ->
  forall n pre d d' r,
    List.length pre <= n ->
    process_flags ps pre d = OK d' ->
    process_flags ps (pre ++ r) d = process_flags ps r d'.
Proof.
  intros Hps. induction n as [|n IH]; intros pre d d' r Hn H.
  - destruct pre; [|simpl in Hn; lia]. inversion H; subst. reflexivity.
  - destruct pre as [|x rest].
    + inversion H; subst. reflexivity.
    + rewrite process_flags_cons in H by assumption.
      destruct (run_processors ps {| _item := x; _it := rest |} d)
        as [[it' d1]|e] eqn:E; cbn [bind] in H; [|discriminate H].
      destruct (@run_processors_advances _ Hps _ _ _ _ _ E) as [c [Hl Hr]].
      simpl. rewrite process_flags_cons by assumption.
      rewrite Hl, <- app_assoc, Hr. cbn [bind _it].
      apply IH; [|assumption].
      simpl in Hn. rewrite Hl, length_app in Hn. lia.
Qed.

(** ** A flag that waits for a parameter at the end of the command *)

Lemma parameter_flag_alone_raises clang f d :
  In f (parameter_flags clang) ->
  run_processors (flag_processors_for clang) {| _item := f; _it := [] |} d
  = Raise StopIteration.
Proof.
  intros H. destruct clang; cbn [parameter_flags List.app In] in H;
    repeat (destruct H as [<-|H]; [vm_compute; reflexivity|]);
    contradiction.
Qed.

Lemma process_flags_last clang pre f d d' :
  process_flags (flag_processors_for clang) pre d = OK d' ->
  In f (parameter_flags clang) ->
  process_flags (flag_processors_for clang) (List.app pre [f]) d
  = Raise StopIteration.
Proof.
  intros Hpre Hf.
  rewrite (@process_flags_app _ (flag_processors_advance clang)
             (List.length pre) pre d d' [f] (le_n _) Hpre).
  rewrite process_flags_cons by apply flag_processors_advance.
  now rewrite parameter_flag_alone_raises.
Qed.

Lemma parse_entries_app w cu cif k1 k2 ash pash ctu l1 :
  forall l2 st,
    parse_entries w cu cif k1 k2 ash pash ctu (List.app l1 l2) st
    = match parse_entries w cu cif k1 k2 ash pash ctu l1 st with
      | Completed st' => parse_entries w cu cif k1 k2 ash pash ctu l2 st'
      | other => other
      end.
Proof.
  induction l1 as [|e l1 IH]; intros l2 st; [reflexivity|].
  cbn [List.app parse_entries].
  destruct (skipped_at_both_phases _ _ _ _); [apply IH|].
  destruct (parse_options _ _ _ _ _ _ _) as [[action store]|ex];
    [|reflexivity].
  destruct (analyzable action); [|apply IH].
  destruct (unique_action _ _ _ _); [apply IH | reflexivity].
Qed.

Lemma parse_unique_log_compiled w cu cif k1 k2 ash pash ctu db store :
  uniqueing_re w cu = OK tt ->
  parse_unique_log w cu cif k1 k2 ash pash ctu db store
  = match
      match extend_compilation_database_entries w db with
      | Raise e => Raised e
      | OK entries =>
          parse_entries w cu cif k1 k2 ash pash ctu entries
                        {| uniqued_build_actions := [];
                           skipped_cmp_cmd_count := 0;
                           compiler_info := store |}
      end
    with
    | Completed st =>
        Returned (alist_values (uniqued_build_actions st))
                 (skipped_cmp_cmd_count st) (compiler_info st)
    | Exited code logged => SysExit code logged
    | Raised e =>
        if caught e then SysExit 1 (invalid_database db) else Unhandled e
    end.
Proof. intros H. unfold parse_unique_log. now rewrite H. Qed.

Lemma parse_unique_log_not_compiled w cu cif k1 k2 ash pash ctu db store :
  uniqueing_re w cu = Raise ReError ->
  parse_unique_log w cu cif k1 k2 ash pash ctu db store = Unhandled ReError.
Proof. intros H. unfold parse_unique_log. now rewrite H. Qed.

(** C9 (as amended).  When the items before the last one are processed to
    the end, so that the last item is itself taken as a flag, and the
    chain of the compiler reads a parameter after that flag,
    [parse_options] raises [StopIteration]; [parse_unique_log] does not
    catch it, and a run whose policy is set up without error ends with
    this exception once the entries before have been processed. *)
Theorem trailing_parameter_flag_raises :
  forall (w : World) (entry : db_entry) (first : string)
         (pre : list string) (f original the_compiler : string)
         (d' : details),
    entry_command entry = OK (first :: List.app pre [f], original) ->
    determine_compiler (first :: List.app pre [f])
                       (ImplicitCompilerInfo.is_executable_compiler w)
    = OK the_compiler ->
    process_flags (flag_processors_for (clang_version_info w the_compiler))
                  pre
                  (start_details original (e_directory entry) the_compiler)
    = OK d' ->
    In f (parameter_flags (clang_version_info w the_compiler)) ->
    (forall file compiler_info_file keep_gcc_include_fixed keep_gcc_intrin
            store,
        parse_options w (with_file file entry) compiler_info_file
                      keep_gcc_include_fixed keep_gcc_intrin
                      (Some (clang_version_info w)) store
        = Raise StopIteration)
    /\ caught StopIteration = false
    /\ (forall compile_uniqueing compiler_info_file keep_gcc_include_fixed
               keep_gcc_intrin analysis_skip_handler
               pre_analysis_skip_handler ctu_or_stats_enabled
               compilation_database before rest store st,
           uniqueing_re w compile_uniqueing = OK tt ->
           extend_compilation_database_entries w compilation_database
           = OK (List.app before (entry :: rest)) ->
           parse_entries w compile_uniqueing compiler_info_file
                         keep_gcc_include_fixed keep_gcc_intrin
                         analysis_skip_handler pre_analysis_skip_handler
                         ctu_or_stats_enabled before
                         {| uniqued_build_actions := [];
                            skipped_cmp_cmd_count := 0;
                            compiler_info := store |}
           = Completed st ->
           skipped_at_both_phases
             analysis_skip_handler pre_analysis_skip_handler
             ctu_or_stats_enabled
             (PosixPath.normpath
                (PosixPath.join (e_directory entry) (e_file entry)))
           = false ->
           parse_unique_log w compile_uniqueing compiler_info_file
                            keep_gcc_include_fixed keep_gcc_intrin
                            analysis_skip_handler pre_analysis_skip_handler
                            ctu_or_stats_enabled compilation_database store
           = Unhandled StopIteration).
Proof.
  intros w entry first pre f original the_compiler d' Hcmd Hcc Hpre Hf.
  assert (Hopt : forall file cif k1 k2 store,
             parse_options w (with_file file entry) cif k1 k2
                           (Some (clang_version_info w)) store
             = Raise StopIteration).
  { intros file cif k1 k2 store. unfold parse_options.
    replace (entry_command (with_file file entry)) with (entry_command entry)
      by (destruct entry; reflexivity).
    rewrite Hcmd. cbn [bind]. rewrite Hcc. cbn [bind tl compiler_version_info].
    replace (e_directory (with_file file entry)) with (e_directory entry)
      by reflexivity.
    now rewrite (process_flags_last _ _ Hpre Hf). }
  split; [exact Hopt|]. split; [reflexivity|].
  intros cu cif k1 k2 ash pash ctu db before rest store st Hre Hext Hbefore
         Hskip.
  rewrite (@parse_unique_log_compiled w cu cif k1 k2 ash pash ctu db store Hre).
  rewrite Hext, parse_entries_app, Hbefore.
  cbn [parse_entries].
  replace (e_file (with_file _ entry))
    with (PosixPath.normpath
            (PosixPath.join (e_directory entry) (e_file entry)))
    by reflexivity.
  now rewrite Hskip, Hopt.
Qed.

(** Witness of C9: the command [clang -c a.c -o] of a Clang compiler. *)
Lemma trailing_parameter_flag_raises_witness :
  parse_options clang_world (entry_of_command "/proj" "a.c" "clang -c a.c -o")
                None false false (Some (clang_version_info clang_world)) []
  = Raise StopIteration
  /\ parse_unique_log clang_world "none" None false false None None false
                      [entry_of_command "/proj" "a.c" "clang -c a.c -o"] []
     = Unhandled StopIteration.
Proof.
  pose proof (@trailing_parameter_flag_raises
                clang_world (entry_of_command "/proj" "a.c" "clang -c a.c -o")
                "clang" ["-c"; "a.c"] "-o" "clang -c a.c -o" "clang"
                (with_action_type (Some COMPILE)
                   (start_details "clang -c a.c -o" "/proj" "clang"))
                eq_refl eq_refl eq_refl
                (or_introl eq_refl)) as [H1 [_ H3]].
  split.
  - exact (H1 "a.c" None false false []).
  - exact (H3 "none" None false false None None false
              [entry_of_command "/proj" "a.c" "clang -c a.c -o"]
              [] [] [] _ eq_refl eq_refl eq_refl eq_refl).
Defined.

(** C9, counterexample.  With a compiler that is not Clang the chain has
    no processor for [-Xclang], and a last [-o] that is the parameter of
    the flag before it is not taken as a flag: both commands end with a
    flag of the claim and [parse_options] returns an action. *)
Lemma trailing_flag_may_return :
  (exists action store,
      parse_options empty_world
                    (entry_of_command "/proj" "a.c" "gcc -c a.c -Xclang")
                    None false false (Some (clang_version_info empty_world))
                    []
      = OK (action, store))
  /\ (exists action store,
         parse_options empty_world
                       (entry_of_command "/proj" "a.c" "gcc -c a.c -o -o")
                       None false false
                       (Some (clang_version_info empty_world)) []
         = OK (action, store) /\ output action = "-o").
Proof.
  split.
  - eexists; eexists. vm_compute. reflexivity.
  - eexists; eexists. split; vm_compute; reflexivity.
Qed.

(** ** The action type of an assembled action *)

Lemma settle_source_action_type file d :
  action_type (fst (settle_source file d)) <> None
  /\ (get_language (snd (PosixPath.splitext file)) = None ->
      action_type (fst (settle_source file d)) = Some LINK).
Proof.
  unfold settle_source.
  set (d1 := match action_type d with
             | Some _ => d
             | None => with_action_type (Some COMPILE) d
             end).
  assert (H1 : action_type d1 <> None).
  { subst d1. destruct (action_type d) eqn:E; [rewrite E|]; discriminate. }
  clearbody d1. cbn [source with_source].
  set (d3 := if file =? "." then _ else _).
  assert (H3 : action_type d3 = action_type d1
               /\ (get_language (snd (PosixPath.splitext file)) = None ->
                   get_language (snd (PosixPath.splitext (source d3)))
                   = None)).
  { subst d3. destruct (file =? "."); split; try reflexivity.
    intros; assumption. }
  destruct H3 as [H3 H3']. clearbody d3.
  destruct (get_language (snd (PosixPath.splitext (source d3)))) as [l|].
  - split.
    + destruct (lang d3); cbn [fst action_type with_target with_lang];
        congruence.
    + intros H. specialize (H3' H). discriminate.
  - split; [discriminate | reflexivity].
Qed.

Lemma set_includes_from_ICI_action_type cc language store d :
  action_type (ImplicitCompilerInfo.set_includes_from_ICI cc language store d)
  = action_type d.
Proof.
  unfold ImplicitCompilerInfo.set_includes_from_ICI.
  destruct (alist_get String.eqb language (compiler_includes d))
    as [[[|? ?]|]|];
    destruct (ImplicitCompilerInfo.language_data cc language store);
    reflexivity.
Qed.

Lemma set_standard_from_ICI_action_type cc language store d :
  action_type (ImplicitCompilerInfo.set_standard_from_ICI cc language store d)
  = action_type d.
Proof.
  unfold ImplicitCompilerInfo.set_standard_from_ICI.
  destruct (alist_get String.eqb language (compiler_standard d)) as [v|];
    [destruct (ImplicitCompilerInfo.nonempty_string v)|];
    destruct (ImplicitCompilerInfo.language_data cc language store);
    reflexivity.
Qed.

Lemma set_target_from_ICI_action_type cc language store d :
  action_type (ImplicitCompilerInfo.set_target_from_ICI cc language store d)
  = action_type d.
Proof.
  unfold ImplicitCompilerInfo.set_target_from_ICI.
  destruct (alist_get option_string_eqb (Some language) (target d)) as [v|];
    [destruct (ImplicitCompilerInfo.nonempty_string v)|];
    destruct (ImplicitCompilerInfo.language_data cc language store);
    reflexivity.
Qed.

Lemma ICI_set_action_type w d cif store d' store' :
  ImplicitCompilerInfo.set w d cif store = OK (d', store') ->
  action_type d' = action_type d.
Proof.
  unfold ImplicitCompilerInfo.set.
  match goal with
  | |- bind ?c _ = _ -> _ => destruct c as [s|e]
  end; cbn [bind]; [|discriminate].
  intros H; inversion H; subst; clear H.
  now rewrite set_target_from_ICI_action_type,
    set_standard_from_ICI_action_type, set_includes_from_ICI_action_type,
    set_target_from_ICI_action_type, set_standard_from_ICI_action_type,
    set_includes_from_ICI_action_type.
Qed.

Lemma finish_options_action_type w file cif k1 k2 clang store d a store' :
  finish_options w file cif k1 k2 clang store d = OK (a, store') ->
  action_type a = action_type (fst (settle_source file d)).
Proof.
  unfold finish_options.
  destruct (settle_source file d) as [d1 l]. cbn [fst].
  match goal with
  | |- bind ?c _ = _ -> _ => destruct c as [[d2 s2]|e] eqn:E1
  end; cbn [bind]; [|discriminate].
  assert (H2 : action_type d2 = action_type d1).
  { match type of E1 with
    | (if ?c then _ else _) = _ => destruct c
    end.
    - eapply ICI_set_action_type; eassumption.
    - now inversion E1. }
  match goal with
  | |- bind ?c _ = _ -> _ => destruct c as [d3|e] eqn:E3
  end; cbn [bind]; [|discriminate].
  assert (H3 : action_type d3 = action_type d2).
  { destruct k1; cbn [negb] in E3; [now inversion E3|].
    - destruct (filter_compiler_includes _ _); cbn [bind] in E3;
        [|discriminate]. now inversion E3. }
  clear E1 E3.
  match goal with
  | |- bind ?c _ = _ -> _ => destruct c as [d4|e] eqn:E4
  end; cbn [bind]; [|discriminate].
  assert (H4 : action_type d4 = action_type d3).
  { destruct k2; cbn [negb] in E4; [now inversion E4|].
    - destruct (filter_compiler_includes _ _); cbn [bind] in E4;
        [|discriminate].
      destruct (aop_without_intrin _ _); cbn [bind] in E4; [|discriminate].
      now inversion E4. }
  intros H; inversion H; subst. congruence.
Qed.

(** C1.  The action that [parse_options] returns has an action type, and
    the type is LINK when the extension of the file of the entry is not one
    that [get_language] knows, whatever the flags of the command set
    before, [-c] included. *)
Theorem parse_options_action_type :
  forall (w : World) (compilation_db_entry : db_entry)
         (compiler_info_file : option string)
         (keep_gcc_include_fixed keep_gcc_intrin : bool)
         (get_clangsa_version_func : option (string -> bool))
         (store store' : compiler_info_t) (action : BuildAction),
    parse_options w compilation_db_entry compiler_info_file
                  keep_gcc_include_fixed keep_gcc_intrin
                  get_clangsa_version_func store
    = OK (action, store') ->
    action_type action <> None
    /\ (get_language
          (snd (PosixPath.splitext (e_file compilation_db_entry))) = None ->
        action_type action = Some LINK).
Proof.
  intros w e cif k1 k2 f store store' action. unfold parse_options.
  destruct (entry_command e) as [[gcc_command original]|ex]; cbn [bind];
    [|discriminate].
  destruct (determine_compiler _ _) as [cc|ex]; cbn [bind]; [|discriminate].
  destruct (process_flags _ _ _) as [d|ex]; cbn [bind]; [|discriminate].
  intros H. apply finish_options_action_type in H. rewrite H.
  apply settle_source_action_type.
Qed.

(** Witness of C1: [gcc -c a.txt -o a.o]; the flags leave COMPILE and the
    action is a LINK action. *)
Lemma parse_options_action_type_witness :
  (exists d,
      process_flags gcc_flag_transformers ["-c"; "a.txt"; "-o"; "a.o"]
                    (start_details "gcc -c a.txt -o a.o" "/proj" "gcc")
      = OK d /\ action_type d = Some COMPILE)
  /\ exists action store,
      parse_options empty_world
                    (entry_of_command "/proj" "a.txt" "gcc -c a.txt -o a.o")
                    None false false (Some (clang_version_info empty_world))
                    []
      = OK (action, store)
      /\ action_type action <> None
      /\ action_type action = Some LINK.
Proof.
  split.
  - eexists. split; vm_compute; reflexivity.
  - eexists; eexists.
    assert (H : parse_options empty_world
                  (entry_of_command "/proj" "a.txt" "gcc -c a.txt -o a.o")
                  None false false (Some (clang_version_info empty_world)) []
                = OK _) by (vm_compute; reflexivity).
    split; [exact H|].
    destruct (parse_options_action_type _ _ _ _ _ _ _ H) as [H1 H2].
    split; [exact H1 | exact (H2 eq_refl)].
Defined.

(** ** The skip list *)

(** C3.  [should_skip] answers with the sign of the first rule, in the
    order of the lines, whose compiled pattern matches the path, and with
    [False] when no rule matches; in the list [-/vendor/*],
    [+/vendor/keep.c] the first line decides for [/vendor/keep.c]. *)
Theorem should_skip_first_matching_rule :
  forall (skip : list SkipListHandler.rule) (source : string),
    (forall i line rexpr,
        nth_error skip i = Some (line, rexpr) ->
        Fnmatch.matches rexpr source = true ->
        (forall j l r,
            j < i -> nth_error skip j = Some (l, r) ->
            Fnmatch.matches r source = false) ->
        SkipListHandler.should_skip skip source
        = SkipListHandler.is_sign line "-")
    /\ ((forall line rexpr,
            In (line, rexpr) skip -> Fnmatch.matches rexpr source = false) ->
        SkipListHandler.should_skip skip source = false)
    /\ SkipListHandler.should_skip
         (SkipListHandler.overwrite_skip_content
            ["-/vendor/*"; "+/vendor/keep.c"])
         "/vendor/keep.c"
       = true.
Proof.
  intros skip source. split; [|split; [|reflexivity]].
  - induction skip as [|[l0 r0] skip IH]; intros i line rexpr Hi Hm Hbefore.
    + destruct i; discriminate Hi.
    + destruct i as [|i]; cbn [nth_error] in Hi.
      * inversion Hi; subst. cbn [SkipListHandler.should_skip].
        now rewrite Hm.
      * cbn [SkipListHandler.should_skip].
        rewrite (Hbefore 0 l0 r0 (Nat.lt_0_succ i) eq_refl).
        apply (IH i line rexpr Hi Hm).
        intros j l r Hj Hn. apply (Hbefore (S j) l r); [lia | exact Hn].
  - induction skip as [|[l0 r0] skip IH]; intros Hnone; [reflexivity|].
    cbn [SkipListHandler.should_skip].
    rewrite (Hnone l0 r0 (or_introl eq_refl)).
    apply IH. intros line rexpr Hin. apply (Hnone line rexpr).
    now right.
Qed.

(** Witness of C3: in [+/a/keep*], [-/a/*], [-/b] the second line is the
    first that matches [/a/x.c]; no line matches [/c/x.c]. *)
Lemma should_skip_first_matching_rule_witness :
  SkipListHandler.should_skip
    (SkipListHandler.overwrite_skip_content ["+/a/keep*"; "-/a/*"; "-/b"])
    "/a/x.c" = true
  /\ SkipListHandler.should_skip
       (SkipListHandler.overwrite_skip_content ["+/a/keep*"; "-/a/*"; "-/b"])
       "/c/x.c" = false.
Proof.
  pose proof (should_skip_first_matching_rule
                (SkipListHandler.overwrite_skip_content
                   ["+/a/keep*"; "-/a/*"; "-/b"]) "/a/x.c") as [H1 _].
  pose proof (should_skip_first_matching_rule
                (SkipListHandler.overwrite_skip_content
                   ["+/a/keep*"; "-/a/*"; "-/b"]) "/c/x.c") as [_ [H2 _]].
  split.
  - refine (H1 1 "-/a/*" _ eq_refl eq_refl _).
    intros j l r Hj. destruct j as [|j]; [|lia].
    intros Hn; inversion Hn; subst; reflexivity.
  - apply H2. intros line rexpr Hin.
    cbv [SkipListHandler.overwrite_skip_content
           SkipListHandler.__gen_regex
           SkipListHandler.__check_line_format] in Hin.
    cbn in Hin.
    destruct Hin as [Hin|[Hin|[Hin|[]]]]; inversion Hin; subst; reflexivity.
Defined.

Lemma closes_app_star s :
  forall phase, Fnmatch.closes phase (s ++ "*") = Fnmatch.closes phase s.
Proof.
  induction s as [|c s IH]; intros phase.
  - destruct phase as [|[|phase]]; reflexivity.
  - cbn [String.append Fnmatch.closes].
    destruct phase as [|[|phase]]; rewrite ?IH; reflexivity.
Qed.

Lemma translate_go_app_star s :
  forall st,
    class_closes st s ->
    Fnmatch.translate_go st (s ++ "*")
    = (Fnmatch.translate_go st s ++ [Fnmatch.Star])%list.
Proof.
  induction s as [|c s IH]; intros st Hst.
  - destruct st as [|phase neg stuff]; [reflexivity|].
    destruct phase as [|[|phase]]; discriminate Hst.
  - cbn [String.append Fnmatch.translate_go].
    destruct st as [|phase neg stuff].
    + destruct (Ascii.eqb c "*"); [now rewrite (IH Fnmatch.Normal I)|].
      destruct (Ascii.eqb c "?"); [now rewrite (IH Fnmatch.Normal I)|].
      destruct (Ascii.eqb c "[").
      * rewrite closes_app_star.
        destruct (Fnmatch.closes 0 s) eqn:E.
        -- now apply IH.
        -- now rewrite (IH Fnmatch.Normal I).
      * now rewrite (IH Fnmatch.Normal I).
    + cbn [class_closes Fnmatch.closes] in Hst.
      destruct phase as [|[|phase]].
      * destruct (Ascii.eqb c "!"); now apply IH.
      * now apply IH.
      * destruct (Ascii.eqb c "]"); [now rewrite (IH Fnmatch.Normal I)|].
        now apply IH.
Qed.

Lemma translate_app_star pat :
  Fnmatch.translate (pat ++ "*")
  = (Fnmatch.translate pat ++ [Fnmatch.Star])%list.
Proof. apply translate_go_app_star. exact I. Qed.

Lemma matches_star_any v : Fnmatch.matches [Fnmatch.Star] v = true.
Proof.
  induction v as [|c v IH]; [reflexivity|].
  cbn [Fnmatch.matches] in *. cbn [String.eqb orb]. exact IH.
Qed.

Lemma matches_star_nil p :
  Fnmatch.matches (Fnmatch.Star :: p) "" = Fnmatch.matches p "".
Proof. cbn [Fnmatch.matches]. apply orb_false_r. Qed.

Lemma matches_star_cons p c s :
  Fnmatch.matches (Fnmatch.Star :: p) (String c s)
  = Fnmatch.matches p (String c s) || Fnmatch.matches (Fnmatch.Star :: p) s.
Proof. reflexivity. Qed.

Lemma matches_star_intro p s :
  Fnmatch.matches p s = true -> Fnmatch.matches (Fnmatch.Star :: p) s = true.
Proof.
  intros H. destruct s.
  - now rewrite matches_star_nil.
  - now rewrite matches_star_cons, H.
Qed.

Lemma matches_app_star p :
  forall u v,
    Fnmatch.matches p u = true ->
    Fnmatch.matches (p ++ [Fnmatch.Star])%list (u ++ v) = true.
Proof.
  induction p as [|it p IH]; intros u v H.
  - cbn [Fnmatch.matches] in H. apply String.eqb_eq in H. subst u.
    apply matches_star_any.
  - destruct it as [| |c|neg ms]; cbn [List.app].
    + induction u as [|c u IHu].
      * rewrite matches_star_nil in H.
        apply matches_star_intro. now apply IH.
      * rewrite matches_star_cons in H.
        apply orb_true_iff in H as [H|H].
        -- apply matches_star_intro. now apply IH.
        -- cbn [String.append]. rewrite matches_star_cons, (IHu H).
           apply orb_true_r.
    + cbn [Fnmatch.matches] in *.
      destruct u as [|c u]; [discriminate H|].
      cbn [String.append]. now apply IH.
    + cbn [Fnmatch.matches] in *.
      destruct u as [|d u]; [discriminate H|].
      cbn [String.append]. apply andb_true_iff in H as [H1 H2].
      rewrite H1. now apply IH.
    + cbn [Fnmatch.matches] in *.
      destruct u as [|d u]; [discriminate H|].
      cbn [String.append]. apply andb_true_iff in H as [H1 H2].
      rewrite H1. now apply IH.
Qed.

(** C10.  The pattern of a rule is compiled with a [*] appended, so the
    rule applies to every path that begins with a text that the pattern
    itself matches: when the line is well formed and stands first, it
    decides for such a path. *)
Theorem skip_rule_is_prefix_glob :
  forall (skip_line : string) (rest : list string) (u v : string),
    SkipListHandler.__check_line_format [skip_line] = [skip_line] ->
    Fnmatch.fnmatchcase
      u (PosixPath.normpath (PyStr.strip (PyStr.drop 1 skip_line))) = true ->
    exists rexpr,
      SkipListHandler.overwrite_skip_content (skip_line :: rest)
      = (skip_line, rexpr) :: SkipListHandler.overwrite_skip_content rest
      /\ rexpr
         = List.app
             (Fnmatch.translate
                (PosixPath.normpath (PyStr.strip (PyStr.drop 1 skip_line))))
             [Fnmatch.Star]
      /\ Fnmatch.matches rexpr (u ++ v) = true
      /\ SkipListHandler.should_skip
           (SkipListHandler.overwrite_skip_content (skip_line :: rest))
           (u ++ v)
         = SkipListHandler.is_sign skip_line "-".
Proof.
  intros skip_line rest u v Hvalid Hu.
  set (P := PosixPath.normpath (PyStr.strip (PyStr.drop 1 skip_line))) in *.
  exists (Fnmatch.translate (P ++ "*")).
  assert (Hrules :
            SkipListHandler.overwrite_skip_content (skip_line :: rest)
            = (skip_line, Fnmatch.translate (P ++ "*"))
                :: SkipListHandler.overwrite_skip_content rest).
  { unfold SkipListHandler.overwrite_skip_content,
      SkipListHandler.__check_line_format in *.
    cbn [filter] in *.
    destruct (negb _); [reflexivity | discriminate Hvalid]. }
  assert (Hm : Fnmatch.matches (Fnmatch.translate (P ++ "*")) (u ++ v) = true).
  { rewrite translate_app_star. now apply matches_app_star. }
  split; [exact Hrules|]. split; [apply translate_app_star|].
  split; [exact Hm|].
  rewrite Hrules. cbn [SkipListHandler.should_skip]. now rewrite Hm.
Qed.

(** Witness of C10: the rule [-/dir/a.c] skips [/dir/a.cpp]. *)
Lemma skip_rule_is_prefix_glob_witness :
  SkipListHandler.should_skip
    (SkipListHandler.overwrite_skip_content ["-/dir/a.c"]) "/dir/a.cpp"
  = true.
Proof.
  destruct (@skip_rule_is_prefix_glob "-/dir/a.c" [] "/dir/a.c" "pp"
              eq_refl eq_refl) as [rexpr [_ [_ [_ H]]]].
  exact H.
Defined.

(** ** Dictionaries as association lists *)

Section AlistString.
Variable V : Type.

Lemma alist_get_set_eq k (v : V) l :
  alist_get String.eqb k (alist_set String.eqb k v l) = Some v.
Proof.
  induction l as [|[k' v'] l IH]; cbn [alist_set alist_get].
  - now rewrite String.eqb_refl.
  - destruct (String.eqb k k') eqn:E; cbn [alist_get].
    + now rewrite String.eqb_refl.
    + now rewrite E.
Qed.

Lemma alist_get_set_neq k k' (v : V) l :
  k' <> k ->
  alist_get String.eqb k' (alist_set String.eqb k v l)
  = alist_get String.eqb k' l.
Proof.
  intros Hne. induction l as [|[k0 v0] l IH]; cbn [alist_set alist_get].
  - apply String.eqb_neq in Hne. now rewrite Hne.
  - destruct (String.eqb k k0) eqn:E; cbn [alist_get].
    + apply String.eqb_eq in E. subst k0.
      apply String.eqb_neq in Hne. now rewrite Hne.
    + now rewrite IH.
Qed.

Lemma alist_set_keys k (v : V) l x :
  In x (map fst (alist_set String.eqb k v l)) <-> x = k \/ In x (map fst l).
Proof.
  induction l as [|[k0 v0] l IH]; cbn [alist_set map fst In].
  - intuition.
  - destruct (String.eqb k k0) eqn:E; cbn [map fst In].
    + apply String.eqb_eq in E. subst k0. intuition.
    + rewrite IH. intuition.
Qed.

Lemma alist_set_NoDup k (v : V) l :
  NoDup (map fst l) -> NoDup (map fst (alist_set String.eqb k v l)).
Proof.
  induction l as [|[k0 v0] l IH]; cbn [alist_set map fst]; intros H.
  - constructor; [intros [] | constructor].
  - inversion H as [|? ? Hnotin Hnd]; subst.
    destruct (String.eqb k k0) eqn:E; cbn [map fst].
    + apply String.eqb_eq in E. subst k0. now constructor.
    + constructor; [|now apply IH].
      rewrite alist_set_keys. intros [->|Hin]; [|contradiction].
      now rewrite String.eqb_refl in E.
Qed.
End AlistString.

(** ** The order of strings *)

Lemma ltb_lt a b : String.ltb a b = true <-> String_as_OT.lt a b.
Proof.
  unfold String.ltb, String_as_OT.lt.
  change (String_as_OT.compare a b) with (String.compare a b).
  destruct (String.compare a b); split; intros H;
    reflexivity || discriminate H.
Qed.

Lemma ltb_irrefl s : String.ltb s s = false.
Proof.
  destruct (String.ltb s s) eqn:E; [|reflexivity].
  apply ltb_lt in E.
  exfalso. exact (StrictOrder_Irreflexive (R := String_as_OT.lt) s E).
Qed.

Lemma ltb_trans a b c :
  String.ltb a b = true -> String.ltb b c = true -> String.ltb a c = true.
Proof.
  rewrite !ltb_lt. apply (StrictOrder_Transitive (R := String_as_OT.lt)).
Qed.

(** ** The loop over the entries and the uniqueing of the actions *)

Lemma parse_entries_assembled w cu cif k1 k2 ash pash ctu entries :
  forall st actions skipped store',
    assembled w cif k1 k2 ash pash ctu entries (compiler_info st)
    = OK (actions, skipped, store') ->
    parse_entries w cu cif k1 k2 ash pash ctu entries st
    = match unique_actions w cu actions (uniqued_build_actions st) with
      | Uniqued u =>
          Completed {| uniqued_build_actions := u;
                       skipped_cmp_cmd_count :=
                         skipped_cmp_cmd_count st + skipped;
                       compiler_info := store' |}
      | Failed logged => Exited 1 logged
      end.
Proof.
  induction entries as [|entry rest IH]; intros st actions skipped store' H.
  - inversion H; subst. cbn [parse_entries unique_actions].
    rewrite Nat.add_0_r. now destruct st.
  - cbn [assembled parse_entries] in *.
    destruct (skipped_at_both_phases _ _ _ _).
    + destruct (assembled w cif k1 k2 ash pash ctu rest (compiler_info st))
        as [[[acts n] s]|ex] eqn:E; cbn [bind] in H; [|discriminate H].
      inversion H; subst.
      rewrite (IH {| uniqued_build_actions := uniqued_build_actions st;
                     skipped_cmp_cmd_count := S (skipped_cmp_cmd_count st);
                     compiler_info := compiler_info st |} _ _ _ E).
      cbn [uniqued_build_actions skipped_cmp_cmd_count].
      destruct (unique_actions w cu actions (uniqued_build_actions st));
        [|reflexivity].
      now rewrite Nat.add_succ_r.
    + destruct (parse_options _ _ _ _ _ _ _) as [[action store1]|ex];
        cbn [bind] in H; [|discriminate H].
      destruct (assembled w cif k1 k2 ash pash ctu rest store1)
        as [[[acts n] s]|ex] eqn:E; cbn [bind] in H; [|discriminate H].
      inversion H; subst.
      destruct (analyzable action).
      * cbn [unique_actions].
        destruct (unique_action w cu action (uniqued_build_actions st))
          as [u|logged]; [|reflexivity].
        now rewrite (IH {| uniqued_build_actions := u;
                           skipped_cmp_cmd_count := skipped_cmp_cmd_count st;
                           compiler_info := store1 |} _ _ _ E).
      * now rewrite (IH {| uniqued_build_actions := uniqued_build_actions st;
                           skipped_cmp_cmd_count := skipped_cmp_cmd_count st;
                           compiler_info := store1 |} _ _ _ E).
Qed.

(** ** The alphabetical policy *)

Lemma alpha_inv_nil : alpha_inv [] [].
Proof.
  split; [constructor|]. split.
  - intros k kept H; discriminate H.
  - intros a [].
Qed.

Lemma alpha_step w seen u a :
  alpha_inv seen u ->
  exists u',
    unique_action w "alpha" a u = Uniqued u'
    /\ alpha_inv (List.app seen [a]) u'.
Proof.
  intros [Hnd [Hkeys Hmin]].
  unfold unique_action. cbn [build_action_uniqueing String.eqb Ascii.eqb
                               Bool.eqb].
  change (build_action_uniqueing "alpha") with SOURCE_ALPHA.
  cbv iota.
  assert (Hset : forall (replaced : forall kept,
                            alist_get String.eqb (source a) u = Some kept ->
                            String.ltb (output a) (output kept) = true),
             alpha_inv (List.app seen [a])
                       (alist_set String.eqb (source a) a u)).
  { intros Hrep. split; [now apply alist_set_NoDup|]. split.
    - intros k kept Hk.
      destruct (string_dec k (source a)) as [->|Hne].
      + rewrite alist_get_set_eq in Hk. inversion Hk; subst.
        split; [reflexivity|]. apply in_or_app; right; now left.
      + rewrite alist_get_set_neq in Hk by assumption.
        destruct (Hkeys _ _ Hk) as [H1 H2].
        split; [assumption|]. apply in_or_app; now left.
    - intros b Hb. apply in_app_or in Hb as [Hb|[<-|[]]].
      + destruct (Hmin _ Hb) as [kept [Hk Hle]].
        destruct (string_dec (source b) (source a)) as [Heq|Hne].
        * rewrite Heq. exists a. rewrite alist_get_set_eq.
          split; [reflexivity|].
          rewrite Heq in Hk. specialize (Hrep _ Hk).
          destruct (String.ltb (output b) (output a)) eqn:E;
            [|reflexivity].
          now rewrite (ltb_trans _ _ _ E Hrep) in Hle.
        * exists kept. now rewrite alist_get_set_neq.
      + exists a. rewrite alist_get_set_eq. split; [reflexivity|].
        apply ltb_irrefl. }
  destruct (alist_get String.eqb (source a) u) as [kept|] eqn:Eg.
  - destruct (String.ltb (output a) (output kept)) eqn:El.
    + eexists; split; [reflexivity|]. apply Hset.
      intros kept' Hk'. now inversion Hk'; subst.
    + eexists; split; [reflexivity|].
      split; [assumption|]. split.
      * intros k kept' Hk. destruct (Hkeys _ _ Hk) as [H1 H2].
        split; [assumption|]. apply in_or_app; now left.
      * intros b Hb. apply in_app_or in Hb as [Hb|[<-|[]]].
        -- now apply Hmin.
        -- exists kept. now split.
  - eexists; split; [reflexivity|]. apply Hset.
    intros kept' Hk'. discriminate Hk'.
Qed.

Lemma alpha_loop w actions :
  forall seen u,
    alpha_inv seen u ->
    exists u',
      unique_actions w "alpha" actions u = Uniqued u'
      /\ alpha_inv (List.app seen actions) u'.
Proof.
  induction actions as [|a actions IH]; intros seen u Hinv.
  - exists u. rewrite app_nil_r. now split.
  - destruct (alpha_step w a Hinv) as [u1 [H1 Hinv1]].
    destruct (IH _ _ Hinv1) as [u2 [H2 Hinv2]].
    exists u2. cbn [unique_actions]. rewrite H1. split; [assumption|].
    now rewrite <- app_assoc in Hinv2.
Qed.

(** C5.  Under the alphabetical policy the loop never fails and keeps one
    action for each source; the action kept for a source is one of the
    actions of the batch with that source, and no action of the batch with
    that source has an output that comes before its output.  The run
    returns the actions kept, in the order in which their sources came.  Of
    [z.o] and [a.o] for [b.cpp], the action with [a.o] is kept. *)
Theorem alpha_keeps_smallest_output :
  forall (w : World) (actions : list BuildAction),
    (exists u,
        unique_actions w "alpha" actions [] = Uniqued u
        /\ NoDup (map fst u)
        /\ forall a,
            In a actions ->
            exists kept,
              alist_get String.eqb (source a) u = Some kept
              /\ In kept actions
              /\ source kept = source a
              /\ forall b,
                  In b actions -> source b = source a ->
                  String.ltb (output b) (output kept) = false)
    /\ (forall compiler_info_file keep_gcc_include_fixed keep_gcc_intrin
               analysis_skip_handler pre_analysis_skip_handler
               ctu_or_stats_enabled compilation_database entries store
               skipped store',
           extend_compilation_database_entries w compilation_database
           = OK entries ->
           assembled w compiler_info_file keep_gcc_include_fixed
                     keep_gcc_intrin analysis_skip_handler
                     pre_analysis_skip_handler ctu_or_stats_enabled
                     entries store
           = OK (actions, skipped, store') ->
           exists u,
             unique_actions w "alpha" actions [] = Uniqued u
             /\ parse_unique_log w "alpha" compiler_info_file
                                 keep_gcc_include_fixed keep_gcc_intrin
                                 analysis_skip_handler
                                 pre_analysis_skip_handler
                                 ctu_or_stats_enabled compilation_database
                                 store
                = Returned (alist_values u) skipped store')
    /\ unique_actions w "alpha"
                      [action_of "b.cpp" "z.o"; action_of "b.cpp" "a.o"] []
       = Uniqued [("b.cpp", action_of "b.cpp" "a.o")].
Proof.
  intros w actions. split; [|split; [|reflexivity]].
  2:{ intros cif k1 k2 ash pash ctu db entries store skipped store'
             Hext Hasm.
      destruct (alpha_loop w actions alpha_inv_nil) as [u [Hu _]].
      exists u. split; [exact Hu|].
      unfold parse_unique_log. rewrite Hext.
      rewrite (@parse_entries_assembled
                 w "alpha" cif k1 k2 ash pash ctu entries
                 {| uniqued_build_actions := [];
                    skipped_cmp_cmd_count := 0;
                    compiler_info := store |} actions skipped store' Hasm).
      cbn [uniqued_build_actions]. rewrite Hu. reflexivity. }
  destruct (alpha_loop w actions alpha_inv_nil) as [u [Hu [Hnd [Hkeys Hmin]]]].
  cbn [List.app] in *.
  exists u. split; [assumption|]. split; [assumption|].
  intros a Ha. destruct (Hmin _ Ha) as [kept [Hk _]].
  exists kept. destruct (Hkeys _ _ Hk) as [Hs Hin].
  repeat split; try assumption.
  intros b Hb Hsrc. destruct (Hmin _ Hb) as [kept' [Hk' Hle]].
  rewrite Hsrc, Hk in Hk'. now inversion Hk'; subst.
Qed.

(** Witness of C5: a database with two commands for [b.cpp], whose outputs
    are [z.o] and [a.o]; the run returns the action of the second. *)
Lemma alpha_keeps_smallest_output_witness :
  exists actions u skipped store',
    assembled empty_world None false false None None false
              [entry_of_command "/proj" "b.cpp" "g++ -c b.cpp -o z.o";
               entry_of_command "/proj" "b.cpp" "g++ -c b.cpp -o a.o"] []
    = OK (actions, skipped, store')
    /\ map output actions = ["z.o"; "a.o"]
    /\ unique_actions empty_world "alpha" actions [] = Uniqued u
    /\ map output (alist_values u) = ["a.o"]
    /\ parse_unique_log empty_world "alpha" None false false None None false
                        [entry_of_command "/proj" "b.cpp" "g++ -c b.cpp -o z.o";
                         entry_of_command "/proj" "b.cpp" "g++ -c b.cpp -o a.o"]
                        []
       = Returned (alist_values u) skipped store'.
Proof.
  destruct (assembled empty_world None false false None None false
              [entry_of_command "/proj" "b.cpp" "g++ -c b.cpp -o z.o";
               entry_of_command "/proj" "b.cpp" "g++ -c b.cpp -o a.o"] [])
    as [[[actions skipped] store']|ex] eqn:Hasm;
    [|vm_compute in Hasm; discriminate Hasm].
  destruct (proj1 (proj2 (alpha_keeps_smallest_output empty_world actions))
              None false false None None false
              [entry_of_command "/proj" "b.cpp" "g++ -c b.cpp -o z.o";
               entry_of_command "/proj" "b.cpp" "g++ -c b.cpp -o a.o"]
              _ [] skipped store' eq_refl Hasm) as [u [Hu Hrun]].
  exists actions, u, skipped, store'.
  vm_compute in Hasm. inversion Hasm; subst; clear Hasm.
  vm_compute in Hu. inversion Hu; subst; clear Hu.
  split; [reflexivity|]. split; [reflexivity|]. split; [reflexivity|].
  split; [reflexivity|]. exact Hrun.
Defined.

(** ** The pattern policy *)

(** C6.  Under the pattern policy, when the pattern compiles, a run whose
    entries give two actions with the same source returns the one whose
    command matches the pattern when the other does not match, and the
    first when none matches; when both match, it logs the two commands and
    exits with code 1.  The second part is for an entry anywhere in a run:
    its action meets the action kept so far for its source; when both
    match, the run exits with the two commands logged, otherwise the
    loop goes on with the action that matches, or with the one kept so far
    when none matches. *)
Theorem pattern_policy_on_duplicates :
  forall (w : World) (pattern : string) (a1 a2 : BuildAction),
    build_action_uniqueing pattern = SOURCE_REGEX ->
    re_compiles w pattern = true ->
    source a1 = source a2 ->
    (forall compiler_info_file keep_gcc_include_fixed keep_gcc_intrin
            analysis_skip_handler pre_analysis_skip_handler
            ctu_or_stats_enabled compilation_database entries store
            skipped store',
        extend_compilation_database_entries w compilation_database
        = OK entries ->
        assembled w compiler_info_file keep_gcc_include_fixed
                  keep_gcc_intrin analysis_skip_handler
                  pre_analysis_skip_handler ctu_or_stats_enabled
                  entries store
        = OK ([a1; a2], skipped, store') ->
        let run :=
          parse_unique_log w pattern compiler_info_file
                           keep_gcc_include_fixed keep_gcc_intrin
                           analysis_skip_handler pre_analysis_skip_handler
                           ctu_or_stats_enabled compilation_database store in
        (re_match w pattern (original_command a1) = true ->
         re_match w pattern (original_command a2) = false ->
         run = Returned [a1] skipped store')
        /\ (re_match w pattern (original_command a1) = false ->
            re_match w pattern (original_command a2) = true ->
            run = Returned [a2] skipped store')
        /\ (re_match w pattern (original_command a1) = true ->
            re_match w pattern (original_command a2) = true ->
            run = SysExit 1 (regex_failure a1 a2 pattern)
            /\ log_args (regex_failure a1 a2 pattern)
               = [original_command a1; original_command a2; pattern])
        /\ (re_match w pattern (original_command a1) = false ->
            re_match w pattern (original_command a2) = false ->
            run = Returned [a1] skipped store'))
    /\ (forall compiler_info_file keep_gcc_include_fixed keep_gcc_intrin
               analysis_skip_handler pre_analysis_skip_handler
               ctu_or_stats_enabled compilation_database before entry rest
               store st store',
           extend_compilation_database_entries w compilation_database
           = OK (List.app before (entry :: rest)) ->
           parse_entries w pattern compiler_info_file
                         keep_gcc_include_fixed keep_gcc_intrin
                         analysis_skip_handler pre_analysis_skip_handler
                         ctu_or_stats_enabled before
                         {| uniqued_build_actions := [];
                            skipped_cmp_cmd_count := 0;
                            compiler_info := store |}
           = Completed st ->
           skipped_at_both_phases
             analysis_skip_handler pre_analysis_skip_handler
             ctu_or_stats_enabled
             (PosixPath.normpath
                (PosixPath.join (e_directory entry) (e_file entry)))
           = false ->
           parse_options w
             (with_file (PosixPath.normpath
                           (PosixPath.join (e_directory entry)
                                           (e_file entry))) entry)
             compiler_info_file keep_gcc_include_fixed keep_gcc_intrin
             (Some (clang_version_info w)) (compiler_info st)
           = OK (a2, store') ->
           analyzable a2 = true ->
           alist_get String.eqb (source a2) (uniqued_build_actions st)
           = Some a1 ->
           (re_match w pattern (original_command a1) = true ->
            re_match w pattern (original_command a2) = true ->
            parse_unique_log w pattern compiler_info_file
                             keep_gcc_include_fixed keep_gcc_intrin
                             analysis_skip_handler pre_analysis_skip_handler
                             ctu_or_stats_enabled compilation_database store
            = SysExit 1 (regex_failure a1 a2 pattern))
           /\ (re_match w pattern (original_command a1)
               && re_match w pattern (original_command a2) = false ->
               parse_entries w pattern compiler_info_file
                             keep_gcc_include_fixed keep_gcc_intrin
                             analysis_skip_handler pre_analysis_skip_handler
                             ctu_or_stats_enabled
                             (List.app before [entry])
                             {| uniqued_build_actions := [];
                                skipped_cmp_cmd_count := 0;
                                compiler_info := store |}
               = Completed
                   {| uniqued_build_actions :=
                        if re_match w pattern (original_command a2)
                        then alist_set String.eqb (source a2) a2
                                       (uniqued_build_actions st)
                        else uniqued_build_actions st;
                      skipped_cmp_cmd_count := skipped_cmp_cmd_count st;
                      compiler_info := store' |})).
Proof.
  intros w pattern a1 a2 Hpol Hre Hsrc.
  assert (Hcompiled : uniqueing_re w pattern = OK tt).
  { unfold uniqueing_re. now rewrite Hpol, Hre. }
  assert (Hpair :
            unique_actions w pattern [a1; a2] []
            = if re_match w pattern (original_command a2)
                 && negb (re_match w pattern (original_command a1))
              then Uniqued [(source a1, a2)]
              else if re_match w pattern (original_command a2)
                      && re_match w pattern (original_command a1)
                   then Failed (regex_failure a1 a2 pattern)
                   else Uniqued [(source a1, a1)]).
  { cbn [unique_actions]. unfold unique_action. rewrite Hpol.
    cbn [alist_get alist_set]. rewrite <- Hsrc.
    cbn [alist_get alist_set]. rewrite String.eqb_refl.
    destruct (re_match w pattern (original_command a2));
      destruct (re_match w pattern (original_command a1)); reflexivity. }
  split.
  - intros cif k1 k2 ash pash ctu db entries store skipped store' Hext Hasm
           run.
    assert (Hrun :
              run
              = match unique_actions w pattern [a1; a2] [] with
                | Uniqued u => Returned (alist_values u) skipped store'
                | Failed logged => SysExit 1 logged
                end).
    { unfold run.
      rewrite (@parse_unique_log_compiled w pattern cif k1 k2 ash pash ctu
                 db store Hcompiled), Hext.
      rewrite (@parse_entries_assembled
                 w pattern cif k1 k2 ash pash ctu entries
                 {| uniqued_build_actions := [];
                    skipped_cmp_cmd_count := 0;
                    compiler_info := store |} [a1; a2] skipped store' Hasm).
      cbn [uniqued_build_actions].
      now destruct (unique_actions w pattern [a1; a2] []). }
    rewrite Hpair in Hrun.
    split; [|split; [|split]]; intros H1 H2; rewrite H1, H2 in Hrun;
      try split; try exact Hrun; reflexivity.
  - intros cif k1 k2 ash pash ctu db before entry rest store st store'
           Hext Hbefore Hskip Hopt Han Hget.
    split.
    + intros H1 H2.
      rewrite (@parse_unique_log_compiled w pattern cif k1 k2 ash pash ctu
                 db store Hcompiled).
      rewrite Hext, parse_entries_app, Hbefore.
      cbn [parse_entries].
      replace (e_file (with_file _ entry))
        with (PosixPath.normpath
                (PosixPath.join (e_directory entry) (e_file entry)))
        by reflexivity.
      rewrite Hskip, Hopt, Han.
      unfold unique_action. rewrite Hpol, Hget, H1, H2. reflexivity.
    + intros H12.
      rewrite parse_entries_app, Hbefore.
      cbn [parse_entries].
      replace (e_file (with_file _ entry))
        with (PosixPath.normpath
                (PosixPath.join (e_directory entry) (e_file entry)))
        by reflexivity.
      rewrite Hskip, Hopt, Han.
      unfold unique_action. rewrite Hpol, Hget.
      destruct (re_match w pattern (original_command a1));
        destruct (re_match w pattern (original_command a2));
        try discriminate H12; reflexivity.
Qed.

(** Witness of C6: runs with the pattern [clang] on two commands for
    [b.cpp], of which the second alone matches, or both match, and a run
    in which a command for another source comes first. *)
Lemma pattern_policy_on_duplicates_witness :
  (exists a1 a2 skipped store',
      assembled literal_pattern_world None false false None None false
                [entry_of_command "/proj" "b.cpp" "gcc -c b.cpp -o b.o";
                 entry_of_command "/proj" "b.cpp" "clang -c b.cpp -o b.o"]
                []
      = OK ([a1; a2], skipped, store')
      /\ original_command a1 = "gcc -c b.cpp -o b.o"
      /\ original_command a2 = "clang -c b.cpp -o b.o"
      /\ parse_unique_log
           literal_pattern_world "clang" None false false None None false
           [entry_of_command "/proj" "b.cpp" "gcc -c b.cpp -o b.o";
            entry_of_command "/proj" "b.cpp" "clang -c b.cpp -o b.o"] []
         = Returned [a2] skipped store')
  /\ (exists a1 a2 skipped store',
         assembled literal_pattern_world None false false None None false
                   [entry_of_command "/proj" "b.cpp" "clang -c b.cpp -o 1.o";
                    entry_of_command "/proj" "b.cpp" "clang -c b.cpp -o 2.o"]
                   []
         = OK ([a1; a2], skipped, store')
         /\ parse_unique_log
              literal_pattern_world "clang" None false false None None false
              [entry_of_command "/proj" "b.cpp" "clang -c b.cpp -o 1.o";
               entry_of_command "/proj" "b.cpp" "clang -c b.cpp -o 2.o"] []
            = SysExit 1 (regex_failure a1 a2 "clang")
         /\ log_args (regex_failure a1 a2 "clang")
            = ["clang -c b.cpp -o 1.o"; "clang -c b.cpp -o 2.o"; "clang"])
  /\ (exists a1 a2,
         original_command a1 = "clang -c b.cpp -o 1.o"
         /\ original_command a2 = "clang -c b.cpp -o 2.o"
         /\ parse_unique_log
              literal_pattern_world "clang" None false false None None false
              [entry_of_command "/proj" "a.cpp" "clang -c a.cpp -o a.o";
               entry_of_command "/proj" "b.cpp" "clang -c b.cpp -o 1.o";
               entry_of_command "/proj" "b.cpp" "clang -c b.cpp -o 2.o";
               entry_of_command "/proj" "c.cpp" "clang -c c.cpp -o c.o"] []
            = SysExit 1 (regex_failure a1 a2 "clang")).
Proof.
  split; [|split].
  - destruct (assembled literal_pattern_world None false false None None
                        false
                [entry_of_command "/proj" "b.cpp" "gcc -c b.cpp -o b.o";
                 entry_of_command "/proj" "b.cpp" "clang -c b.cpp -o b.o"]
                [])
      as [[[actions skipped] store']|ex] eqn:Hasm;
      [|vm_compute in Hasm; discriminate Hasm].
    destruct actions as [|a1 [|a2 [|a3 actions]]];
      try (vm_compute in Hasm; discriminate Hasm).
    assert (H1 : original_command a1 = "gcc -c b.cpp -o b.o")
      by (vm_compute in Hasm; now inversion Hasm).
    assert (H2 : original_command a2 = "clang -c b.cpp -o b.o")
      by (vm_compute in Hasm; now inversion Hasm).
    assert (Hs : source a1 = source a2)
      by (vm_compute in Hasm; now inversion Hasm).
    exists a1, a2, skipped, store'.
    split; [reflexivity|]. split; [exact H1|]. split; [exact H2|].
    refine (proj1 (proj2 (proj1 (@pattern_policy_on_duplicates
                                   literal_pattern_world "clang" a1 a2
                                   eq_refl eq_refl Hs)
                            None false false None None false
                            [entry_of_command "/proj" "b.cpp"
                                              "gcc -c b.cpp -o b.o";
                             entry_of_command "/proj" "b.cpp"
                                              "clang -c b.cpp -o b.o"]
                            [entry_of_command "/proj" "b.cpp"
                                              "gcc -c b.cpp -o b.o";
                             entry_of_command "/proj" "b.cpp"
                                              "clang -c b.cpp -o b.o"]
                            [] skipped store' eq_refl Hasm)) _ _).
    + now rewrite H1.
    + now rewrite H2.
  - destruct (assembled literal_pattern_world None false false None None
                        false
                [entry_of_command "/proj" "b.cpp" "clang -c b.cpp -o 1.o";
                 entry_of_command "/proj" "b.cpp" "clang -c b.cpp -o 2.o"]
                [])
      as [[[actions skipped] store']|ex] eqn:Hasm;
      [|vm_compute in Hasm; discriminate Hasm].
    destruct actions as [|a1 [|a2 [|a3 actions]]];
      try (vm_compute in Hasm; discriminate Hasm).
    assert (H1 : original_command a1 = "clang -c b.cpp -o 1.o")
      by (vm_compute in Hasm; now inversion Hasm).
    assert (H2 : original_command a2 = "clang -c b.cpp -o 2.o")
      by (vm_compute in Hasm; now inversion Hasm).
    assert (Hs : source a1 = source a2)
      by (vm_compute in Hasm; now inversion Hasm).
    exists a1, a2, skipped, store'.
    split; [reflexivity|].
    assert (M1 : re_match literal_pattern_world "clang" (original_command a1)
                 = true) by now rewrite H1.
    assert (M2 : re_match literal_pattern_world "clang" (original_command a2)
                 = true) by now rewrite H2.
    destruct (proj1 (proj2 (proj2 (proj1 (@pattern_policy_on_duplicates
                                   literal_pattern_world "clang" a1 a2
                                   eq_refl eq_refl Hs)
                            None false false None None false
                            [entry_of_command "/proj" "b.cpp"
                                              "clang -c b.cpp -o 1.o";
                             entry_of_command "/proj" "b.cpp"
                                              "clang -c b.cpp -o 2.o"]
                            [entry_of_command "/proj" "b.cpp"
                                              "clang -c b.cpp -o 1.o";
                             entry_of_command "/proj" "b.cpp"
                                              "clang -c b.cpp -o 2.o"]
                            [] skipped store' eq_refl Hasm))) M1 M2)
      as [Hrun Hlog].
    split; [exact Hrun|]. now rewrite Hlog, H1, H2.
  - pose (before := [entry_of_command "/proj" "a.cpp" "clang -c a.cpp -o a.o";
                      entry_of_command "/proj" "b.cpp"
                                       "clang -c b.cpp -o 1.o"]).
    pose (entry := entry_of_command "/proj" "b.cpp" "clang -c b.cpp -o 2.o").
    pose (rest := [entry_of_command "/proj" "c.cpp"
                                    "clang -c c.cpp -o c.o"]).
    assert (H : exists st a1 a2 store',
               parse_entries literal_pattern_world "clang" None false false
                             None None false before
                             {| uniqued_build_actions := [];
                                skipped_cmp_cmd_count := 0;
                                compiler_info := [] |}
               = Completed st
               /\ parse_options literal_pattern_world
                    (with_file (PosixPath.normpath
                                  (PosixPath.join (e_directory entry)
                                                  (e_file entry))) entry)
                    None false false
                    (Some (clang_version_info literal_pattern_world))
                    (compiler_info st)
                  = OK (a2, store')
               /\ analyzable a2 = true
               /\ alist_get String.eqb (source a2) (uniqued_build_actions st)
                  = Some a1
               /\ source a1 = source a2
               /\ original_command a1 = "clang -c b.cpp -o 1.o"
               /\ original_command a2 = "clang -c b.cpp -o 2.o").
    { do 4 eexists.
      split; [vm_compute; reflexivity|].
      split; [vm_compute; reflexivity|].
      repeat split; vm_compute; reflexivity. }
    destruct H as [st [a1 [a2 [store' [Hb [Ho [Han [Hget [Hs [H1 H2]]]]]]]]]].
    exists a1, a2. split; [exact H1|]. split; [exact H2|].
    refine (proj1 (proj2 (@pattern_policy_on_duplicates
                            literal_pattern_world "clang" a1 a2
                            eq_refl eq_refl Hs)
                     None false false None None false
                     (List.app before (entry :: rest)) before entry rest
                     [] st store' eq_refl Hb eq_refl Ho Han Hget) _ _).
    + now rewrite H1.
    + now rewrite H2.
Defined.

(** ** Response files *)


Lemma extend_app w l1 :
  forall l2,
    extend_compilation_database_entries w (List.app l1 l2)
    = (r1 <- extend_compilation_database_entries w l1 ;;
       r2 <- extend_compilation_database_entries w l2 ;;
       OK (List.app r1 r2)).
Proof.
  induction l1 as [|e l1 IH]; intros l2.
  - cbn [List.app extend_compilation_database_entries bind].
    destruct (extend_compilation_database_entries w l2); reflexivity.
  - cbn [List.app extend_compilation_database_entries].
    destruct (extend_entry w e) as [entries|ex]; cbn [bind]; [|reflexivity].
    rewrite IH.
    destruct (extend_compilation_database_entries w l1) as [r1|ex];
      cbn [bind]; [|reflexivity].
    destruct (extend_compilation_database_entries w l2) as [r2|ex];
      cbn [bind]; [|reflexivity].
    now rewrite app_assoc.
Qed.





(** ** The default standard *)

Lemma search_standard_nonempty err :
  forall finding,
    ImplicitCompilerInfo.search_standard err = Some finding ->
    finding <> "".
Proof.
  induction err as [|c err IH]; intros finding;
    cbn [ImplicitCompilerInfo.search_standard].
  - match goal with
    | |- context [negb (?x =? "")] => destruct (x =? "") eqn:E
    end; cbn [negb]; [discriminate|].
    intros H; inversion H; subst. now apply String.eqb_neq in E.
  - match goal with
    | |- context [negb (?x =? "")] => destruct (x =? "") eqn:E
    end; cbn [negb]; [apply IH|].
    intros H; inversion H; subst. now apply String.eqb_neq in E.
Qed.

(** C8 (as amended).  A marker found in the output of the probe is turned
    into [-std=gnu] followed by the marker for C, and into [-std=gnu++]
    followed by the marker for the other language, with one exception:
    the marker [94] gives [-std=iso9899:199409]. *)
Theorem get_compiler_standard_of_marker :
  forall (w : World) (compiler language err finding : string),
    standard_probe_err w compiler language = Some err ->
    ImplicitCompilerInfo.search_standard err = Some finding ->
    ImplicitCompilerInfo.get_compiler_standard w compiler language
    = if finding =? "94" then "-std=iso9899:199409"
      else "-std=gnu" ++ (if language =? "c" then "" else "++") ++ finding.
Proof.
  intros w compiler language err finding Herr Hfind.
  unfold ImplicitCompilerInfo.get_compiler_standard.
  rewrite Herr, Hfind. unfold ImplicitCompilerInfo.standard_flag.
  apply search_standard_nonempty in Hfind.
  apply String.eqb_neq in Hfind. now rewrite Hfind.
Qed.

(** Witness of C8: a C++ compiler whose [__cplusplus] is 201402, and a C
    compiler whose [__STDC_VERSION__] is 199409. *)
Lemma get_compiler_standard_of_marker_witness :
  ImplicitCompilerInfo.get_compiler_standard
    (standard_probe_world
       (ImplicitCompilerInfo.VERSION_CPP (Some 201402%N))) "g++" "c++"
  = "-std=gnu++14"
  /\ ImplicitCompilerInfo.get_compiler_standard
       (standard_probe_world
          (ImplicitCompilerInfo.VERSION_C (Some 199409%N))) "gcc" "c"
     = "-std=iso9899:199409".
Proof.
  split.
  - exact (@get_compiler_standard_of_marker
             (standard_probe_world
                (ImplicitCompilerInfo.VERSION_CPP (Some 201402%N)))
             "g++" "c++" _ "14" eq_refl eq_refl).
  - exact (@get_compiler_standard_of_marker
             (standard_probe_world
                (ImplicitCompilerInfo.VERSION_C (Some 199409%N)))
             "gcc" "c" _ "94" eq_refl eq_refl).
Defined.

(** C8, counterexample.  The oldest revision that the C probe reports is
    [90], for a compiler without [__STDC_VERSION__] or with a value below
    199409; its flag is [-std=gnu90], of the numbered GNU form.  The flag
    with a name is the flag of [94], which the probe reports for the values
    from 199409 on, below 199901. *)
Lemma oldest_c_revision_gets_gnu_flag :
  ImplicitCompilerInfo.VERSION_C None = "CC_FOUND_STANDARD_VER#90"
  /\ ImplicitCompilerInfo.VERSION_C (Some 199000%N)
     = "CC_FOUND_STANDARD_VER#90"
  /\ ImplicitCompilerInfo.get_compiler_standard
       (standard_probe_world (ImplicitCompilerInfo.VERSION_C None))
       "gcc" "c"
     = "-std=gnu" ++ "90"
  /\ ImplicitCompilerInfo.VERSION_C (Some 199409%N)
     = "CC_FOUND_STANDARD_VER#94"
  /\ ImplicitCompilerInfo.get_compiler_standard
       (standard_probe_world (ImplicitCompilerInfo.VERSION_C (Some 199409%N)))
       "gcc" "c"
     = "-std=iso9899:199409".
Proof.
  split; [reflexivity|]. split; [reflexivity|].
  split; [vm_compute; reflexivity|]. split; [reflexivity|].
  vm_compute. reflexivity.
Qed.

(** ** The compiler information written and read back *)

(** C4, on the failing input: a compiler whose include search names
    [/opt/my sdk/include].  The probed record holds that path; the record
    loaded from the file written from the cache holds [/opt/my] and
    [sdk/include]. *)
Lemma compiler_info_round_trip_splits_path :
  exists probed loaded,
    ImplicitCompilerInfo.probe include_probe_world "gcc" [] [] = OK probed
    /\ ImplicitCompilerInfo.load_compiler_info
         (compiler_info_file_world probed) "compiler_info.json" "gcc" []
       = OK loaded
    /\ ImplicitCompilerInfo.language_data "gcc" "c" probed
       = Some {| ld_compiler_includes := Some ["/opt/my sdk/include"];
                 ld_compiler_standard := Some "";
                 ld_target := Some "" |}
    /\ ImplicitCompilerInfo.language_data "gcc" "c" loaded
       = Some {| ld_compiler_includes := Some ["/opt/my"; "sdk/include"];
                 ld_compiler_standard := Some "";
                 ld_target := Some "" |}
    /\ ImplicitCompilerInfo.language_data "gcc" "c" loaded
       <> ImplicitCompilerInfo.language_data "gcc" "c" probed.
Proof.
  eexists; eexists.
  split; [vm_compute; reflexivity|].
  split; [vm_compute; reflexivity|].
  split; [reflexivity|]. split; [reflexivity|].
  vm_compute. discriminate.
Qed.

Lemma string_app_nil_r (s : string) : s ++ "" = s.
Proof. induction s as [|c s IH]; cbn; [reflexivity | now rewrite IH]. Qed.

Lemma string_app_assoc (a b c : string) : (a ++ b) ++ c = a ++ (b ++ c).
Proof. induction a as [|x a IH]; cbn; [reflexivity | now rewrite IH]. Qed.

Lemma lex_plain_word s :
  forall quoted tok,
    plain_chars s = true ->
    negb (tok ++ s =? "") || quoted = true ->
    Shlex.lex Shlex.InWord quoted tok s = OK [tok ++ s].
Proof.
  induction s as [|c s IH]; intros quoted tok Hs Hne.
  - cbn [Shlex.lex]. rewrite string_app_nil_r in *. now rewrite Hne.
  - cbn [plain_chars] in Hs. apply andb_true_iff in Hs as [Hc Hs].
    unfold plain_char in Hc. apply negb_true_iff in Hc.
    apply orb_false_iff in Hc as [Hc He].
    apply orb_false_iff in Hc as [Hw Hq].
    cbn [Shlex.lex]. rewrite Hw, Hq, He.
    rewrite (IH quoted (Shlex.push tok c) Hs).
    + unfold Shlex.push. now rewrite string_app_assoc.
    + unfold Shlex.push. now rewrite string_app_assoc.
Qed.

Lemma split_loadable s :
  loadable s = true ->
  Shlex.split s = OK [s] /\ (s =? "-isystem") = false.
Proof.
  unfold loadable. intros H.
  apply andb_true_iff in H as [H Hi]. apply andb_true_iff in H as [Hp Hne].
  apply negb_true_iff in Hi. split; [|exact Hi].
  destruct s as [|c s]; [discriminate Hne|].
  cbn [plain_chars] in Hp. apply andb_true_iff in Hp as [Hc Hs].
  unfold plain_char in Hc. apply negb_true_iff in Hc.
  apply orb_false_iff in Hc as [Hc He].
  apply orb_false_iff in Hc as [Hw Hq].
  unfold Shlex.split. cbn [Shlex.lex]. rewrite Hw, Hq, He.
  now apply (lex_plain_word s false (String c "") Hs).
Qed.

Lemma load_includes_loadable l :
  forallb loadable l = true ->
  ImplicitCompilerInfo.load_includes l = OK l.
Proof.
  induction l as [|s l IH]; intros H; [reflexivity|].
  cbn [forallb] in H. apply andb_true_iff in H as [Hs Hl].
  destruct (split_loadable s Hs) as [Hsplit Hi].
  cbn [ImplicitCompilerInfo.load_includes]. rewrite Hsplit. cbn [bind].
  rewrite (IH Hl). cbn [bind filter]. now rewrite Hi.
Qed.

(** The round trip of C4 on the paths that the loader reads back as they
    were written: when the include paths probed for C and for C++ have no
    white space, quote or backslash, the records loaded from the file that
    holds the probed cache are the probed records. *)
Lemma compiler_info_round_trip_loadable w compiler options probed :
  ImplicitCompilerInfo.probe w compiler options [] = OK probed ->
  (forall language includes,
      ImplicitCompilerInfo.get_compiler_includes w compiler language options
      = OK includes ->
      forallb loadable includes = true) ->
  forall filename,
    ImplicitCompilerInfo.load_compiler_info
      (compiler_info_file_world probed) filename compiler []
    = OK probed.
Proof.
  intros Hprobe Hload filename.
  unfold ImplicitCompilerInfo.probe, ImplicitCompilerInfo.probe_language
    in Hprobe.
  destruct (ImplicitCompilerInfo.get_compiler_includes
              w compiler ImplicitCompilerInfo.c options)
    as [ic|ex] eqn:Ec; cbn [bind] in Hprobe; [|discriminate Hprobe].
  destruct (ImplicitCompilerInfo.get_compiler_includes
              w compiler ImplicitCompilerInfo.cpp options)
    as [icpp|ex] eqn:Ecpp; cbn [bind] in Hprobe; [|discriminate Hprobe].
  pose proof (Hload _ _ Ec) as Hc. pose proof (Hload _ _ Ecpp) as Hcpp.
  inversion Hprobe as [Hp]; clear Hprobe.
  unfold ImplicitCompilerInfo.load_compiler_info.
  cbn [load_json_or_empty compiler_info_file_world].
  unfold ImplicitCompilerInfo.update_lang, ImplicitCompilerInfo.ensure_compiler,
    ImplicitCompilerInfo.known, ImplicitCompilerInfo.load_language,
    ImplicitCompilerInfo.c, ImplicitCompilerInfo.cpp in *.
  repeat first [rewrite String.eqb_refl in Hp | progress cbn in Hp].
  subst probed.
  repeat first [rewrite String.eqb_refl
               | rewrite (load_includes_loadable _ Hc)
               | rewrite (load_includes_loadable _ Hcpp)
               | progress cbn -[ImplicitCompilerInfo.load_includes]].
  reflexivity.
Qed.

(** * Further properties *)

(** ** What the flag processors do to [details] *)

Lemma flag_effect_refl item d : flag_effect item d d.
Proof.
  unfold flag_effect. split; [exists []; now rewrite app_nil_r|].
  repeat split; auto.
Qed.

Ltac effect_done :=
  unfold flag_effect;
  split;
  [ first [ exists (@nil string); cbn; now rewrite app_nil_r
          | eexists; cbn; reflexivity ]
  | cbn; repeat split; auto;
    try (intros; discriminate); try (intros; congruence) ].

Ltac behaved_case :=
  match goal with
  | H : OK _ = OK _ |- _ =>
      inversion H; subst; clear H;
      split; [ intros Hf; first [ discriminate Hf | now split ]
             | try (apply flag_effect_refl); effect_done ]
  end.

Lemma skip_sources_behaved : well_behaved __skip_sources.
Proof.
  intros [item l] d taken it' d'. unfold __skip_sources; cbn [_item _it].
  destruct item; intros H; [discriminate H|]. behaved_case.
Qed.

Lemma skip_clang_behaved : well_behaved __skip_clang.
Proof.
  intros [item l] d taken it' d'. unfold __skip_clang; cbn [_item _it].
  intros H. behaved_case.
Qed.

Lemma collect_clang_compile_opts_behaved :
  well_behaved __collect_clang_compile_opts.
Proof.
  intros [item l] d taken it' d'.
  unfold __collect_clang_compile_opts; cbn [_item _it].
  destruct (Re.matches CLANG_OPTIONS item); intros H; behaved_case.
Qed.

Lemma collect_compile_opts_behaved : well_behaved __collect_compile_opts.
Proof.
  intros [item l] d taken it' d'.
  unfold __collect_compile_opts; cbn [_item _it].
  destruct (Re.matches COMPILE_OPTIONS item); intros H; behaved_case.
Qed.

Lemma replace_behaved : well_behaved __replace.
Proof.
  intros [item l] d taken it' d'. unfold __replace; cbn [_item _it].
  destruct (alist_get String.eqb item REPLACE_OPTIONS_MAP) as [[|x v]|];
    intros H; behaved_case.
Qed.

Lemma determine_action_type_behaved : well_behaved __determine_action_type.
Proof.
  intros [item l] d taken it' d'.
  unfold __determine_action_type; cbn [_item _it].
  destruct (item =? "-c"); [intros H; behaved_case|].
  destruct (PyStr.startswith item "-print-prog-name").
  - destruct (is_compile (action_type d)) eqn:E; cbn [negb];
      intros H; behaved_case.
    intros Hc. rewrite Hc in E. discriminate E.
  - destruct (Re.matches PRECOMPILATION_OPTION item); [|intros H; behaved_case].
    destruct (is_compile (action_type d)) eqn:E; cbn [negb];
      intros H; behaved_case.
    intros Hc. rewrite Hc in E. discriminate E.
Qed.

Lemma xclang_behaved : well_behaved __collect_transform_xclang_opts.
Proof.
  intros [item l] d taken it' d'.
  unfold __collect_transform_xclang_opts; cbn [_item _it].
  destruct (item =? "-Xclang"); [|intros H; behaved_case].
  destruct l as [|x l']; cbn [next _item _it bind]; [discriminate|].
  destruct (PyStr.mem x XCLANG_FLAGS_TO_SKIP); intros H; behaved_case.
Qed.

Lemma get_output_behaved : well_behaved __get_output.
Proof.
  intros [item l] d taken it' d'.
  unfold __get_output, flag_effect; cbn [_item _it].
  destruct (item =? "-o") eqn:E; [|intros H; behaved_case].
  destruct l as [|x l']; cbn [next _item _it bind]; [discriminate|].
  intros H; behaved_case.
Qed.

Lemma get_arch_behaved : well_behaved __get_arch.
Proof.
  intros [item l] d taken it' d'. unfold __get_arch; cbn [_item _it].
  destruct (item =? "-arch"); [|intros H; behaved_case].
  destruct l as [|x l']; cbn [next _item _it bind]; [discriminate|].
  intros H; behaved_case.
Qed.

Lemma get_language_behaved : well_behaved __get_language.
Proof.
  intros [item l] d taken it' d'.
  unfold __get_language, flag_effect; cbn [_item _it].
  destruct (PyStr.startswith item "-x") eqn:E; [|intros H; behaved_case].
  destruct (item =? "-x").
  - destruct l as [|x l']; cbn [next _item _it bind]; [discriminate|].
    intros H; behaved_case.
  - intros H; behaved_case.
Qed.

Lemma include_opts_behaved : well_behaved __collect_transform_include_opts.
Proof.
  intros [item l] d taken it' d'.
  unfold __collect_transform_include_opts; cbn [_item _it].
  destruct (Re.match_ COMPILE_OPTIONS_MERGED item) as [m|];
    [|intros H; behaved_case].
  destruct (negb (String.length (PyStr.take m item) =? String.length item)%nat).
  - cbn [bind].
    destruct (PyStr.mem (PyStr.take m item) flags_with_path).
    + destruct (PyStr.startswith _ "="); intros H; behaved_case.
    + intros H; behaved_case.
  - destruct l as [|x l']; cbn [next _item _it bind]; [discriminate|].
    destruct (PyStr.mem (PyStr.take m item) flags_with_path).
    + destruct (PyStr.startswith x "="); intros H; behaved_case.
    + intros H; behaved_case.
Qed.

Lemma skip_param_options_behaved table :
  well_behaved (skip_param_options table).
Proof.
  induction table as [|[pattern arg_num] table IH];
    intros [item l] d taken it' d'; cbn [skip_param_options _item].
  - intros H; behaved_case.
  - destruct (Re.matches pattern item).
    + destruct (skip_params arg_num {| _item := item; _it := l |});
        cbn [bind]; [|discriminate].
      intros H; behaved_case.
    + apply IH.
Qed.

Lemma skip_gcc_behaved : well_behaved __skip_gcc.
Proof.
  intros [item l] d taken it' d'. unfold __skip_gcc; cbn [_item].
  destruct (Re.matches IGNORED_OPTIONS_GCC item).
  - intros H; behaved_case.
  - apply skip_param_options_behaved.
Qed.

Lemma flag_processors_behaved clang :
  Forall well_behaved (flag_processors_for clang).
Proof.
  destruct clang; cbv [flag_processors_for clang_flag_collectors
                         gcc_flag_transformers];
    repeat apply Forall_cons; try apply Forall_nil;
    auto using skip_sources_behaved, skip_clang_behaved, xclang_behaved,
      get_output_behaved, determine_action_type_behaved, get_arch_behaved,
      get_language_behaved, include_opts_behaved,
      collect_clang_compile_opts_behaved, skip_gcc_behaved, replace_behaved,
      collect_compile_opts_behaved.
Qed.

Lemma run_processors_effect ps :
  Forall well_behaved ps ->
  forall it d it' d',
    run_processors ps it d = OK (it', d') ->
    flag_effect (_item it) d d'.
Proof.
  induction 1 as [|p ps Hp _ IH]; intros it d it' d' H.
  - inversion H; subst. apply flag_effect_refl.
  - cbn [run_processors] in H.
    destruct (p it d) as [[[taken it1] d1]|e] eqn:Ep; cbn [bind] in H;
      [|discriminate H].
    destruct (Hp _ _ _ _ _ Ep) as [Hno Heff].
    destruct taken.
    + inversion H; subst. exact Heff.
    + destruct (Hno eq_refl) as [-> ->]. now apply IH in H.
Qed.

Lemma process_flags_fuel_effect clang fuel :
  forall args d d',
    process_flags_fuel fuel (flag_processors_for clang) args d = OK d' ->
    flags_effect args d d'.
Proof.
  induction fuel as [|fuel IH]; intros args d d' H.
  - destruct args; inversion H; subst;
      (split; [exists []; now rewrite app_nil_r | repeat split; auto]).
  - destruct args as [|x rest].
    + inversion H; subst.
      split; [exists []; now rewrite app_nil_r | repeat split; auto].
    + cbn [process_flags_fuel] in H.
      destruct (run_processors (flag_processors_for clang)
                               {| _item := x; _it := rest |} d)
        as [[it1 d1]|e] eqn:E; cbn [bind] in H; [|discriminate H].
      pose proof (run_processors_effect (flag_processors_behaved clang)
                                        _ _ E) as Hx.
      destruct (@run_processors_advances
                  _ (flag_processors_advance clang) _ _ _ _ _ E)
        as [consumed [Hrest _]].
      specialize (IH _ _ _ H).
      cbn [_item] in Hx.
      destruct Hx
        as [[a1 Ha1] [Hc1 [Hl1 [Hx1 [Ho1 [? [? [? [? [? [? ?]]]]]]]]]]].
      destruct IH
        as [[a2 Ha2] [Hc2 [Hl2 [Hx2 [Ho2 [? [? [? [? [? [? ?]]]]]]]]]]].
      split; [exists (List.app a1 a2); now rewrite Ha2, Ha1, app_assoc|].
      split; [auto|]. split; [auto|].
      split.
      { intros HF. pose proof (Forall_inv HF) as Hhd.
        pose proof (Forall_inv_tail HF) as Htl.
        rewrite Hx2, Hx1; auto.
        rewrite Hrest in Htl. now apply Forall_app in Htl. }
      split.
      { intros HF. pose proof (Forall_inv HF) as Hhd.
        pose proof (Forall_inv_tail HF) as Htl.
        rewrite Ho2, Ho1; auto.
        rewrite Hrest in Htl. now apply Forall_app in Htl. }
      repeat split; congruence.
Qed.

Lemma flags_only_add_options_frame clang args d d' :
  process_flags (flag_processors_for clang) args d = OK d' ->
  (exists added,
      analyzer_options d' = List.app (analyzer_options d) added)
  /\ original_command d' = original_command d
  /\ directory d' = directory d
  /\ compiler d' = compiler d
  /\ source d' = source d
  /\ compiler_includes d' = compiler_includes d
  /\ compiler_standard d' = compiler_standard d
  /\ target d' = target d.
Proof.
  intros H. apply process_flags_fuel_effect in H.
  destruct H as [Ha [_ [_ [_ [_ H]]]]]. split; assumption.
Qed.

Lemma flags_keep_language clang args d d' :
  process_flags (flag_processors_for clang) args d = OK d' ->
  Forall (fun item => PyStr.startswith item "-x" = false) args ->
  lang d' = lang d /\ compiler d' = compiler d.
Proof.
  intros H Hx. apply process_flags_fuel_effect in H.
  destruct H as [_ [_ [_ [Hl [_ [_ [_ [Hc _]]]]]]]]. split; auto.
Qed.

Lemma flags_keep_output clang args d d' :
  process_flags (flag_processors_for clang) args d = OK d' ->
  Forall (fun item => negb (item =? "-o") = true) args ->
  output d' = output d.
Proof.
  intros H Hx. apply process_flags_fuel_effect in H.
  destruct H as [_ [_ [_ [_ [Ho _]]]]]. auto.
Qed.

(** X1.  The processing of the flags never takes COMPILE back: when the
    action type is COMPILE before a list of items is processed, it is
    COMPILE after, for both chains and whatever the items are. *)
Theorem compile_is_sticky :
  forall (clang : bool) (args : list string) (d d' : details),
    process_flags (flag_processors_for clang) args d = OK d' ->
    action_type d = Some COMPILE ->
    action_type d' = Some COMPILE.
Proof.
  intros clang args d d' H Hc.
  apply process_flags_fuel_effect in H. now apply H.
Qed.

(** Witness of X1: [-E], [-M] and [-print-prog-name=ld] after [-c]. *)
Lemma compile_is_sticky_witness :
  process_flags gcc_flag_transformers
                ["-c"; "-E"; "-M"; "-print-prog-name=ld"] empty_details
  = OK (with_action_type (Some COMPILE) empty_details)
  /\ action_type (with_action_type (Some COMPILE) empty_details)
     = Some COMPILE.
Proof.
  split; [reflexivity|].
  apply (@compile_is_sticky false ["-E"; "-M"; "-print-prog-name=ld"]
           (with_action_type (Some COMPILE) empty_details));
    reflexivity.
Defined.

(** X2.  The processing of the flags only adds options at the end of
    [analyzer_options], and never touches the command, the directory, the
    compiler, the source, or the data of the compiler. *)
Theorem flags_only_add_options :
  forall (clang : bool) (args : list string) (d d' : details),
    process_flags (flag_processors_for clang) args d = OK d' ->
    (exists added,
        analyzer_options d' = List.app (analyzer_options d) added)
    /\ original_command d' = original_command d
    /\ directory d' = directory d
    /\ compiler d' = compiler d
    /\ source d' = source d
    /\ compiler_includes d' = compiler_includes d
    /\ compiler_standard d' = compiler_standard d
    /\ target d' = target d.
Proof.
  intros clang args d d' H.
  apply process_flags_fuel_effect in H.
  destruct H as [Ha [_ [_ [_ [_ H]]]]]. split; assumption.
Qed.

(** Witness of X2: the options of [-DA -c -O2 -o a.o] follow the ones that
    were there. *)
Lemma flags_only_add_options_witness :
  exists added,
    analyzer_options
      (with_output "a.o"
         (with_action_type (Some COMPILE)
            (with_analyzer_options ["-Wall"; "-DA"; "-O2"] empty_details)))
    = List.app ["-Wall"] added.
Proof.
  apply (@flags_only_add_options false ["-DA"; "-c"; "-O2"; "-o"; "a.o"]
           (with_analyzer_options ["-Wall"] empty_details)).
  reflexivity.
Defined.

(** ** Words that are not flags *)

Lemma headed_run c r :
  headed c r = true ->
  forall pos s k, (forall s', s <> String c s') -> Re.run r pos s k = None.
Proof.
  induction r; cbn [headed]; intros H pos s k Hs; try discriminate H.
  - cbn [Re.run]. destruct s as [|d s']; [reflexivity|].
    destruct (Ascii.eqb c0 d) eqn:E; [|reflexivity].
    apply Ascii.eqb_eq in E. apply Ascii.eqb_eq in H. subst.
    now destruct (Hs s').
  - cbn [Re.run]. now apply IHr1.
  - apply andb_true_iff in H. destruct H as [H1 H2].
    cbn [Re.run]. rewrite IHr1, IHr2 by assumption. reflexivity.
  - cbn [Re.run]. now apply IHr.
Qed.

Lemma headed_match c r ch word :
  headed c r = true -> Ascii.eqb ch c = false ->
  Re.match_ r (String ch word) = None.
Proof.
  intros H Hc. apply headed_run with (c := c); [assumption|].
  intros s' Hs. inversion Hs; subst. now rewrite Ascii.eqb_refl in Hc.
Qed.

Lemma headed_matches c r ch word :
  headed c r = true -> Ascii.eqb ch c = false ->
  Re.matches r (String ch word) = false.
Proof.
  intros H Hc. unfold Re.matches. now rewrite (@headed_match c r ch word H Hc).
Qed.

Lemma headed_empty c r : headed c r = true -> Re.matches r "" = false.
Proof.
  intros H. unfold Re.matches, Re.match_.
  rewrite (@headed_run c r H); [reflexivity|]. intros s'; discriminate.
Qed.

Lemma skip_param_options_headed table :
  Forall (fun pn => headed "-" (fst pn) = true) table ->
  forall ch word l d,
    Ascii.eqb ch "-" = false ->
    skip_param_options table {| _item := String ch word; _it := l |} d
    = OK (false, {| _item := String ch word; _it := l |}, d).
Proof.
  induction 1 as [|[pattern n] table Hp _ IH]; intros ch word l d Hc;
    cbn [skip_param_options _item]; [reflexivity|].
  cbn [fst] in Hp. rewrite (@headed_matches _ _ ch word Hp Hc). now apply IH.
Qed.

Lemma skip_param_options_empty table :
  Forall (fun pn => headed "-" (fst pn) = true) table ->
  forall l d,
    skip_param_options table {| _item := ""; _it := l |} d
    = OK (false, {| _item := ""; _it := l |}, d).
Proof.
  induction 1 as [|[pattern n] table Hp _ IH]; intros l d;
    cbn [skip_param_options _item]; [reflexivity|].
  cbn [fst] in Hp. rewrite (@headed_empty _ _ Hp). apply IH.
Qed.

Lemma ignored_param_options_headed :
  Forall (fun pn => headed "-" (fst pn) = true) IGNORED_PARAM_OPTIONS.
Proof. repeat constructor. Qed.

Lemma word_is_skipped clang ch word l d :
  Ascii.eqb ch "-" = false ->
  run_processors (flag_processors_for clang)
                 {| _item := String ch word; _it := l |} d
  = OK ({| _item := String ch word; _it := l |}, d).
Proof.
  intros Hc. destruct clang.
  - cbn [flag_processors_for clang_flag_collectors run_processors].
    unfold __skip_sources; cbn [_item]. rewrite Hc. reflexivity.
  - cbn [flag_processors_for gcc_flag_transformers run_processors].
    unfold __skip_gcc; cbn [_item].
    rewrite (@headed_matches "-" IGNORED_OPTIONS_GCC ch word eq_refl Hc).
    rewrite (@skip_param_options_headed
               _ ignored_param_options_headed ch word l d Hc).
    cbn [bind].
    unfold __replace; cbn [_item].
    replace (alist_get String.eqb (String ch word) REPLACE_OPTIONS_MAP)
      with (@None (list string))
      by (cbn; rewrite Hc; reflexivity).
    cbn [bind].
    unfold __collect_compile_opts; cbn [_item].
    rewrite (@headed_matches "-" COMPILE_OPTIONS ch word eq_refl Hc).
    cbn [bind].
    unfold __collect_transform_include_opts; cbn [_item].
    rewrite (@headed_match "-" COMPILE_OPTIONS_MERGED ch word eq_refl Hc).
    cbn [bind].
    unfold __determine_action_type; cbn [_item].
    replace (String ch word =? "-c") with false
      by (cbn; rewrite Hc; reflexivity).
    replace (PyStr.startswith (String ch word) "-print-prog-name")
      with false
      by (cbn [PyStr.startswith]; rewrite Ascii.eqb_sym, Hc; reflexivity).
    rewrite (@headed_matches "-" PRECOMPILATION_OPTION ch word eq_refl Hc).
    cbn [bind].
    unfold __skip_sources; cbn [_item]. rewrite Hc. reflexivity.
Qed.

Lemma empty_item_raises clang l d :
  run_processors (flag_processors_for clang) {| _item := ""; _it := l |} d
  = Raise IndexError.
Proof.
  destruct clang.
  - reflexivity.
  - cbn [flag_processors_for gcc_flag_transformers run_processors].
    unfold __skip_gcc; cbn [_item].
    rewrite (@headed_empty "-" IGNORED_OPTIONS_GCC eq_refl).
    rewrite (@skip_param_options_empty _ ignored_param_options_headed).
    reflexivity.
Qed.

(** X3.  A word of the command that does not start with a dash, and that
    no flag before it has read as its parameter, is dropped: the
    processing goes on with the items after it as if it were not there,
    in both chains. *)
Theorem word_without_dash_is_dropped :
  forall (clang : bool) (ch : ascii) (word : string) (rest : list string)
         (d : details),
    Ascii.eqb ch "-" = false ->
    process_flags (flag_processors_for clang) (String ch word :: rest) d
    = process_flags (flag_processors_for clang) rest d.
Proof.
  intros clang ch word rest d Hc.
  rewrite process_flags_cons by apply flag_processors_advance.
  rewrite word_is_skipped by assumption. reflexivity.
Qed.

(** Witness of X3: [main.c] before [-DA]. *)
Lemma word_without_dash_is_dropped_witness :
  process_flags gcc_flag_transformers ["main.c"; "-DA"] empty_details
  = process_flags gcc_flag_transformers ["-DA"] empty_details.
Proof.
  apply (@word_without_dash_is_dropped false "m" "ain.c" ["-DA"]
           empty_details).
  reflexivity.
Defined.

(** ** What [parse_options] takes from the entry *)

Lemma keeps_command_data_refl d : keeps_command_data d d.
Proof. repeat split. Qed.

Lemma keeps_command_data_trans d1 d2 d3 :
  keeps_command_data d1 d2 -> keeps_command_data d2 d3 ->
  keeps_command_data d1 d3.
Proof.
  unfold keeps_command_data. intros H1 H2.
  repeat match goal with H : _ /\ _ |- _ => destruct H end.
  repeat split; congruence.
Qed.

Lemma set_includes_from_ICI_keeps cc language store d :
  keeps_command_data d
    (ImplicitCompilerInfo.set_includes_from_ICI cc language store d)
  /\ analyzer_options
       (ImplicitCompilerInfo.set_includes_from_ICI cc language store d)
     = analyzer_options d.
Proof.
  unfold ImplicitCompilerInfo.set_includes_from_ICI.
  destruct (alist_get String.eqb language (compiler_includes d))
    as [[[|? ?]|]|];
    destruct (ImplicitCompilerInfo.language_data cc language store);
    repeat split.
Qed.

Lemma set_standard_from_ICI_keeps cc language store d :
  keeps_command_data d
    (ImplicitCompilerInfo.set_standard_from_ICI cc language store d)
  /\ analyzer_options
       (ImplicitCompilerInfo.set_standard_from_ICI cc language store d)
     = analyzer_options d.
Proof.
  unfold ImplicitCompilerInfo.set_standard_from_ICI.
  destruct (alist_get String.eqb language (compiler_standard d)) as [v|];
    [destruct (ImplicitCompilerInfo.nonempty_string v)|];
    destruct (ImplicitCompilerInfo.language_data cc language store);
    repeat split.
Qed.

Lemma set_target_from_ICI_keeps cc language store d :
  keeps_command_data d
    (ImplicitCompilerInfo.set_target_from_ICI cc language store d)
  /\ analyzer_options
       (ImplicitCompilerInfo.set_target_from_ICI cc language store d)
     = analyzer_options d.
Proof.
  unfold ImplicitCompilerInfo.set_target_from_ICI.
  destruct (alist_get option_string_eqb (Some language) (target d)) as [v|];
    [destruct (ImplicitCompilerInfo.nonempty_string v)|];
    destruct (ImplicitCompilerInfo.language_data cc language store);
    repeat split.
Qed.

Lemma ICI_set_keeps w d cif store d' store' :
  ImplicitCompilerInfo.set w d cif store = OK (d', store') ->
  keeps_command_data d d' /\ analyzer_options d' = analyzer_options d.
Proof.
  unfold ImplicitCompilerInfo.set.
  match goal with
  | |- bind ?c _ = _ -> _ => destruct c as [s|e]
  end; cbn [bind]; [|discriminate].
  intros H; inversion H; subst; clear H.
  set (d1 := ImplicitCompilerInfo.set_includes_from_ICI _ _ _ d).
  set (d2 := ImplicitCompilerInfo.set_standard_from_ICI _ _ _ d1).
  set (d3 := ImplicitCompilerInfo.set_target_from_ICI _ _ _ d2).
  set (d4 := ImplicitCompilerInfo.set_includes_from_ICI _ _ _ d3).
  set (d5 := ImplicitCompilerInfo.set_standard_from_ICI _ _ _ d4).
  destruct (set_includes_from_ICI_keeps
              (compiler d) ImplicitCompilerInfo.c store' d) as [K1 A1].
  destruct (set_standard_from_ICI_keeps
              (compiler d) ImplicitCompilerInfo.c store' d1) as [K2 A2].
  destruct (set_target_from_ICI_keeps
              (compiler d) ImplicitCompilerInfo.c store' d2) as [K3 A3].
  destruct (set_includes_from_ICI_keeps
              (compiler d) ImplicitCompilerInfo.cpp store' d3) as [K4 A4].
  destruct (set_standard_from_ICI_keeps
              (compiler d) ImplicitCompilerInfo.cpp store' d4) as [K5 A5].
  destruct (set_target_from_ICI_keeps
              (compiler d) ImplicitCompilerInfo.cpp store' d5) as [K6 A6].
  fold d1 in K1, A1. fold d2 in K2, A2. fold d3 in K3, A3.
  fold d4 in K4, A4. fold d5 in K5, A5.
  split; [|congruence].
  eauto 10 using keeps_command_data_trans.
Qed.

Lemma finish_options_keeps w file cif k1 k2 clang store d a store' :
  finish_options w file cif k1 k2 clang store d = OK (a, store') ->
  keeps_command_data (fst (settle_source file d)) a.
Proof.
  unfold finish_options.
  destruct (settle_source file d) as [d1 l]. cbn [fst].
  match goal with
  | |- bind ?c _ = _ -> _ => destruct c as [[d2 s2]|e] eqn:E1
  end; cbn [bind]; [|discriminate].
  assert (H2 : keeps_command_data d1 d2).
  { match type of E1 with
    | (if ?c then _ else _) = _ => destruct c
    end.
    - eapply ICI_set_keeps; eassumption.
    - inversion E1; subst. apply keeps_command_data_refl. }
  match goal with
  | |- bind ?c _ = _ -> _ => destruct c as [d3|e] eqn:E3
  end; cbn [bind]; [|discriminate].
  assert (H3 : keeps_command_data d2 d3).
  { destruct k1; cbn [negb] in E3;
      [inversion E3; subst; apply keeps_command_data_refl|].
    destruct (filter_compiler_includes _ _); cbn [bind] in E3;
      [|discriminate].
    inversion E3; subst. repeat split. }
  clear E1 E3.
  match goal with
  | |- bind ?c _ = _ -> _ => destruct c as [d4|e] eqn:E4
  end; cbn [bind]; [|discriminate].
  assert (H4 : keeps_command_data d3 d4).
  { destruct k2; cbn [negb] in E4;
      [inversion E4; subst; apply keeps_command_data_refl|].
    destruct (filter_compiler_includes _ _); cbn [bind] in E4;
      [|discriminate].
    destruct (aop_without_intrin _ _); cbn [bind] in E4; [|discriminate].
    inversion E4; subst. repeat split. }
  intros H; inversion H; subst.
  eauto using keeps_command_data_trans.
Qed.

Lemma settle_source_data file d :
  let d' := fst (settle_source file d) in
  original_command d' = original_command d
  /\ directory d' = directory d
  /\ compiler d' = compiler d
  /\ output d' = output d
  /\ source d' = source_of_file file
  /\ lang d' = match lang d with
               | Some l => Some l
               | None =>
                   get_language
                     (snd (PosixPath.splitext (source_of_file file)))
               end.
Proof.
  unfold settle_source, source_of_file.
  set (d1 := match action_type d with
             | Some _ => d
             | None => with_action_type (Some COMPILE) d
             end).
  assert (H1 : original_command d1 = original_command d
               /\ directory d1 = directory d /\ compiler d1 = compiler d
               /\ output d1 = output d /\ lang d1 = lang d).
  { subst d1. destruct (action_type d); repeat split. }
  destruct H1 as [Ho1 [Hd1 [Hc1 [Hu1 Hl1]]]]. clearbody d1.
  cbn [source with_source].
  set (d3 := if file =? "." then _ else _).
  assert (H3 : original_command d3 = original_command d1
               /\ directory d3 = directory d1 /\ compiler d3 = compiler d1
               /\ output d3 = output d1 /\ lang d3 = lang d1
               /\ source d3 = if file =? "." then "" else file).
  { subst d3. destruct (file =? "."); repeat split. }
  destruct H3 as [Ho3 [Hd3 [Hc3 [Hu3 [Hl3 Hs]]]]]. clearbody d3.
  rewrite <- Hs, <- Hl1, <- Hl3.
  destruct (get_language (snd (PosixPath.splitext (source d3)))) as [l|];
    [destruct (lang d3) eqn:El|];
    cbn [fst original_command directory compiler output source lang
             with_target with_lang with_action_type];
    rewrite ?El; repeat split; try congruence.
  destruct (lang d3); reflexivity.
Qed.

Lemma start_details_data original directory0 cc :
  let d := start_details original directory0 cc in
  original_command d = original
  /\ directory d = directory0
  /\ compiler d = cc
  /\ output d = ""
  /\ lang d = (if PyStr.contains "++" (PosixPath.basename cc)
               then Some "c++" else None).
Proof.
  unfold start_details.
  cbn [compiler with_compiler with_action_type with_directory
                with_original_command empty_details].
  destruct (PyStr.contains "++" (PosixPath.basename cc)); repeat split.
Qed.

(** X4.  The action that [parse_options] returns has the directory of the
    entry, its file as the source (nothing for the file [.]), the command of
    the entry as the original command, and the compiler that
    [determine_compiler] reads from the command: no flag, and nothing that
    is done once the flags are read, changes them. *)
Theorem parse_options_keeps_entry_data :
  forall (w : World) (compilation_db_entry : db_entry)
         (compiler_info_file : option string)
         (keep_gcc_include_fixed keep_gcc_intrin : bool)
         (get_clangsa_version_func : option (string -> bool))
         (store store' : compiler_info_t) (action : BuildAction),
    parse_options w compilation_db_entry compiler_info_file
                  keep_gcc_include_fixed keep_gcc_intrin
                  get_clangsa_version_func store
    = OK (action, store') ->
    directory action = e_directory compilation_db_entry
    /\ source action = source_of_file (e_file compilation_db_entry)
    /\ exists gcc_command,
        entry_command compilation_db_entry
        = OK (gcc_command, original_command action)
        /\ determine_compiler gcc_command
                              (ImplicitCompilerInfo.is_executable_compiler w)
           = OK (compiler action).
Proof.
  intros w e cif k1 k2 f store store' action. unfold parse_options.
  destruct (entry_command e) as [[gcc_command original]|ex]; cbn [bind];
    [|discriminate].
  destruct (determine_compiler _ _) as [cc|ex] eqn:Ec; cbn [bind];
    [|discriminate].
  destruct (process_flags _ _ _) as [d|ex] eqn:Ef; cbn [bind];
    [|discriminate].
  intros H. apply finish_options_keeps in H.
  destruct H as [Ho [Hd [Hc [Hs _]]]].
  destruct (settle_source_data (e_file e) d) as [So [Sd [Sc [_ [Ss _]]]]].
  destruct (@flags_only_add_options_frame _ _ _ _ Ef) as [_ [Fo [Fd [Fc _]]]].
  destruct (start_details_data original (e_directory e) cc)
    as [Io [Id [Ic _]]].
  split; [congruence|]. split; [congruence|].
  exists gcc_command. split; [|congruence].
  do 2 f_equal. congruence.
Qed.

(** Witness of X4: [ccache g++ -c a.cpp] where [g++] is an executable. *)
Lemma parse_options_keeps_entry_data_witness :
  exists action store,
    parse_options ccache_world
                  (entry_of_command "/proj" "." "ccache g++ -c a.cpp")
                  None true true None []
    = OK (action, store)
    /\ directory action = "/proj"
    /\ source action = ""
    /\ original_command action = "ccache g++ -c a.cpp"
    /\ compiler action = "g++".
Proof.
  eexists; eexists.
  assert (H : parse_options ccache_world
                (entry_of_command "/proj" "." "ccache g++ -c a.cpp")
                None true true None []
              = OK _) by (vm_compute; reflexivity).
  split; [exact H|].
  destruct (parse_options_keeps_entry_data _ _ _ _ _ _ _ H)
    as [H1 [H2 [cmd [H3 H4]]]].
  split; [exact H1|]. split; [exact H2|].
  split; reflexivity.
Defined.

(** X5.  When no item of the command after the compiler starts with [-x],
    the language of the returned action is [c++] for a compiler whose base
    name contains [++], and otherwise the language that [get_language]
    gives for the extension of the source, if any. *)
Theorem language_without_x_flag :
  forall (w : World) (compilation_db_entry : db_entry)
         (compiler_info_file : option string)
         (keep_gcc_include_fixed keep_gcc_intrin : bool)
         (get_clangsa_version_func : option (string -> bool))
         (store store' : compiler_info_t) (action : BuildAction)
         (gcc_command : list string) (original : string),
    parse_options w compilation_db_entry compiler_info_file
                  keep_gcc_include_fixed keep_gcc_intrin
                  get_clangsa_version_func store
    = OK (action, store') ->
    entry_command compilation_db_entry = OK (gcc_command, original) ->
    Forall (fun item => PyStr.startswith item "-x" = false)
           (tl gcc_command) ->
    lang action
    = if PyStr.contains "++" (PosixPath.basename (compiler action))
      then Some "c++"
      else get_language (snd (PosixPath.splitext (source action))).
Proof.
  intros w e cif k1 k2 f store store' action gcc_command original.
  unfold parse_options. intros H Hcmd Hx. rewrite Hcmd in H.
  cbn [bind] in H.
  destruct (determine_compiler _ _) as [cc|ex] eqn:Ec; cbn [bind] in H;
    [|discriminate].
  destruct (process_flags _ _ _) as [d|ex] eqn:Ef; cbn [bind] in H;
    [|discriminate].
  apply finish_options_keeps in H.
  destruct H as [_ [_ [Hc [Hs [Hl _]]]]].
  destruct (settle_source_data (e_file e) d) as [_ [_ [Sc [_ [Ss Sl]]]]].
  destruct (@flags_keep_language _ _ _ _ Ef Hx) as [Fl Fc].
  destruct (start_details_data original (e_directory e) cc)
    as [_ [_ [Ic [_ Il]]]].
  rewrite Hl, Sl, Hs, Ss, Fl, Il, Hc, Sc, Fc, Ic.
  destruct (PyStr.contains "++" (PosixPath.basename cc)); reflexivity.
Qed.

(** Witness of X5: [g++ -c a.c] is a C++ action, [gcc -c a.c] a C one. *)
Lemma language_without_x_flag_witness :
  exists action store,
    parse_options empty_world (entry_of_command "/proj" "a.c" "g++ -c a.c")
                  None true true None []
    = OK (action, store)
    /\ lang action = Some "c++".
Proof.
  eexists; eexists.
  assert (H : parse_options empty_world
                (entry_of_command "/proj" "a.c" "g++ -c a.c")
                None true true None []
              = OK _) by (vm_compute; reflexivity).
  split; [exact H|].
  rewrite (@language_without_x_flag _ _ _ _ _ _ _ _ _ ["g++"; "-c"; "a.c"]
             "g++ -c a.c" H eq_refl);
    [reflexivity | repeat constructor].
Defined.

(** X6.  When no item of the command after the compiler is [-o], the
    output of the returned action is empty. *)
Theorem output_without_o_flag :
  forall (w : World) (compilation_db_entry : db_entry)
         (compiler_info_file : option string)
         (keep_gcc_include_fixed keep_gcc_intrin : bool)
         (get_clangsa_version_func : option (string -> bool))
         (store store' : compiler_info_t) (action : BuildAction)
         (gcc_command : list string) (original : string),
    parse_options w compilation_db_entry compiler_info_file
                  keep_gcc_include_fixed keep_gcc_intrin
                  get_clangsa_version_func store
    = OK (action, store') ->
    entry_command compilation_db_entry = OK (gcc_command, original) ->
    Forall (fun item => negb (item =? "-o") = true) (tl gcc_command) ->
    output action = "".
Proof.
  intros w e cif k1 k2 f store store' action gcc_command original.
  unfold parse_options. intros H Hcmd Hx. rewrite Hcmd in H.
  cbn [bind] in H.
  destruct (determine_compiler _ _) as [cc|ex] eqn:Ec; cbn [bind] in H;
    [|discriminate].
  destruct (process_flags _ _ _) as [d|ex] eqn:Ef; cbn [bind] in H;
    [|discriminate].
  apply finish_options_keeps in H.
  destruct H as [_ [_ [_ [_ [_ [Ho _]]]]]].
  destruct (settle_source_data (e_file e) d) as [_ [_ [_ [So _]]]].
  pose proof (@flags_keep_output _ _ _ _ Ef Hx) as Fo.
  destruct (start_details_data original (e_directory e) cc)
    as [_ [_ [_ [Io _]]]].
  congruence.
Qed.

(** Witness of X6: [gcc -c a.c]. *)
Lemma output_without_o_flag_witness :
  exists action store,
    parse_options empty_world (entry_of_command "/proj" "a.c" "gcc -c a.c")
                  None true true None []
    = OK (action, store)
    /\ output action = "".
Proof.
  eexists; eexists.
  assert (H : parse_options empty_world
                (entry_of_command "/proj" "a.c" "gcc -c a.c")
                None true true None []
              = OK _) by (vm_compute; reflexivity).
  split; [exact H|].
  apply (@output_without_o_flag _ _ _ _ _ _ _ _ _ ["gcc"; "-c"; "a.c"]
           "gcc -c a.c" H eq_refl).
  repeat constructor.
Defined.

(** ** Entries that end the run *)

Lemma parse_unique_log_reaches w cu cif k1 k2 ash pash ctu db store
      pre entry others st :
  uniqueing_re w cu = OK tt ->
  extend_compilation_database_entries w db
  = OK (List.app pre (entry :: others)) ->
  parse_entries w cu cif k1 k2 ash pash ctu pre (initial_state store)
  = Completed st ->
  entry_skipped ash pash ctu entry = false ->
  forall ex,
    parse_options w
      (with_file (PosixPath.normpath
                    (PosixPath.join (e_directory entry) (e_file entry)))
                 entry)
      cif k1 k2 (Some (clang_version_info w)) (compiler_info st)
    = Raise ex ->
    parse_unique_log w cu cif k1 k2 ash pash ctu db store
    = if caught ex then SysExit 1 (invalid_database db) else Unhandled ex.
Proof.
  intros Hre Hext Hpre Hskip ex Hex.
  rewrite (@parse_unique_log_compiled w cu cif k1 k2 ash pash ctu db store
             Hre).
  rewrite Hext, parse_entries_app. fold (initial_state store).
  rewrite Hpre. cbn [parse_entries].
  unfold entry_skipped in Hskip. cbn [e_file with_file].
  rewrite Hskip, Hex. reflexivity.
Qed.

Lemma no_first_flag_raises w e cif k1 k2 f store gcc_command original :
  entry_command e = OK (gcc_command, original) ->
  no_first_flag gcc_command ->
  parse_options w e cif k1 k2 f store = Raise IndexError.
Proof.
  intros Hcmd H. unfold parse_options. rewrite Hcmd. cbn [bind].
  destruct H as [->|[[cc [-> Hcc]]|[cc [rest ->]]]].
  - reflexivity.
  - cbn [determine_compiler]. rewrite Hcc. reflexivity.
  - assert (Hd : exists c,
               determine_compiler (cc :: "" :: rest)
                 (ImplicitCompilerInfo.is_executable_compiler w) = OK c).
    { cbn [determine_compiler].
      destruct (PyStr.endswith cc "ccache");
        [destruct (ImplicitCompilerInfo.is_executable_compiler w "")|];
        eexists; reflexivity. }
    destruct Hd as [c ->]. cbn [bind tl].
    rewrite process_flags_cons by apply flag_processors_advance.
    rewrite empty_item_raises. reflexivity.
Qed.

(** X7.  An entry with an empty command, with [ccache] alone, or with an
    empty string as the first argument makes [parse_options] raise
    [IndexError]; [parse_unique_log] does not catch it, so a run whose
    policy is set up without error and that reaches such an entry ends
    with this exception and not with the message of an invalid
    database. *)
Theorem empty_argument_is_not_caught :
  forall (w : World) (compile_uniqueing : string)
         (compiler_info_file : option string)
         (keep_gcc_include_fixed keep_gcc_intrin : bool)
         (analysis_skip_handler pre_analysis_skip_handler
          : option (list SkipListHandler.rule))
         (ctu_or_stats_enabled : bool)
         (db : list db_entry) (store : compiler_info_t)
         (pre : list db_entry) (entry : db_entry) (others : list db_entry)
         (st : loop_state) (gcc_command : list string) (original : string),
    uniqueing_re w compile_uniqueing = OK tt ->
    extend_compilation_database_entries w db
    = OK (List.app pre (entry :: others)) ->
    parse_entries w compile_uniqueing compiler_info_file
                  keep_gcc_include_fixed keep_gcc_intrin
                  analysis_skip_handler pre_analysis_skip_handler
                  ctu_or_stats_enabled pre (initial_state store)
    = Completed st ->
    entry_skipped analysis_skip_handler pre_analysis_skip_handler
                  ctu_or_stats_enabled entry = false ->
    entry_command entry = OK (gcc_command, original) ->
    no_first_flag gcc_command ->
    parse_options w entry compiler_info_file keep_gcc_include_fixed
                  keep_gcc_intrin (Some (clang_version_info w))
                  (compiler_info st)
    = Raise IndexError
    /\ parse_unique_log w compile_uniqueing compiler_info_file
                        keep_gcc_include_fixed keep_gcc_intrin
                        analysis_skip_handler pre_analysis_skip_handler
                        ctu_or_stats_enabled db store
       = Unhandled IndexError.
Proof.
  intros w cu cif k1 k2 ash pash ctu db store pre entry others st
         gcc_command original Hre Hext Hpre Hskip Hcmd Hno.
  split; [eapply no_first_flag_raises; eassumption|].
  rewrite (@parse_unique_log_reaches w cu cif k1 k2 ash pash ctu db store
             pre entry others st Hre Hext Hpre Hskip IndexError);
    [reflexivity|].
  eapply no_first_flag_raises; [|eassumption].
  exact Hcmd.
Qed.

(** Witness of X7: the arguments [gcc], the empty string and [a.c]. *)
Lemma empty_argument_is_not_caught_witness :
  parse_unique_log empty_world "none" None false false None None false
    [{| e_directory := "/proj"; e_file := "a.c"; e_command := None;
        e_arguments := Some ["gcc"; ""; "a.c"] |}] []
  = Unhandled IndexError.
Proof.
  apply (@empty_argument_is_not_caught empty_world "none" None false false
           None None false
           [{| e_directory := "/proj"; e_file := "a.c"; e_command := None;
               e_arguments := Some ["gcc"; ""; "a.c"] |}] []
           [] {| e_directory := "/proj"; e_file := "a.c"; e_command := None;
                 e_arguments := Some ["gcc"; ""; "a.c"] |} []
           (initial_state []) ["gcc"; ""; "a.c"] "gcc  a.c");
    try reflexivity.
  right; right. exists "gcc", ["a.c"]. reflexivity.
Defined.

(** X8.  An entry that has neither a command nor arguments makes
    [parse_options] raise [KeyError]; a run whose policy is set up without
    error and that reaches the entry catches it, logs that the compile
    database is not valid and exits with code 1. *)
Theorem entry_without_command_is_invalid :
  forall (w : World) (compile_uniqueing : string)
         (compiler_info_file : option string)
         (keep_gcc_include_fixed keep_gcc_intrin : bool)
         (analysis_skip_handler pre_analysis_skip_handler
          : option (list SkipListHandler.rule))
         (ctu_or_stats_enabled : bool)
         (db : list db_entry) (store : compiler_info_t)
         (pre : list db_entry) (entry : db_entry) (others : list db_entry)
         (st : loop_state),
    uniqueing_re w compile_uniqueing = OK tt ->
    extend_compilation_database_entries w db
    = OK (List.app pre (entry :: others)) ->
    parse_entries w compile_uniqueing compiler_info_file
                  keep_gcc_include_fixed keep_gcc_intrin
                  analysis_skip_handler pre_analysis_skip_handler
                  ctu_or_stats_enabled pre (initial_state store)
    = Completed st ->
    entry_skipped analysis_skip_handler pre_analysis_skip_handler
                  ctu_or_stats_enabled entry = false ->
    e_command entry = None ->
    e_arguments entry = None ->
    parse_unique_log w compile_uniqueing compiler_info_file
                     keep_gcc_include_fixed keep_gcc_intrin
                     analysis_skip_handler pre_analysis_skip_handler
                     ctu_or_stats_enabled db store
    = SysExit 1 {| log_format := "The compile database is not valid.";
                   log_args := [] |}.
Proof.
  intros w cu cif k1 k2 ash pash ctu db store pre entry others st
         Hre Hext Hpre Hskip Hc Ha.
  rewrite (@parse_unique_log_reaches w cu cif k1 k2 ash pash ctu db store
             pre entry others st Hre Hext Hpre Hskip KeyError).
  - destruct db as [|e0 db']; [|reflexivity].
    cbn in Hext. destruct pre; discriminate Hext.
  - unfold parse_options, entry_command. cbn [e_arguments e_command with_file].
    rewrite Ha, Hc. reflexivity.
Qed.

(** Witness of X8: one entry with a directory and a file only. *)
Lemma entry_without_command_is_invalid_witness :
  parse_unique_log empty_world "none" None false false None None false
    [{| e_directory := "/proj"; e_file := "a.c"; e_command := None;
        e_arguments := None |}] []
  = SysExit 1 {| log_format := "The compile database is not valid.";
                 log_args := [] |}.
Proof.
  apply (@entry_without_command_is_invalid empty_world "none" None false
           false None None false
           [{| e_directory := "/proj"; e_file := "a.c"; e_command := None;
               e_arguments := None |}] []
           [] {| e_directory := "/proj"; e_file := "a.c"; e_command := None;
                 e_arguments := None |} [] (initial_state []));
    reflexivity.
Defined.

(** ** The filters of [parse_options] *)

Lemma filter_compiler_includes_all f l l' :
  filter_compiler_includes f l = OK l' -> all_includes f l'.
Proof.
  revert l'. induction l as [|[language [includes|]] rest IH]; intros l' H;
    cbn [filter_compiler_includes] in H.
  - inversion H; subst. constructor.
  - destruct (filter_compiler_includes f rest) as [rest'|e]; cbn [bind] in H;
      [|discriminate H].
    inversion H; subst. constructor; [|now apply IH].
    exists (filter f includes). split; [reflexivity|].
    apply Forall_forall. intros x Hx. now apply filter_In in Hx.
  - discriminate H.
Qed.

Lemma filter_compiler_includes_keeps f g l l' :
  filter_compiler_includes f l = OK l' ->
  all_includes g l -> all_includes g l'.
Proof.
  revert l'. induction l as [|[language [includes|]] rest IH]; intros l' H Hg;
    cbn [filter_compiler_includes] in H.
  - inversion H; subst. constructor.
  - destruct (filter_compiler_includes f rest) as [rest'|e]; cbn [bind] in H;
      [|discriminate H].
    inversion H; subst. inversion Hg as [|? ? Hhd Htl]; subst.
    constructor; [|now apply IH].
    destruct Hhd as [inc [Hinc Hall]]. cbn [snd] in Hinc.
    inversion Hinc; subst.
    exists (filter f inc). split; [reflexivity|].
    apply Forall_forall. intros x Hx. apply filter_In in Hx.
    rewrite Forall_forall in Hall. now apply Hall.
  - discriminate H.
Qed.

(** The options come in units: an option alone, or an include flag
    followed by its value.  A unit is kept whole or dropped whole, so that
    the filtered list is read as the same units. *)
Lemma aop_without_intrin_stable w n :
  forall options options',
    List.length options <= n ->
    aop_without_intrin w options = OK options' ->
    aop_without_intrin w options' = OK options'.
Proof.
  induction n as [|n IH]; intros options options' Hn H.
  - destruct options; [|simpl in Hn; lia]. inversion H; subst. reflexivity.
  - destruct options as [|aopt rest]; [inversion H; subst; reflexivity|].
    cbn [aop_without_intrin] in H. simpl in Hn.
    destruct (Re.match_ INCLUDE_OPTIONS_MERGED aopt) as [m|] eqn:Em.
    + cbv zeta in H.
      destruct (negb (Nat.eqb (String.length (PyStr.take m aopt))
                              (String.length aopt))) eqn:Et.
      * destruct (aop_without_intrin w rest) as [more|e] eqn:Er;
          cbn [bind] in H; [|discriminate H].
        assert (Hm : aop_without_intrin w more = OK more)
          by (apply (IH rest); [lia | assumption]).
        destruct (keep_include_value w _) eqn:Ek; inversion H; subst;
          [|assumption].
        cbn [aop_without_intrin]. rewrite Em. cbv zeta.
        rewrite Et, Hm. cbn [bind]. now rewrite Ek.
      * destruct rest as [|value rest']; [discriminate H|].
        destruct (aop_without_intrin w rest') as [more|e] eqn:Er;
          cbn [bind] in H; [|discriminate H].
        assert (Hm : aop_without_intrin w more = OK more)
          by (apply (IH rest'); [simpl in Hn; lia | assumption]).
        destruct (keep_include_value w value) eqn:Ek; inversion H; subst;
          [|assumption].
        cbn [aop_without_intrin]. rewrite Em. cbv zeta.
        rewrite Et, Hm. cbn [bind]. now rewrite Ek.
    + destruct (aop_without_intrin w rest) as [more|e] eqn:Er;
        cbn [bind] in H; [|discriminate H].
      inversion H; subst.
      cbn [aop_without_intrin]. rewrite Em.
      rewrite (IH rest more); [reflexivity | lia | assumption].
Qed.

Lemma finish_options_filters w file cif k1 k2 clang store d a store' :
  finish_options w file cif k1 k2 clang store d = OK (a, store') ->
  (k1 = false -> all_includes __is_not_include_fixed (compiler_includes a))
  /\ (k2 = false ->
      all_includes (__contains_no_intrinsic_headers w) (compiler_includes a)
      /\ aop_without_intrin w (analyzer_options a)
         = OK (analyzer_options a)).
Proof.
  unfold finish_options.
  destruct (settle_source file d) as [d1 l].
  match goal with
  | |- bind ?c _ = _ -> _ => destruct c as [[d2 s2]|e]
  end; cbn [bind]; [|discriminate].
  match goal with
  | |- bind ?c _ = _ -> _ => destruct c as [d3|e] eqn:E3
  end; cbn [bind]; [|discriminate].
  assert (H3 : k1 = false ->
               all_includes __is_not_include_fixed (compiler_includes d3)).
  { intros ->. cbn [negb] in E3.
    destruct (filter_compiler_includes _ _) as [inc|e] eqn:Ef;
      cbn [bind] in E3; [|discriminate].
    inversion E3; subst. cbn [compiler_includes with_compiler_includes].
    eapply filter_compiler_includes_all; eassumption. }
  clear E3.
  match goal with
  | |- bind ?c _ = _ -> _ => destruct c as [d4|e] eqn:E4
  end; cbn [bind]; [|discriminate].
  intros H; inversion H; subst; clear H.
  destruct k2; cbn [negb] in E4.
  - inversion E4; subst. split; [assumption | discriminate].
  - destruct (filter_compiler_includes _ _) as [inc|e] eqn:Ef;
      cbn [bind] in E4; [|discriminate].
    destruct (aop_without_intrin _ _) as [opts|e] eqn:Ea; cbn [bind] in E4;
      [|discriminate].
    inversion E4; subst.
    cbn [compiler_includes analyzer_options with_compiler_includes
                           with_analyzer_options].
    split; [|intros _; split].
    + intros Hk. eapply filter_compiler_includes_keeps; eauto.
    + eapply filter_compiler_includes_all; eassumption.
    + eapply aop_without_intrin_stable; [apply le_n | eassumption].
Qed.

(** X9.  Unless [keep_gcc_include_fixed] is set, no list of implicit
    include directories of the returned action holds a directory whose
    normalized base name is [include-fixed], whether the directories come
    from a probe of the compiler, from the compiler-info file or from the
    cache. *)
Theorem include_fixed_is_filtered :
  forall (w : World) (compilation_db_entry : db_entry)
         (compiler_info_file : option string) (keep_gcc_intrin : bool)
         (get_clangsa_version_func : option (string -> bool))
         (store store' : compiler_info_t) (action : BuildAction),
    parse_options w compilation_db_entry compiler_info_file
                  false keep_gcc_intrin get_clangsa_version_func store
    = OK (action, store') ->
    all_includes __is_not_include_fixed (compiler_includes action).
Proof.
  intros w e cif k2 f store store' action. unfold parse_options.
  destruct (entry_command e) as [[gcc_command original]|ex]; cbn [bind];
    [|discriminate].
  destruct (determine_compiler _ _) as [cc|ex]; cbn [bind]; [|discriminate].
  destruct (process_flags _ _ _) as [d|ex]; cbn [bind]; [|discriminate].
  intros H. apply finish_options_filters in H. now apply H.
Qed.

(** Witness of X9: the probe lists [/usr/lib/gcc/include-fixed], and the
    action has the two other directories. *)
Lemma include_fixed_is_filtered_witness :
  exists action store,
    parse_options gcc_include_world
                  (entry_of_command "/proj" "a.c" "gcc -c a.c")
                  None false true None []
    = OK (action, store)
    /\ compiler_includes action
       = [("c", Some ["/usr/lib/gcc/include"; "/usr/include"]);
          ("c++", Some ["/usr/lib/gcc/include"; "/usr/include"])]
    /\ all_includes __is_not_include_fixed (compiler_includes action).
Proof.
  eexists; eexists.
  assert (H : parse_options gcc_include_world
                (entry_of_command "/proj" "a.c" "gcc -c a.c")
                None false true None []
              = OK _) by (vm_compute; reflexivity).
  split; [exact H|]. split; [reflexivity|].
  exact (@include_fixed_is_filtered _ _ _ _ _ _ _ _ H).
Defined.

(** X10.  Unless [keep_gcc_intrin] is set, no list of implicit include
    directories of the returned action holds an existing directory with
    intrinsic headers, and the options of the action are stable under the
    filter of the include flags: filtering them again changes nothing. *)
Theorem intrinsic_headers_are_filtered :
  forall (w : World) (compilation_db_entry : db_entry)
         (compiler_info_file : option string) (keep_gcc_include_fixed : bool)
         (get_clangsa_version_func : option (string -> bool))
         (store store' : compiler_info_t) (action : BuildAction),
    parse_options w compilation_db_entry compiler_info_file
                  keep_gcc_include_fixed false get_clangsa_version_func store
    = OK (action, store') ->
    all_includes (__contains_no_intrinsic_headers w)
                 (compiler_includes action)
    /\ aop_without_intrin w (analyzer_options action)
       = OK (analyzer_options action).
Proof.
  intros w e cif k1 f store store' action. unfold parse_options.
  destruct (entry_command e) as [[gcc_command original]|ex]; cbn [bind];
    [|discriminate].
  destruct (determine_compiler _ _) as [cc|ex]; cbn [bind]; [|discriminate].
  destruct (process_flags _ _ _) as [d|ex]; cbn [bind]; [|discriminate].
  intros H. apply finish_options_filters in H. now apply H.
Qed.

(** Witness of X10: [/usr/lib/gcc/include] has intrinsic headers, as an
    implicit directory and as the value of [-I] and of [-isystem]. *)
Lemma intrinsic_headers_are_filtered_witness :
  exists action store,
    parse_options gcc_include_world
      (entry_of_command "/proj" "a.c"
         "gcc -I/usr/lib/gcc/include -isystem /usr/lib/gcc/include -I/x -c a.c")
      None true false None []
    = OK (action, store)
    /\ compiler_includes action
       = [("c", Some ["/usr/lib/gcc/include-fixed"; "/usr/include"]);
          ("c++", Some ["/usr/lib/gcc/include-fixed"; "/usr/include"])]
    /\ analyzer_options action = ["-I/x"]
    /\ all_includes (__contains_no_intrinsic_headers gcc_include_world)
                    (compiler_includes action).
Proof.
  eexists; eexists.
  assert (H : parse_options gcc_include_world
                (entry_of_command "/proj" "a.c"
                   "gcc -I/usr/lib/gcc/include -isystem /usr/lib/gcc/include -I/x -c a.c")
                None true false None []
              = OK _) by (vm_compute; reflexivity).
  split; [exact H|]. split; [reflexivity|]. split; [reflexivity|].
  exact (proj1 (@intrinsic_headers_are_filtered _ _ _ _ _ _ _ _ H)).
Defined.

(** ** The cache of [ImplicitCompilerInfo] *)

Lemma known_update_lang cc language f store :
  ImplicitCompilerInfo.known
    cc (ImplicitCompilerInfo.update_lang cc language f store) = true.
Proof.
  unfold ImplicitCompilerInfo.known, ImplicitCompilerInfo.update_lang.
  rewrite alist_get_set_eq.
  match goal with
  | |- context [alist_set String.eqb language ?v ?l] =>
      destruct l as [|[k0 v0] l0]; cbn [alist_set];
      [reflexivity | destruct (String.eqb language k0); reflexivity]
  end.
Qed.

Lemma update_lang_others cc language f store other :
  other <> cc ->
  alist_get String.eqb other
            (ImplicitCompilerInfo.update_lang cc language f store)
  = alist_get String.eqb other store.
Proof.
  intros H. unfold ImplicitCompilerInfo.update_lang.
  now apply alist_get_set_neq.
Qed.

Lemma probe_known w cc options store store' :
  ImplicitCompilerInfo.probe w cc options store = OK store' ->
  ImplicitCompilerInfo.known cc store' = true.
Proof.
  unfold ImplicitCompilerInfo.probe, ImplicitCompilerInfo.probe_language.
  destruct (ImplicitCompilerInfo.get_compiler_includes
              w cc ImplicitCompilerInfo.c options); cbn [bind];
    [|discriminate].
  destruct (ImplicitCompilerInfo.get_compiler_includes
              w cc ImplicitCompilerInfo.cpp options); cbn [bind];
    [|discriminate].
  intros H; inversion H; subst. apply known_update_lang.
Qed.

Lemma probe_others w cc options store store' other :
  ImplicitCompilerInfo.probe w cc options store = OK store' ->
  other <> cc ->
  alist_get String.eqb other store' = alist_get String.eqb other store.
Proof.
  unfold ImplicitCompilerInfo.probe, ImplicitCompilerInfo.probe_language.
  destruct (ImplicitCompilerInfo.get_compiler_includes
              w cc ImplicitCompilerInfo.c options); cbn [bind];
    [|discriminate].
  destruct (ImplicitCompilerInfo.get_compiler_includes
              w cc ImplicitCompilerInfo.cpp options); cbn [bind];
    [|discriminate].
  intros H Hne; inversion H; subst.
  rewrite !update_lang_others by assumption.
  now apply alist_get_set_neq.
Qed.

Lemma load_language_others cc language info store store' other :
  ImplicitCompilerInfo.load_language cc language info store = OK store' ->
  other <> cc ->
  alist_get String.eqb other store' = alist_get String.eqb other store.
Proof.
  unfold ImplicitCompilerInfo.load_language. intros H Hne.
  destruct (alist_get String.eqb language info) as [ld|].
  - destruct (lang_data_nonempty ld).
    + destruct (ld_compiler_includes ld) as [elements|]; [|discriminate H].
      destruct (ImplicitCompilerInfo.load_includes elements);
        cbn [bind] in H; [|discriminate H].
      inversion H; subst. now rewrite !update_lang_others.
    + inversion H; subst. now rewrite update_lang_others.
  - inversion H; subst. now rewrite update_lang_others.
Qed.

Lemma load_compiler_info_others w filename cc store store' other :
  ImplicitCompilerInfo.load_compiler_info w filename cc store = OK store' ->
  other <> cc ->
  alist_get String.eqb other store' = alist_get String.eqb other store.
Proof.
  unfold ImplicitCompilerInfo.load_compiler_info. intros H Hne.
  destruct (alist_get String.eqb cc (load_json_or_empty w filename))
    as [info|]; [|now inversion H].
  destruct (ImplicitCompilerInfo.load_language
              cc ImplicitCompilerInfo.c info
              (ImplicitCompilerInfo.ensure_compiler cc store))
    as [s1|e] eqn:E1; cbn [bind] in H; [|discriminate H].
  rewrite (@load_language_others _ _ _ _ _ _ H Hne).
  rewrite (@load_language_others _ _ _ _ _ _ E1 Hne).
  unfold ImplicitCompilerInfo.ensure_compiler.
  destruct (ImplicitCompilerInfo.known cc store); [reflexivity|].
  now apply alist_get_set_neq.
Qed.

(** X11.  A compiler is probed once.  When [ImplicitCompilerInfo.set] has
    returned for a compiler, without a compiler-info file, a later call
    for the same compiler runs no command and leaves the cache as it is,
    whatever the options of the later command are: the record that the
    first command gave is used for it. *)
Theorem compiler_is_probed_once :
  forall (w : World) (d d1 : details) (compiler_info_file : option string)
         (store store1 : compiler_info_t),
    ImplicitCompilerInfo.info_file_exists w compiler_info_file = false ->
    ImplicitCompilerInfo.set w d compiler_info_file store
    = OK (d1, store1) ->
    forall d2 : details,
      compiler d2 = compiler d ->
      exists d2' : details,
        forall w2 : World,
          ImplicitCompilerInfo.info_file_exists w2 compiler_info_file
          = false ->
          ImplicitCompilerInfo.set w2 d2 compiler_info_file store1
          = OK (d2', store1).
Proof.
  intros w d d1 cif store store1 Hno H d2 Hc.
  assert (Hk : ImplicitCompilerInfo.known (compiler d) store1 = true).
  { unfold ImplicitCompilerInfo.set in H. rewrite Hno in H.
    destruct (ImplicitCompilerInfo.known (compiler d) store) eqn:Ek;
      cbn [bind] in H.
    - inversion H; subst. exact Ek.
    - destruct (ImplicitCompilerInfo.probe w (compiler d)
                  (analyzer_options d) store) as [s|e] eqn:Ep;
        cbn [bind] in H; [|discriminate H].
      inversion H; subst. eapply probe_known; eassumption. }
  eexists. intros w2 Hno2.
  unfold ImplicitCompilerInfo.set. rewrite Hno2, Hc, Hk. cbn [bind].
  reflexivity.
Qed.

(** Witness of X11: [gcc] is probed for the first command, and the record
    is used for a second command with [-m32], in a world where nothing
    answers. *)
Lemma compiler_is_probed_once_witness :
  exists d1 store1 d2',
    ImplicitCompilerInfo.set gcc_include_world
      (with_compiler "gcc" empty_details) None []
    = OK (d1, store1)
    /\ ImplicitCompilerInfo.set empty_world
         (with_analyzer_options ["-m32"] (with_compiler "gcc" empty_details))
         None store1
       = OK (d2', store1)
    /\ compiler_includes d2' = compiler_includes d1.
Proof.
  eexists; eexists.
  assert (H : ImplicitCompilerInfo.set gcc_include_world
                (with_compiler "gcc" empty_details) None []
              = OK _) by (vm_compute; reflexivity).
  destruct (@compiler_is_probed_once gcc_include_world _ _ None _ _
              eq_refl H
              (with_analyzer_options ["-m32"]
                 (with_compiler "gcc" empty_details)) eq_refl)
    as [d2' H2].
  exists d2'. split; [exact H|].
  pose proof (H2 empty_world eq_refl) as H3.
  split; [exact H3|].
  vm_compute in H3. inversion H3. reflexivity.
Defined.

(** X12.  [ImplicitCompilerInfo.set] changes the record of the compiler of
    the command only: the records of the other compilers in the cache are
    the ones that were there, whether the compiler is probed or its record
    is loaded from the compiler-info file. *)
Theorem set_keeps_other_compilers :
  forall (w : World) (d d' : details) (compiler_info_file : option string)
         (store store' : compiler_info_t) (other : string),
    ImplicitCompilerInfo.set w d compiler_info_file store
    = OK (d', store') ->
    other <> compiler d ->
    alist_get String.eqb other store' = alist_get String.eqb other store.
Proof.
  intros w d d' cif store store' other H Hne.
  unfold ImplicitCompilerInfo.set in H.
  match type of H with
  | bind ?c _ = _ => destruct c as [s|e] eqn:E
  end; cbn [bind] in H; [|discriminate H].
  inversion H; subst; clear H.
  destruct (ImplicitCompilerInfo.info_file_exists w cif).
  - destruct cif as [f|]; [|now inversion E].
    eapply load_compiler_info_others; eassumption.
  - destruct (ImplicitCompilerInfo.known (compiler d) store);
      [now inversion E|].
    eapply probe_others; eassumption.
Qed.

(** Witness of X12: the record of [clang] stays when [gcc] is probed. *)
Lemma set_keeps_other_compilers_witness :
  exists d' store',
    ImplicitCompilerInfo.set gcc_include_world
      (with_compiler "gcc" empty_details) None
      [("clang", [("c", empty_lang_data)])]
    = OK (d', store')
    /\ alist_get String.eqb "clang" store'
       = Some [("c", empty_lang_data)].
Proof.
  eexists; eexists.
  assert (H : ImplicitCompilerInfo.set gcc_include_world
                (with_compiler "gcc" empty_details) None
                [("clang", [("c", empty_lang_data)])]
              = OK _) by (vm_compute; reflexivity).
  split; [exact H|].
  rewrite (@set_keeps_other_compilers _ _ _ _ _ _ "clang" H);
    [reflexivity | discriminate].
Defined.

(** ** The target of the action *)

Lemma option_string_eqb_refl k : option_string_eqb k k = true.
Proof. destruct k; cbn; [apply String.eqb_refl | reflexivity]. Qed.

Lemma option_string_eqb_eq a b : option_string_eqb a b = true -> a = b.
Proof.
  destruct a, b; cbn; intros H; try discriminate H; [|reflexivity].
  apply String.eqb_eq in H. now subst.
Qed.

Lemma target_get_set_eq k (v : option string) l :
  alist_get option_string_eqb k (alist_set option_string_eqb k v l) = Some v.
Proof.
  induction l as [|[k' v'] l IH]; cbn [alist_set alist_get].
  - now rewrite option_string_eqb_refl.
  - destruct (option_string_eqb k k') eqn:E; cbn [alist_get].
    + now rewrite option_string_eqb_refl.
    + now rewrite E.
Qed.

Lemma target_get_set_neq k k' (v : option string) l :
  option_string_eqb k' k = false ->
  alist_get option_string_eqb k' (alist_set option_string_eqb k v l)
  = alist_get option_string_eqb k' l.
Proof.
  intros Hne. induction l as [|[k0 v0] l IH]; cbn [alist_set alist_get].
  - now rewrite Hne.
  - destruct (option_string_eqb k k0) eqn:E; cbn [alist_get].
    + apply option_string_eqb_eq in E. subst k0. now rewrite Hne.
    + now rewrite IH.
Qed.

Lemma set_target_from_ICI_keeps_target cc language store d k v :
  alist_get option_string_eqb k (target d) = Some (Some v) ->
  v <> "" ->
  alist_get option_string_eqb k
    (target (ImplicitCompilerInfo.set_target_from_ICI cc language store d))
  = Some (Some v).
Proof.
  intros Hk Hv. unfold ImplicitCompilerInfo.set_target_from_ICI.
  destruct (option_string_eqb k (Some language)) eqn:E.
  - apply option_string_eqb_eq in E. subst k. rewrite Hk.
    cbn [ImplicitCompilerInfo.nonempty_string].
    apply String.eqb_neq in Hv. rewrite Hv. exact Hk.
  - match goal with
    | |- context [if ?c then _ else _] => destruct c
    end; [exact Hk|].
    destruct (ImplicitCompilerInfo.language_data cc language store);
      [|exact Hk].
    cbn [target with_target]. now rewrite target_get_set_neq.
Qed.

Lemma set_includes_from_ICI_target cc language store d :
  target (ImplicitCompilerInfo.set_includes_from_ICI cc language store d)
  = target d.
Proof.
  unfold ImplicitCompilerInfo.set_includes_from_ICI.
  destruct (alist_get String.eqb language (compiler_includes d))
    as [[[|? ?]|]|];
    destruct (ImplicitCompilerInfo.language_data cc language store);
    reflexivity.
Qed.

Lemma set_standard_from_ICI_target cc language store d :
  target (ImplicitCompilerInfo.set_standard_from_ICI cc language store d)
  = target d.
Proof.
  unfold ImplicitCompilerInfo.set_standard_from_ICI.
  destruct (alist_get String.eqb language (compiler_standard d)) as [v|];
    [destruct (ImplicitCompilerInfo.nonempty_string v)|];
    destruct (ImplicitCompilerInfo.language_data cc language store);
    reflexivity.
Qed.

Lemma ICI_set_keeps_target w d cif store d' store' k v :
  ImplicitCompilerInfo.set w d cif store = OK (d', store') ->
  alist_get option_string_eqb k (target d) = Some (Some v) ->
  v <> "" ->
  alist_get option_string_eqb k (target d') = Some (Some v).
Proof.
  unfold ImplicitCompilerInfo.set.
  match goal with
  | |- bind ?c _ = _ -> _ => destruct c as [s|e]
  end; cbn [bind]; [|discriminate].
  intros H Hk Hv; inversion H; subst; clear H.
  apply set_target_from_ICI_keeps_target; [|assumption].
  rewrite set_standard_from_ICI_target, set_includes_from_ICI_target.
  apply set_target_from_ICI_keeps_target; [|assumption].
  now rewrite set_standard_from_ICI_target, set_includes_from_ICI_target.
Qed.

Lemma finish_options_target w file cif k1 k2 clang store d a store' :
  finish_options w file cif k1 k2 clang store d = OK (a, store') ->
  arch d <> "" ->
  alist_get option_string_eqb
            (get_language (snd (PosixPath.splitext (source a)))) (target a)
  = Some (Some (arch d))
  /\ arch a = arch d.
Proof.
  intros H Harch. pose proof (finish_options_keeps _ _ _ _ _ _ _ _ H) as K.
  destruct K as [_ [_ [_ [Ks [_ [_ [Ka _]]]]]]].
  rewrite Ks, Ka. clear Ks Ka.
  unfold finish_options in H.
  assert (Hs : alist_get option_string_eqb
                 (get_language
                    (snd (PosixPath.splitext
                            (source (fst (settle_source file d))))))
                 (target (fst (settle_source file d)))
               = Some (Some (arch d))
               /\ arch (fst (settle_source file d)) = arch d).
  { unfold settle_source.
    set (d1 := match action_type d with
               | Some _ => d
               | None => with_action_type (Some COMPILE) d
               end).
    assert (H1 : arch d1 = arch d) by (subst d1; now destruct (action_type d)).
    clearbody d1. cbn [source with_source].
    set (d3 := if file =? "." then _ else _).
    assert (H3 : arch d3 = arch d1) by (subst d3; now destruct (file =? ".")).
    clearbody d3.
    destruct (get_language (snd (PosixPath.splitext (source d3)))) as [l|]
      eqn:El; [destruct (lang d3)|];
      cbn [fst source arch target with_target with_lang with_action_type];
      rewrite ?El, target_get_set_eq; split; congruence. }
  destruct (settle_source file d) as [d1 l]. cbn [fst] in Hs.
  destruct Hs as [Hs Ha1]. rewrite <- Ha1 in *.
  match type of H with
  | bind ?c _ = _ => destruct c as [[d2 s2]|e] eqn:E1
  end; cbn [bind] in H; [|discriminate].
  assert (H2 : alist_get option_string_eqb
                 (get_language (snd (PosixPath.splitext (source d1))))
                 (target d2) = Some (Some (arch d1))).
  { match type of E1 with
    | (if ?c then _ else _) = _ => destruct c
    end.
    - eapply ICI_set_keeps_target; eassumption.
    - now inversion E1; subst. }
  match type of H with
  | bind ?c _ = _ => destruct c as [d3|e] eqn:E3
  end; cbn [bind] in H; [|discriminate].
  assert (H3 : target d3 = target d2).
  { destruct k1; cbn [negb] in E3; [now inversion E3|].
    destruct (filter_compiler_includes _ _); cbn [bind] in E3;
      [|discriminate]. now inversion E3. }
  clear E1 E3.
  match type of H with
  | bind ?c _ = _ => destruct c as [d4|e] eqn:E4
  end; cbn [bind] in H; [|discriminate].
  assert (H4 : target d4 = target d3).
  { destruct k2; cbn [negb] in E4; [now inversion E4|].
    destruct (filter_compiler_includes _ _); cbn [bind] in E4;
      [|discriminate].
    destruct (aop_without_intrin _ _); cbn [bind] in E4; [|discriminate].
    now inversion E4. }
  inversion H; subst. cbn [fst]. split; [congruence | reflexivity].
Qed.

(** X13.  An architecture given in the command is the target of the
    action for the language of the extension of its source: the target
    that the compiler reports, probed or loaded, does not replace it. *)
Theorem arch_is_the_target_of_the_source_language :
  forall (w : World) (compilation_db_entry : db_entry)
         (compiler_info_file : option string)
         (keep_gcc_include_fixed keep_gcc_intrin : bool)
         (get_clangsa_version_func : option (string -> bool))
         (store store' : compiler_info_t) (action : BuildAction),
    parse_options w compilation_db_entry compiler_info_file
                  keep_gcc_include_fixed keep_gcc_intrin
                  get_clangsa_version_func store
    = OK (action, store') ->
    arch action <> "" ->
    alist_get option_string_eqb
              (get_language (snd (PosixPath.splitext (source action))))
              (target action)
    = Some (Some (arch action)).
Proof.
  intros w e cif k1 k2 f store store' action. unfold parse_options.
  destruct (entry_command e) as [[gcc_command original]|ex]; cbn [bind];
    [|discriminate].
  destruct (determine_compiler _ _) as [cc|ex]; cbn [bind]; [|discriminate].
  destruct (process_flags _ _ _) as [d|ex]; cbn [bind]; [|discriminate].
  intros H Harch.
  destruct (arch d =? "") eqn:E.
  - apply String.eqb_eq in E.
    pose proof (finish_options_keeps _ _ _ _ _ _ _ _ H) as K.
    destruct K as [_ [_ [_ [_ [_ [_ [Ka _]]]]]]].
    exfalso. apply Harch. rewrite Ka.
    unfold settle_source.
    destruct (action_type d); cbn [source with_source];
      destruct (e_file e =? ".");
      cbn [source with_source];
      repeat match goal with
      | |- context [match ?x with _ => _ end] => destruct x
      end; exact E.
  - apply String.eqb_neq in E.
    destruct (finish_options_target _ _ _ _ _ _ _ _ H E) as [Ht Ha].
    now rewrite Ha.
Qed.

(** Witness of X13: [gcc -arch armv7 -c a.c] with a compiler that reports
    the target [x86_64-linux-gnu]. *)
Lemma arch_is_the_target_of_the_source_language_witness :
  exists action store,
    parse_options target_world
                  (entry_of_command "/proj" "a.c" "gcc -arch armv7 -c a.c")
                  None false false None []
    = OK (action, store)
    /\ arch action <> ""
    /\ alist_get option_string_eqb (Some "c") (target action)
       = Some (Some "armv7")
    /\ alist_get option_string_eqb (Some "c++") (target action)
       = Some (Some "x86_64-linux-gnu").
Proof.
  eexists; eexists.
  assert (H : parse_options target_world
                (entry_of_command "/proj" "a.c" "gcc -arch armv7 -c a.c")
                None false false None []
              = OK _) by (vm_compute; reflexivity).
  split; [exact H|].
  match type of H with
  | _ = OK (?a, _) =>
      assert (Ha : arch a <> "") by (vm_compute; discriminate)
  end.
  split; [exact Ha|]. split; [|reflexivity].
  exact (@arch_is_the_target_of_the_source_language
           _ _ _ _ _ _ _ _ _ H Ha).
Defined.

(** ** What is read from the output of the compiler *)

Lemma target_of_lines_step target line rest :
  ImplicitCompilerInfo.target_of_lines target (line :: rest)
  = ImplicitCompilerInfo.target_of_lines
      (match names_target line with
       | Some value => value
       | None => target
       end) rest.
Proof.
  cbn [ImplicitCompilerInfo.target_of_lines]. unfold names_target.
  destruct (PyStr.split_ws (PyStr.strip line)) as [|label [|value more]];
    try reflexivity.
  now destruct (label =? "Target:").
Qed.

Lemma target_of_lines_none target lines :
  Forall (fun line => names_target line = None) lines ->
  ImplicitCompilerInfo.target_of_lines target lines = target.
Proof.
  induction 1 as [|line lines Hl _ IH]; [reflexivity|].
  now rewrite target_of_lines_step, Hl.
Qed.

Lemma target_of_lines_app target pre lines :
  ImplicitCompilerInfo.target_of_lines target (List.app pre lines)
  = ImplicitCompilerInfo.target_of_lines
      (ImplicitCompilerInfo.target_of_lines target pre) lines.
Proof.
  revert target. induction pre as [|line pre IH]; intros target;
    [reflexivity|].
  cbn [List.app]. now rewrite !target_of_lines_step, IH.
Qed.

(** X14.  The target of a compiler is the second word of the last line
    of the output of [-v] whose first word is [Target:] and that has a
    second word; the lines before it do not matter. *)
Theorem get_compiler_target_is_last_target_line :
  forall (w : World) (compiler text : string) (pre : list string)
         (line : string) (post : list string) (value : string),
    compiler_err w (compiler ++ " -v") = Some text ->
    PyStr.splitlines text = List.app pre (line :: post) ->
    names_target line = Some value ->
    Forall (fun line' => names_target line' = None) post ->
    ImplicitCompilerInfo.get_compiler_target w compiler = value.
Proof.
  intros w compiler text pre line post value Herr Hlines Hline Hpost.
  unfold ImplicitCompilerInfo.get_compiler_target.
  rewrite Herr, Hlines, target_of_lines_app, target_of_lines_step, Hline.
  now apply target_of_lines_none.
Qed.

(** Witness of X14: the output of [gcc -v]. *)
Lemma get_compiler_target_is_last_target_line_witness :
  ImplicitCompilerInfo.get_compiler_target target_world "gcc"
  = "x86_64-linux-gnu".
Proof.
  eapply (@get_compiler_target_is_last_target_line target_world "gcc" _
           ["Using built-in specs."] "Target: x86_64-linux-gnu"
           ["Thread model: posix"] "x86_64-linux-gnu");
    try reflexivity.
  repeat constructor.
Defined.

Lemma start_is_not_end line :
  PyStr.startswith line ImplicitCompilerInfo.start_mark = true ->
  PyStr.startswith line ImplicitCompilerInfo.end_mark = false.
Proof.
  unfold ImplicitCompilerInfo.start_mark, ImplicitCompilerInfo.end_mark.
  destruct line as [|c line]; [discriminate|].
  cbn [PyStr.startswith]. intros H.
  apply andb_true_iff in H as [H _]. apply Ascii.eqb_eq in H. subst c.
  reflexivity.
Qed.

Lemma parse_include_lines_inside dirs :
  Forall (fun line =>
            PyStr.startswith line ImplicitCompilerInfo.end_mark = false)
         dirs ->
  forall tail,
    ImplicitCompilerInfo.parse_include_lines true (List.app dirs tail)
    = List.app (map include_of_line dirs)
               (ImplicitCompilerInfo.parse_include_lines true tail).
Proof.
  intros Hdirs tail. induction Hdirs as [|line dirs Hl _ IH]; [reflexivity|].
  cbn [List.app ImplicitCompilerInfo.parse_include_lines map].
  rewrite Hl. cbv zeta. cbn [orb]. rewrite IH. unfold include_of_line.
  now destruct (PyStr.find "(framework directory)" (PyStr.strip line)).
Qed.

Lemma parse_include_lines_outside pre start rest :
  Forall (fun line => outside_line line = true) pre ->
  PyStr.startswith start ImplicitCompilerInfo.start_mark = true ->
  ImplicitCompilerInfo.parse_include_lines false
    (List.app pre (start :: rest))
  = ImplicitCompilerInfo.parse_include_lines true rest.
Proof.
  intros Hpre Hstart. induction Hpre as [|line pre Hl _ IH].
  - cbn [List.app ImplicitCompilerInfo.parse_include_lines].
    rewrite (start_is_not_end _ Hstart). cbv zeta.
    rewrite Hstart. reflexivity.
  - cbn [List.app ImplicitCompilerInfo.parse_include_lines].
    unfold outside_line in Hl. apply andb_true_iff in Hl as [He Hs].
    apply negb_true_iff in He. apply negb_true_iff in Hs.
    rewrite He. cbv zeta. rewrite Hs. cbn [orb List.app]. exact IH.
Qed.

Lemma parse_include_lines_not_started pre :
  Forall (fun line =>
            PyStr.startswith line ImplicitCompilerInfo.start_mark = false)
         pre ->
  forall tail,
    (tail = []
     \/ exists stop post,
         tail = stop :: post
         /\ PyStr.startswith stop ImplicitCompilerInfo.end_mark = true) ->
    ImplicitCompilerInfo.parse_include_lines false (List.app pre tail) = [].
Proof.
  intros Hpre tail Htail. induction Hpre as [|line pre Hl _ IH].
  - destruct Htail as [->|[stop [post [-> Hstop]]]]; [reflexivity|].
    cbn [List.app ImplicitCompilerInfo.parse_include_lines].
    now rewrite Hstop.
  - cbn [List.app ImplicitCompilerInfo.parse_include_lines].
    destruct (PyStr.startswith line ImplicitCompilerInfo.end_mark);
      [reflexivity|].
    cbv zeta. rewrite Hl. cbn [orb List.app]. exact IH.
Qed.

(** X15.  Of the output of the include search, the directories are given
    by the lines that follow the first line that starts the start mark, up
    to the first of them that starts the end mark, or to the end of the
    text: each line gives the directory that [include_of_line] reads from
    it; what comes before the start mark and after the end mark is not
    read.  When a line that starts the end mark comes before any line that
    starts the start mark, or when no line starts the start mark, nothing
    is returned. *)
Theorem parse_compiler_includes_between_marks :
  forall (text : string) (pre : list string),
    (forall start dirs stop post,
        PyStr.splitlines text
        = List.app pre (start :: List.app dirs (stop :: post)) ->
        Forall (fun line => outside_line line = true) pre ->
        PyStr.startswith start ImplicitCompilerInfo.start_mark = true ->
        Forall (fun line =>
                  PyStr.startswith line ImplicitCompilerInfo.end_mark
                  = false) dirs ->
        PyStr.startswith stop ImplicitCompilerInfo.end_mark = true ->
        ImplicitCompilerInfo.__parse_compiler_includes (Some text)
        = map include_of_line dirs)
    /\ (forall start dirs,
           PyStr.splitlines text = List.app pre (start :: dirs) ->
           Forall (fun line => outside_line line = true) pre ->
           PyStr.startswith start ImplicitCompilerInfo.start_mark = true ->
           Forall (fun line =>
                     PyStr.startswith line ImplicitCompilerInfo.end_mark
                     = false) dirs ->
           ImplicitCompilerInfo.__parse_compiler_includes (Some text)
           = map include_of_line dirs)
    /\ (forall stop post,
           PyStr.splitlines text = List.app pre (stop :: post) ->
           Forall (fun line =>
                     PyStr.startswith line ImplicitCompilerInfo.start_mark
                     = false) pre ->
           PyStr.startswith stop ImplicitCompilerInfo.end_mark = true ->
           ImplicitCompilerInfo.__parse_compiler_includes (Some text) = [])
    /\ (PyStr.splitlines text = pre ->
        Forall (fun line =>
                  PyStr.startswith line ImplicitCompilerInfo.start_mark
                  = false) pre ->
        ImplicitCompilerInfo.__parse_compiler_includes (Some text) = []).
Proof.
  intros text pre.
  unfold ImplicitCompilerInfo.__parse_compiler_includes.
  split; [|split; [|split]].
  - intros start dirs stop post Hlines Hpre Hstart Hdirs Hstop.
    destruct (text =? "") eqn:E.
    + apply String.eqb_eq in E. subst text. cbn in Hlines.
      destruct pre; discriminate Hlines.
    + rewrite Hlines, parse_include_lines_outside by assumption.
      rewrite (parse_include_lines_inside Hdirs).
      cbn [ImplicitCompilerInfo.parse_include_lines]. rewrite Hstop.
      apply app_nil_r.
  - intros start dirs Hlines Hpre Hstart Hdirs.
    destruct (text =? "") eqn:E.
    + apply String.eqb_eq in E. subst text. cbn in Hlines.
      destruct pre; discriminate Hlines.
    + rewrite Hlines, parse_include_lines_outside by assumption.
      rewrite <- (app_nil_r dirs) at 1.
      rewrite (parse_include_lines_inside Hdirs).
      cbn [ImplicitCompilerInfo.parse_include_lines]. apply app_nil_r.
  - intros stop post Hlines Hpre Hstop.
    destruct (text =? ""); [reflexivity|].
    rewrite Hlines. apply parse_include_lines_not_started; [assumption|].
    right. now exists stop, post.
  - intros Hlines Hpre.
    destruct (text =? ""); [reflexivity|].
    rewrite Hlines, <- (app_nil_r pre).
    apply parse_include_lines_not_started; [assumption | now left].
Qed.

(** Witness of X15: a directory and a framework directory between the
    marks, a line before and a line after; and an end mark that comes
    first. *)
Lemma parse_compiler_includes_between_marks_witness :
  ImplicitCompilerInfo.__parse_compiler_includes
    (Some ("ignoring nonexistent directory" ++ String PyStr.LF ""
           ++ "#include <...> search starts here:" ++ String PyStr.LF ""
           ++ " /usr/include" ++ String PyStr.LF ""
           ++ " /System/Library/Frameworks (framework directory)"
           ++ String PyStr.LF ""
           ++ "End of search list." ++ String PyStr.LF ""
           ++ " /not/read" ++ String PyStr.LF ""))
  = ["/usr/include"; "/System/Library/Frameworks"]
  /\ ImplicitCompilerInfo.__parse_compiler_includes
       (Some ("End of search list." ++ String PyStr.LF ""
              ++ "#include <...> search starts here:" ++ String PyStr.LF ""
              ++ " /usr/include" ++ String PyStr.LF ""))
     = [].
Proof.
  split.
  - apply (proj1 (@parse_compiler_includes_between_marks
                    _ ["ignoring nonexistent directory"])
                 "#include <...> search starts here:"
                 [" /usr/include";
                  " /System/Library/Frameworks (framework directory)"]
                 "End of search list." [" /not/read"]);
      try reflexivity; repeat constructor.
  - apply (proj1 (proj2 (proj2 (@parse_compiler_includes_between_marks
                                  _ [])))
                 "End of search list."
                 ["#include <...> search starts here:"; " /usr/include"]);
      try reflexivity; repeat constructor.
Defined.

Lemma first_sysroot_app pre flags :
  first_sysroot pre = None ->
  first_sysroot (List.app pre flags) = first_sysroot flags.
Proof.
  induction pre as [|val pre IH]; [reflexivity|].
  cbn [first_sysroot List.app].
  destruct (PyStr.startswith val "--sysroot"); [discriminate|]. exact IH.
Qed.

Lemma sysroot_with_value_is_not_bare value :
  ("--sysroot=" ++ value =? "--sysroot") = false.
Proof. reflexivity. Qed.

Lemma extra_args_separate pre post value :
  first_sysroot pre = None ->
  Re.matches extra_args_pattern value = false ->
  filter_compiler_includes_extra_args
    (List.app pre ("--sysroot" :: value :: post))
  = OK (List.app
          (List.app (filter (Re.matches extra_args_pattern) pre)
                    (filter (Re.matches extra_args_pattern) post))
          ["--sysroot=" ++ value]).
Proof.
  intros Hpre Hvalue. unfold filter_compiler_includes_extra_args.
  rewrite first_sysroot_app by assumption.
  rewrite filter_app. cbn [filter first_sysroot].
  change (PyStr.startswith "--sysroot" "--sysroot") with true.
  change (Re.matches extra_args_pattern "--sysroot") with false.
  cbv iota. change ("--sysroot" =? "--sysroot") with true. cbv iota.
  now rewrite Hvalue.
Qed.

Lemma extra_args_joined pre post value :
  first_sysroot pre = None ->
  filter_compiler_includes_extra_args
    (List.app pre (("--sysroot=" ++ value) :: post))
  = OK (List.app
          (List.app (filter (Re.matches extra_args_pattern) pre)
                    (filter (Re.matches extra_args_pattern) post))
          ["--sysroot=" ++ value]).
Proof.
  intros Hpre. unfold filter_compiler_includes_extra_args.
  rewrite first_sysroot_app by assumption.
  rewrite filter_app. cbn [filter first_sysroot].
  change (PyStr.startswith ("--sysroot=" ++ value) "--sysroot") with true.
  change (Re.matches extra_args_pattern ("--sysroot=" ++ value)) with false.
  cbv iota. rewrite sysroot_with_value_is_not_bare. reflexivity.
Qed.

(** X16.  The two spellings of the system root give the same probe: a
    first [--sysroot] followed by its value as the next flag is passed to
    the compiler as [--sysroot=] with the value, as the joined spelling
    is. *)
Theorem sysroot_spellings_give_one_probe :
  forall (w : World) (compiler language : string)
         (pre post : list string) (value : string),
    first_sysroot pre = None ->
    Re.matches extra_args_pattern value = false ->
    ImplicitCompilerInfo.get_compiler_includes
      w compiler language (List.app pre ("--sysroot" :: value :: post))
    = ImplicitCompilerInfo.get_compiler_includes
        w compiler language
        (List.app pre (("--sysroot=" ++ value) :: post)).
Proof.
  intros w compiler language pre post value Hpre Hvalue.
  unfold ImplicitCompilerInfo.get_compiler_includes.
  rewrite extra_args_separate, extra_args_joined by assumption.
  reflexivity.
Qed.

(** Witness of X16: [-m32 --sysroot /opt/sdk] and [-m32 --sysroot=/opt/sdk]. *)
Lemma sysroot_spellings_give_one_probe_witness :
  filter_compiler_includes_extra_args ["-m32"; "--sysroot"; "/opt/sdk"]
  = OK ["-m32"; "--sysroot=/opt/sdk"]
  /\ ImplicitCompilerInfo.get_compiler_includes
       gcc_include_world "gcc" "c" ["-m32"; "--sysroot"; "/opt/sdk"]
     = ImplicitCompilerInfo.get_compiler_includes
         gcc_include_world "gcc" "c" ["-m32"; "--sysroot=/opt/sdk"].
Proof.
  split; [reflexivity|].
  apply (@sysroot_spellings_give_one_probe gcc_include_world "gcc" "c"
           ["-m32"] [] "/opt/sdk"); reflexivity.
Defined.

(** ** Response files that are missing, and commands that cannot be read *)

Lemma expand_options_missing w source_dir options :
  forallb (no_file_behind w source_dir) options = true ->
  expand_options w source_dir options
  = OK (filter (fun opt => negb (PyStr.startswith opt "@")) options, []).
Proof.
  induction options as [|opt rest IH]; intros H; [reflexivity|].
  cbn [forallb] in H. apply andb_true_iff in H as [Ho Hr].
  cbn [expand_options filter]. rewrite (IH Hr). cbn [bind].
  unfold no_file_behind in Ho.
  destruct (PyStr.startswith opt "@"); cbn [andb negb] in *; [|reflexivity].
  now rewrite Ho.
Qed.

(** X17.  A response file that does not exist is passed over: when no
    option of the command names a response file that exists, the command
    of the entry becomes its options without those that start with [@],
    joined by a space.  The entry stays, with that command, when its file
    has no [@]; it gives no entry at all when its file has one. *)
Theorem missing_response_files_are_dropped :
  forall (w : World) (e : db_entry) (command : string)
         (options : list string),
    e_command e = Some command ->
    PyStr.contains "@" command = true ->
    Shlex.split command = OK options ->
    forallb (no_file_behind w (e_directory e)) options = true ->
    extend_entry w e
    = OK (if PyStr.contains "@" (e_file e) then []
          else [with_command
                  (PyStr.join " "
                     (filter (fun opt => negb (PyStr.startswith opt "@"))
                             options)) e]).
Proof.
  intros w e command options Hc Hat Hsplit Hmissing.
  unfold extend_entry. rewrite Hc, Hat, Hsplit. cbn [bind].
  rewrite (expand_options_missing _ _ _ Hmissing). cbn [bind].
  cbn [with_command e_file].
  destruct (PyStr.contains "@" (e_file e)); reflexivity.
Qed.

(** Witness of X17: [gcc @gone.rsp -c a.c] where nothing exists. *)
Lemma missing_response_files_are_dropped_witness :
  extend_entry empty_world
               (entry_of_command "/proj" "a.c" "gcc @gone.rsp -c a.c")
  = OK [entry_of_command "/proj" "a.c" "gcc -c a.c"]
  /\ extend_entry empty_world
                  (entry_of_command "/proj" "@gone.rsp" "gcc @gone.rsp")
     = OK [].
Proof.
  split.
  - exact (@missing_response_files_are_dropped empty_world
             (entry_of_command "/proj" "a.c" "gcc @gone.rsp -c a.c")
             "gcc @gone.rsp -c a.c" ["gcc"; "@gone.rsp"; "-c"; "a.c"]
             eq_refl eq_refl eq_refl eq_refl).
  - exact (@missing_response_files_are_dropped empty_world
             (entry_of_command "/proj" "@gone.rsp" "gcc @gone.rsp")
             "gcc @gone.rsp" ["gcc"; "@gone.rsp"]
             eq_refl eq_refl eq_refl eq_refl).
Defined.

Lemma lex_word_then_space s :
  forall tok rest,
    plain_chars s = true ->
    negb (tok ++ s =? "") = true ->
    Shlex.lex Shlex.InWord false tok (s ++ String " " rest)
    = (toks <- Shlex.lex Shlex.InSpace false "" rest ;;
       OK ((tok ++ s) :: toks)).
Proof.
  induction s as [|c s IH]; intros tok rest Hs Hne.
  - rewrite string_app_nil_r in *. cbn [String.append Shlex.lex].
    change (Shlex.is_whitespace " ") with true. cbv iota.
    rewrite Hne. reflexivity.
  - cbn [plain_chars] in Hs. apply andb_true_iff in Hs as [Hc Hs].
    unfold plain_char in Hc. apply negb_true_iff in Hc.
    apply orb_false_iff in Hc as [Hc He].
    apply orb_false_iff in Hc as [Hw Hq].
    cbn [String.append Shlex.lex]. rewrite Hw, Hq, He.
    rewrite (IH (Shlex.push tok c) rest Hs).
    + unfold Shlex.push. now rewrite string_app_assoc.
    + unfold Shlex.push. now rewrite string_app_assoc.
Qed.

Lemma lex_plain_start c s tail :
  plain_char c = true ->
  Shlex.lex Shlex.InSpace false "" (String c s ++ tail)
  = Shlex.lex Shlex.InWord false (String c "") (s ++ tail).
Proof.
  intros Hc. unfold plain_char in Hc. apply negb_true_iff in Hc.
  apply orb_false_iff in Hc as [Hc He].
  apply orb_false_iff in Hc as [Hw Hq].
  cbn [String.append Shlex.lex]. now rewrite Hw, He, Hq.
Qed.

Lemma split_join_plain words :
  forallb plain_word words = true ->
  Shlex.split (PyStr.join " " words) = OK words.
Proof.
  unfold Shlex.split, PyStr.join.
  induction words as [|word words IH]; intros H; [reflexivity|].
  cbn [forallb] in H. apply andb_true_iff in H as [Hw Hws].
  unfold plain_word in Hw. apply andb_true_iff in Hw as [Hp Hne].
  destruct word as [|c word]; [discriminate Hne|].
  cbn [plain_chars] in Hp. apply andb_true_iff in Hp as [Hc Hp].
  destruct words as [|next words].
  - cbn [String.concat].
    rewrite <- (string_app_nil_r (String c word)) at 1.
    rewrite (@lex_plain_start c word "" Hc), string_app_nil_r.
    now apply lex_plain_word.
  - change (String.concat " " (String c word :: next :: words))
      with (String c word ++ String " " (String.concat " " (next :: words))).
    rewrite (@lex_plain_start c word _ Hc).
    rewrite lex_word_then_space by (assumption || reflexivity).
    rewrite (IH Hws). reflexivity.
Qed.

(** X18.  The expanded command is joined by single spaces and split
    again when it is parsed.  When the options of the expanded command
    have no white space, quote or backslash and none is empty, the entries
    that the expansion gives are parsed with exactly these options. *)
Theorem expanded_command_is_read_back :
  forall (w : World) (e : db_entry) (command : string)
         (options cmd source_files : list string) (entries : list db_entry),
    e_command e = Some command ->
    e_arguments e = None ->
    PyStr.contains "@" command = true ->
    Shlex.split command = OK options ->
    expand_options w (e_directory e) options = OK (cmd, source_files) ->
    forallb plain_word cmd = true ->
    extend_entry w e = OK entries ->
    Forall (fun e' => entry_command e' = OK (cmd, PyStr.join " " cmd))
           entries.
Proof.
  intros w e command options cmd source_files entries
         Hc Ha Hat Hsplit Hexp Hplain H.
  unfold extend_entry in H. rewrite Hc, Hat, Hsplit in H. cbn [bind] in H.
  rewrite Hexp in H. cbn [bind] in H.
  assert (Hone : forall file,
             entry_command
               (with_file file (with_command (PyStr.join " " cmd) e))
             = OK (cmd, PyStr.join " " cmd)).
  { intros file. unfold entry_command.
    cbn [with_file with_command e_arguments e_command].
    rewrite Ha, (@split_join_plain _ Hplain). reflexivity. }
  destruct (PyStr.contains "@" (e_file (with_command _ e)));
    inversion H; subst.
  - apply Forall_forall. intros e' Hin. apply in_map_iff in Hin.
    destruct Hin as [file [<- _]]. apply Hone.
  - constructor; [|constructor].
    unfold entry_command. cbn [with_command e_arguments e_command].
    rewrite Ha, (@split_join_plain _ Hplain). reflexivity.
Qed.

(** Witness of X18: [gcc @opts.rsp] with [-DFOO main.cpp] in the file. *)
Lemma expanded_command_is_read_back_witness :
  Forall (fun e' =>
            entry_command e'
            = OK (["gcc"; "-DFOO"; "main.cpp"], "gcc -DFOO main.cpp"))
         [entry_of_command "/proj" "main.cpp" "gcc -DFOO main.cpp"].
Proof.
  exact (@expanded_command_is_read_back response_file_world
           (entry_of_command "/proj" "@opts.rsp" "gcc @opts.rsp")
           "gcc @opts.rsp" ["gcc"; "@opts.rsp"]
           ["gcc"; "-DFOO"; "main.cpp"] ["main.cpp"]
           [entry_of_command "/proj" "main.cpp" "gcc -DFOO main.cpp"]
           eq_refl eq_refl eq_refl eq_refl eq_refl eq_refl eq_refl).
Defined.

Lemma lex_raises_ValueError s :
  forall st quoted tok ex,
    Shlex.lex st quoted tok s = Raise ex -> ex = ValueError.
Proof.
  induction s as [|c s IH]; intros st quoted tok ex H.
  - destruct st; cbn [Shlex.lex] in H; try discriminate H;
      now inversion H.
  - destruct st as [| |q|[q|]]; cbn [Shlex.lex] in H.
    + repeat match type of H with
             | (if ?b then _ else _) = _ => destruct b
             end; eapply IH; eassumption.
    + repeat match type of H with
             | (if ?b then _ else _) = _ => destruct b
             | bind ?c _ = _ => destruct c eqn:?; cbn [bind] in H
             end; try discriminate H;
        try (eapply IH; eassumption).
      inversion H; subst. eapply IH; eassumption.
    + repeat match type of H with
             | (if ?b then _ else _) = _ => destruct b
             end; eapply IH; eassumption.
    + eapply IH; eassumption.
    + eapply IH; eassumption.
Qed.

Lemma expand_options_unopened w source_dir before opt after cmd sources :
  expand_options w source_dir before = OK (cmd, sources) ->
  response_file_reference opt = true ->
  path_exists w (PosixPath.join source_dir (PyStr.drop 1 opt)) = true ->
  read_text w (PosixPath.join source_dir (PyStr.drop 1 opt)) = None ->
  expand_options w source_dir (List.app before (opt :: after))
  = Raise OSError.
Proof.
  intros Hb Hr He Hread. revert cmd sources Hb.
  induction before as [|o before IH]; intros cmd sources Hb.
  - cbn [List.app expand_options].
    unfold response_file_reference in Hr. rewrite Hr, He. cbn [negb].
    unfold process_response_file. now rewrite Hread.
  - cbn [List.app expand_options] in *.
    destruct (PyStr.startswith o "@").
    + destruct (negb (path_exists w _)); [now apply IH with cmd sources|].
      destruct (process_response_file w _) as [[opts srcs]|ex];
        cbn [bind] in *; [|discriminate Hb].
      destruct (expand_options w source_dir before) as [[cmd' srcs']|ex];
        cbn [bind] in Hb; [|discriminate Hb].
      now rewrite (IH cmd' srcs' eq_refl).
    + destruct (expand_options w source_dir before) as [[cmd' srcs']|ex];
        cbn [bind] in Hb; [|discriminate Hb].
      now rewrite (IH cmd' srcs' eq_refl).
Qed.

Lemma extend_reaches w pre e post extended ex :
  extend_compilation_database_entries w pre = OK extended ->
  extend_entry w e = Raise ex ->
  extend_compilation_database_entries w (List.app pre (e :: post))
  = Raise ex.
Proof.
  intros Hpre He. rewrite extend_app, Hpre. cbn [bind].
  cbn [extend_compilation_database_entries]. now rewrite He.
Qed.

(** X19.  A command with [@] that cannot be split, for a quote that is
    not closed or a backslash at its end, ends the run before any entry is
    parsed, when the policy is set up and the entries before it are
    extended without error: the error is caught, the compile database is
    logged as not valid, and the exit code is 1.  When the command is split
    and one of its options refers to a response file that exists and
    cannot be opened, the options before it being expanded without error,
    the run ends with the [OSError], which is not caught. *)
Theorem unreadable_command_is_invalid :
  forall (w : World) (compile_uniqueing : string)
         (compiler_info_file : option string)
         (keep_gcc_include_fixed keep_gcc_intrin : bool)
         (analysis_skip_handler pre_analysis_skip_handler
          : option (list SkipListHandler.rule))
         (ctu_or_stats_enabled : bool)
         (pre : list db_entry) (e : db_entry) (post : list db_entry)
         (store : compiler_info_t) (extended : list db_entry)
         (command : string),
    uniqueing_re w compile_uniqueing = OK tt ->
    extend_compilation_database_entries w pre = OK extended ->
    e_command e = Some command ->
    PyStr.contains "@" command = true ->
    (forall ex,
        Shlex.split command = Raise ex ->
        parse_unique_log w compile_uniqueing compiler_info_file
                         keep_gcc_include_fixed keep_gcc_intrin
                         analysis_skip_handler pre_analysis_skip_handler
                         ctu_or_stats_enabled
                         (List.app pre (e :: post)) store
        = SysExit 1 {| log_format := "The compile database is not valid.";
                       log_args := [] |})
    /\ (forall before opt after cmd sources,
           Shlex.split command = OK (List.app before (opt :: after)) ->
           expand_options w (e_directory e) before = OK (cmd, sources) ->
           response_file_reference opt = true ->
           path_exists w (PosixPath.join (e_directory e) (PyStr.drop 1 opt))
           = true ->
           read_text w (PosixPath.join (e_directory e) (PyStr.drop 1 opt))
           = None ->
           parse_unique_log w compile_uniqueing compiler_info_file
                            keep_gcc_include_fixed keep_gcc_intrin
                            analysis_skip_handler pre_analysis_skip_handler
                            ctu_or_stats_enabled
                            (List.app pre (e :: post)) store
           = Unhandled OSError).
Proof.
  intros w cu cif k1 k2 ash pash ctu pre e post store extended command
         Hre Hpre Hc Hat.
  split.
  - intros ex Hsplit.
    assert (He : extend_entry w e = Raise ex).
    { unfold extend_entry. now rewrite Hc, Hat, Hsplit. }
    rewrite (@parse_unique_log_compiled w cu cif k1 k2 ash pash ctu
               (List.app pre (e :: post)) store Hre).
    rewrite (@extend_reaches w pre e post extended ex Hpre He).
    unfold Shlex.split in Hsplit.
    rewrite (@lex_raises_ValueError _ _ _ _ _ Hsplit).
    cbn [caught]. destruct pre; reflexivity.
  - intros before opt after cmd sources Hsplit Hb Hr He Hread.
    assert (Hx : extend_entry w e = Raise OSError).
    { unfold extend_entry. rewrite Hc, Hat, Hsplit. cbn [bind].
      now rewrite (@expand_options_unopened
                     w (e_directory e) before opt after cmd sources
                     Hb Hr He Hread). }
    rewrite (@parse_unique_log_compiled w cu cif k1 k2 ash pash ctu
               (List.app pre (e :: post)) store Hre).
    now rewrite (@extend_reaches w pre e post extended OSError Hpre Hx).
Qed.

(** Witness of X19: a quote that is not closed, in the second entry, and
    a reference to a directory. *)
Lemma unreadable_command_is_invalid_witness :
  parse_unique_log empty_world "none" None false false None None false
    [entry_of_command "/proj" "a.c" "gcc -c a.c";
     entry_of_command "/proj" "b.c" "gcc @b.rsp '-DX"] []
  = SysExit 1 {| log_format := "The compile database is not valid.";
                 log_args := [] |}
  /\ parse_unique_log directory_world "none" None false false None None
       false
       [entry_of_command "/proj" "a.c" "gcc -c a.c";
        entry_of_command "/proj" "b.c" "gcc @inc -c b.c"] []
     = Unhandled OSError.
Proof.
  split.
  - exact (proj1 (@unreadable_command_is_invalid
                    empty_world "none" None false false None None false
                    [entry_of_command "/proj" "a.c" "gcc -c a.c"]
                    (entry_of_command "/proj" "b.c" "gcc @b.rsp '-DX") []
                    [] [entry_of_command "/proj" "a.c" "gcc -c a.c"]
                    "gcc @b.rsp '-DX" eq_refl eq_refl eq_refl eq_refl)
                 ValueError eq_refl).
  - exact (proj2 (@unreadable_command_is_invalid
                    directory_world "none" None false false None None false
                    [entry_of_command "/proj" "a.c" "gcc -c a.c"]
                    (entry_of_command "/proj" "b.c" "gcc @inc -c b.c") []
                    [] [entry_of_command "/proj" "a.c" "gcc -c a.c"]
                    "gcc @inc -c b.c" eq_refl eq_refl eq_refl eq_refl)
                 ["gcc"] "@inc" ["-c"; "b.c"] ["gcc"] []
                 eq_refl eq_refl eq_refl eq_refl eq_refl).
Defined.

(** ** What [parse_unique_log] returns *)

Section AlistForall.
Variable V : Type.

Lemma alist_set_Forall (P : string * V -> Prop) k v l :
  Forall P l -> P (k, v) -> Forall P (alist_set String.eqb k v l).
Proof.
  intros Hl Hkv. induction Hl as [|[k0 v0] l H0 Hl IH];
    cbn [alist_set].
  - now constructor.
  - destruct (String.eqb k k0); constructor; assumption.
Qed.

Lemma alist_set_length k (v : V) l :
  List.length (alist_set String.eqb k v l) <= S (List.length l).
Proof.
  induction l as [|[k0 v0] l IH]; cbn [alist_set List.length]; [lia|].
  destruct (String.eqb k k0); cbn [List.length]; lia.
Qed.
End AlistForall.

Lemma policy_not_none cu :
  cu <> "none" -> build_action_uniqueing cu <> NONE.
Proof.
  intros H. unfold build_action_uniqueing.
  destruct (cu =? "alpha"); [discriminate|].
  destruct (cu =? "none") eqn:E;
    [apply String.eqb_eq in E; contradiction|].
  destruct (cu =? "strict"); discriminate.
Qed.

Lemma unique_action_inv w cu a u u' :
  analyzable a = true ->
  kept_inv cu u ->
  unique_action w cu a u = Uniqued u' ->
  kept_inv cu u' /\ List.length u' <= S (List.length u).
Proof.
  intros Ha [Hall Hkeys] H.
  assert (Hset : forall k,
             (cu <> "none" -> k = source a) ->
             kept_inv cu (alist_set String.eqb k a u)
             /\ List.length (alist_set String.eqb k a u)
                <= S (List.length u)).
  { intros k Hk. split; [|apply alist_set_length].
    split; [now apply alist_set_Forall|].
    intros Hcu. destruct (Hkeys Hcu) as [Hnd Hsrc].
    split; [now apply alist_set_NoDup|].
    apply alist_set_Forall; [assumption|].
    cbn [fst snd]. now rewrite (Hk Hcu). }
  assert (Hsame : kept_inv cu u /\ List.length u <= S (List.length u))
    by (split; [split; assumption | lia]).
  unfold unique_action in H.
  pose proof (@policy_not_none cu) as Hpol.
  destruct (build_action_uniqueing cu).
  - destruct (negb _); inversion H; subst; [|exact Hsame].
    apply Hset. intros Hcu. now destruct (Hpol Hcu).
  - destruct (alist_get String.eqb (source a) u) as [kept|].
    + destruct (String.ltb _ _); inversion H; subst;
        [now apply Hset | exact Hsame].
    + inversion H; subst. now apply Hset.
  - destruct (alist_get String.eqb (source a) u) as [kept|].
    + destruct (_ && negb _); [inversion H; subst; now apply Hset|].
      destruct (_ && _); [discriminate H|].
      inversion H; subst. exact Hsame.
    + inversion H; subst. now apply Hset.
  - destruct (alist_get String.eqb (source a) u) as [kept|];
      [discriminate H|].
    inversion H; subst. now apply Hset.
Qed.

Lemma parse_entries_inv w cu cif k1 k2 ash pash ctu entries :
  forall st st',
    parse_entries w cu cif k1 k2 ash pash ctu entries st = Completed st' ->
    kept_inv cu (uniqued_build_actions st) ->
    kept_inv cu (uniqued_build_actions st')
    /\ skipped_cmp_cmd_count st'
       = skipped_cmp_cmd_count st
         + List.length (filter (entry_skipped ash pash ctu) entries)
    /\ List.length (uniqued_build_actions st')
       + List.length (filter (entry_skipped ash pash ctu) entries)
       <= List.length (uniqued_build_actions st) + List.length entries.
Proof.
  induction entries as [|entry rest IH]; intros st st' H Hinv.
  - inversion H; subst. cbn [filter List.length].
    split; [exact Hinv|]. split; lia.
  - cbn [parse_entries] in H. cbn [filter]. cbn [e_file with_file] in H.
    fold (entry_skipped ash pash ctu entry) in H.
    destruct (entry_skipped ash pash ctu entry).
    + apply IH in H; [|exact Hinv].
      cbn [uniqued_build_actions skipped_cmp_cmd_count] in H.
      destruct H as [H1 [H2 H3]]. cbn [List.length].
      split; [exact H1|]. split; lia.
    + destruct (parse_options _ _ _ _ _ _ _) as [[action store1]|ex];
        [|discriminate H].
      destruct (analyzable action) eqn:Ea.
      * destruct (unique_action w cu action (uniqued_build_actions st))
          as [u|logged] eqn:Eu; [|discriminate H].
        destruct (unique_action_inv _ _ Ea Hinv Eu) as [Hinv' Hlen].
        apply IH in H; [|exact Hinv'].
        cbn [uniqued_build_actions skipped_cmp_cmd_count] in H.
        destruct H as [H1 [H2 H3]]. cbn [List.length].
        split; [exact H1|]. split; lia.
      * apply IH in H; [|exact Hinv].
        cbn [uniqued_build_actions skipped_cmp_cmd_count] in H.
        destruct H as [H1 [H2 H3]]. cbn [List.length].
        split; [exact H1|]. split; lia.
Qed.

Lemma kept_inv_nil cu : kept_inv cu [].
Proof. split; [constructor|]. intros _. split; constructor. Qed.

Lemma parse_unique_log_returned w cu cif k1 k2 ash pash ctu db store
      actions skipped store' :
  parse_unique_log w cu cif k1 k2 ash pash ctu db store
  = Returned actions skipped store' ->
  exists entries st',
    extend_compilation_database_entries w db = OK entries
    /\ parse_entries w cu cif k1 k2 ash pash ctu entries
                     (initial_state store) = Completed st'
    /\ actions = alist_values (uniqued_build_actions st')
    /\ skipped = skipped_cmp_cmd_count st'.
Proof.
  unfold parse_unique_log. fold (initial_state store).
  destruct (uniqueing_re w cu) as [[]|ex];
    [|intros H; destruct (caught ex); discriminate H].
  destruct (extend_compilation_database_entries w db) as [entries|ex].
  - destruct (parse_entries _ _ _ _ _ _ _ _ entries _) as [st'|c l|ex]
      eqn:E; intros H.
    + inversion H; subst. exists entries, st'. repeat split. exact E.
    + discriminate H.
    + destruct (caught ex); discriminate H.
  - intros H. destruct (caught ex); discriminate H.
Qed.

(** X20.  Every action that [parse_unique_log] returns is a compile
    action with a language that is not empty, under every policy. *)
Theorem returned_actions_are_compile_actions :
  forall (w : World) (compile_uniqueing : string)
         (compiler_info_file : option string)
         (keep_gcc_include_fixed keep_gcc_intrin : bool)
         (analysis_skip_handler pre_analysis_skip_handler
          : option (list SkipListHandler.rule))
         (ctu_or_stats_enabled : bool)
         (db : list db_entry) (store store' : compiler_info_t)
         (actions : list BuildAction) (skipped : nat),
    parse_unique_log w compile_uniqueing compiler_info_file
                     keep_gcc_include_fixed keep_gcc_intrin
                     analysis_skip_handler pre_analysis_skip_handler
                     ctu_or_stats_enabled db store
    = Returned actions skipped store' ->
    Forall (fun a =>
              action_type a = Some COMPILE
              /\ exists l, lang a = Some l /\ l <> "")
           actions.
Proof.
  intros w cu cif k1 k2 ash pash ctu db store store' actions skipped H.
  destruct (parse_unique_log_returned _ _ _ _ _ _ _ _ _ _ H)
    as [entries [st' [_ [Hloop [-> _]]]]].
  destruct (parse_entries_inv _ _ _ _ _ _ _ _ _ Hloop
              (kept_inv_nil cu)) as [[Hall _] _].
  unfold alist_values. rewrite Forall_map.
  eapply Forall_impl; [|exact Hall].
  intros [k a]. cbn [snd]. unfold analyzable. intros Ha.
  apply andb_true_iff in Ha as [Hl Hc].
  split.
  - destruct (action_type a) as [[| | |]|]; try discriminate Hc.
    reflexivity.
  - destruct (lang a) as [l|]; [|discriminate Hl].
    exists l. split; [reflexivity|].
    apply negb_true_iff in Hl. now apply String.eqb_neq.
Qed.

(** Witness of X20: a compile command, a link command and a preprocessor
    command; the action of the first is returned. *)
Lemma returned_actions_are_compile_actions_witness :
  exists actions skipped store',
    parse_unique_log empty_world "none" None true true None None false
      [entry_of_command "/proj" "a.c" "gcc -c a.c";
       entry_of_command "/proj" "a.o" "gcc a.o -o a";
       entry_of_command "/proj" "b.c" "gcc -E b.c"] []
    = Returned actions skipped store'
    /\ map source actions = ["/proj/a.c"]
    /\ Forall (fun a =>
                 action_type a = Some COMPILE
                 /\ exists l, lang a = Some l /\ l <> "") actions.
Proof.
  eexists; eexists; eexists.
  assert (H : parse_unique_log empty_world "none" None true true None None
                false
                [entry_of_command "/proj" "a.c" "gcc -c a.c";
                 entry_of_command "/proj" "a.o" "gcc a.o -o a";
                 entry_of_command "/proj" "b.c" "gcc -E b.c"] []
              = Returned _ _ _) by (vm_compute; reflexivity).
  split; [exact H|]. split; [reflexivity|].
  exact (@returned_actions_are_compile_actions
           _ _ _ _ _ _ _ _ _ _ _ _ _ H).
Defined.

(** X21.  Under the policies that key the actions by their source, the
    alphabetical, the strict and the pattern one, no two of the returned
    actions have the same source. *)
Theorem returned_sources_are_distinct :
  forall (w : World) (compile_uniqueing : string)
         (compiler_info_file : option string)
         (keep_gcc_include_fixed keep_gcc_intrin : bool)
         (analysis_skip_handler pre_analysis_skip_handler
          : option (list SkipListHandler.rule))
         (ctu_or_stats_enabled : bool)
         (db : list db_entry) (store store' : compiler_info_t)
         (actions : list BuildAction) (skipped : nat),
    compile_uniqueing <> "none" ->
    parse_unique_log w compile_uniqueing compiler_info_file
                     keep_gcc_include_fixed keep_gcc_intrin
                     analysis_skip_handler pre_analysis_skip_handler
                     ctu_or_stats_enabled db store
    = Returned actions skipped store' ->
    NoDup (map source actions).
Proof.
  intros w cu cif k1 k2 ash pash ctu db store store' actions skipped Hcu H.
  destruct (parse_unique_log_returned _ _ _ _ _ _ _ _ _ _ H)
    as [entries [st' [_ [Hloop [-> _]]]]].
  destruct (parse_entries_inv _ _ _ _ _ _ _ _ _ Hloop
              (kept_inv_nil cu)) as [[_ Hkeys] _].
  destruct (Hkeys Hcu) as [Hnd Hsrc].
  unfold alist_values. rewrite map_map.
  rewrite (map_ext_in (fun x => source (snd x)) fst); [exact Hnd|].
  intros ka Hin. rewrite Forall_forall in Hsrc. now apply Hsrc.
Qed.

(** Witness of X21: two commands for [a.c] and one for [b.c] under the
    pattern [clang]; the first action of [a.c] and the action of [b.c]
    are returned. *)
Lemma returned_sources_are_distinct_witness :
  exists actions skipped store',
    parse_unique_log empty_world "clang" None true true None None false
      [entry_of_command "/proj" "a.c" "gcc -c a.c -o a.o";
       entry_of_command "/proj" "a.c" "gcc -c a.c -o a2.o";
       entry_of_command "/proj" "b.c" "gcc -c b.c"] []
    = Returned actions skipped store'
    /\ map source actions = ["/proj/a.c"; "/proj/b.c"]
    /\ NoDup (map source actions).
Proof.
  eexists; eexists; eexists.
  assert (H : parse_unique_log empty_world "clang" None true true None None
                false
                [entry_of_command "/proj" "a.c" "gcc -c a.c -o a.o";
                 entry_of_command "/proj" "a.c" "gcc -c a.c -o a2.o";
                 entry_of_command "/proj" "b.c" "gcc -c b.c"] []
              = Returned _ _ _) by (vm_compute; reflexivity).
  split; [exact H|]. split; [reflexivity|].
  refine (@returned_sources_are_distinct
            _ _ _ _ _ _ _ _ _ _ _ _ _ _ H).
  discriminate.
Defined.

(** X22.  The number that [parse_unique_log] returns with the actions is
    the number of entries of the expanded database that the skip lists
    skip at both phases; each of the other entries gives one action at
    most.  Nothing is counted without a skip list for the analysis, and
    nothing when CTU or statistics are enabled and there is no skip list
    for the pre-analysis. *)
Theorem skipped_count_is_number_of_skipped_entries :
  forall (w : World) (compile_uniqueing : string)
         (compiler_info_file : option string)
         (keep_gcc_include_fixed keep_gcc_intrin : bool)
         (analysis_skip_handler pre_analysis_skip_handler
          : option (list SkipListHandler.rule))
         (ctu_or_stats_enabled : bool)
         (db entries : list db_entry) (store store' : compiler_info_t)
         (actions : list BuildAction) (skipped : nat),
    parse_unique_log w compile_uniqueing compiler_info_file
                     keep_gcc_include_fixed keep_gcc_intrin
                     analysis_skip_handler pre_analysis_skip_handler
                     ctu_or_stats_enabled db store
    = Returned actions skipped store' ->
    extend_compilation_database_entries w db = OK entries ->
    skipped
    = List.length
        (filter (entry_skipped analysis_skip_handler
                               pre_analysis_skip_handler
                               ctu_or_stats_enabled) entries)
    /\ List.length actions + skipped <= List.length entries
    /\ (analysis_skip_handler = None
        \/ (ctu_or_stats_enabled = true /\ pre_analysis_skip_handler = None)
        -> skipped = 0).
Proof.
  intros w cu cif k1 k2 ash pash ctu db entries store store' actions skipped
         H Hext.
  destruct (parse_unique_log_returned _ _ _ _ _ _ _ _ _ _ H)
    as [entries' [st' [Hext' [Hloop [-> ->]]]]].
  rewrite Hext in Hext'. inversion Hext'; subst entries'.
  destruct (parse_entries_inv _ _ _ _ _ _ _ _ _ Hloop
              (kept_inv_nil cu)) as [_ [Hcount Hlen]].
  cbn [initial_state skipped_cmp_cmd_count uniqued_build_actions
                     List.length] in *.
  unfold alist_values. rewrite length_map.
  split; [lia|]. split; [lia|].
  intros Hnone. rewrite Hcount. cbn [Nat.add].
  assert (Hf : forall e, entry_skipped ash pash ctu e = false).
  { intros e. unfold entry_skipped, skipped_at_both_phases.
    destruct Hnone as [->|[-> ->]]; [reflexivity|].
    destruct ash; [|reflexivity].
    cbn [negb orb]. apply andb_false_r. }
  clear -Hf. induction entries as [|e entries IH]; [reflexivity|].
  cbn [filter]. now rewrite Hf.
Qed.

(** Witness of X22: one entry under [/vendor], which the skip list skips,
    and one that is parsed. *)
Lemma skipped_count_is_number_of_skipped_entries_witness :
  exists actions store',
    parse_unique_log empty_world "none" None true true
      (Some vendor_skip_list) None false
      [entry_of_command "/vendor" "v.c" "gcc -c v.c";
       entry_of_command "/proj" "a.c" "gcc -c a.c"] []
    = Returned actions 1 store'
    /\ List.length actions + 1 <= 2.
Proof.
  eexists; eexists.
  assert (H : parse_unique_log empty_world "none" None true true
                (Some vendor_skip_list) None false
                [entry_of_command "/vendor" "v.c" "gcc -c v.c";
                 entry_of_command "/proj" "a.c" "gcc -c a.c"] []
              = Returned _ 1 _) by (vm_compute; reflexivity).
  split; [exact H|].
  exact (proj1 (proj2 (@skipped_count_is_number_of_skipped_entries
                         _ _ _ _ _ _ _ _ _ _ _ _ _ _ H eq_refl))).
Defined.

(** ** The strict policy *)

Lemma keyed_by_source_none k actions :
  ~ In k (map source actions) ->
  alist_get String.eqb k (keyed_by_source actions) = None.
Proof.
  induction actions as [|a actions IH]; intros H; [reflexivity|].
  cbn [keyed_by_source map alist_get] in *.
  destruct (String.eqb k (source a)) eqn:E.
  - apply String.eqb_eq in E. exfalso. apply H. now left.
  - apply IH. intros Hin. apply H. now right.
Qed.

Lemma keyed_by_source_some a actions :
  NoDup (map source actions) ->
  In a actions ->
  alist_get String.eqb (source a) (keyed_by_source actions) = Some a.
Proof.
  induction actions as [|b actions IH]; intros Hnd Hin; [contradiction|].
  cbn [keyed_by_source map alist_get] in *.
  inversion Hnd as [|? ? Hnotin Hnd']; subst.
  destruct Hin as [->|Hin]; [now rewrite String.eqb_refl|].
  destruct (String.eqb (source a) (source b)) eqn:E.
  - apply String.eqb_eq in E. exfalso. apply Hnotin. rewrite <- E.
    now apply in_map.
  - now apply IH.
Qed.

Lemma alist_set_absent (V : Type) k (v : V) l :
  alist_get String.eqb k l = None ->
  alist_set String.eqb k v l = List.app l [(k, v)].
Proof.
  induction l as [|[k0 v0] l IH]; intros H; [reflexivity|].
  cbn [alist_get alist_set List.app] in *.
  destruct (String.eqb k k0); [discriminate H|]. now rewrite IH.
Qed.

Lemma strict_loop w actions :
  forall seen,
    NoDup (map source (List.app seen actions)) ->
    unique_actions w "strict" actions (keyed_by_source seen)
    = Uniqued (keyed_by_source (List.app seen actions)).
Proof.
  induction actions as [|a actions IH]; intros seen Hnd.
  - now rewrite app_nil_r.
  - cbn [unique_actions]. unfold unique_action.
    change (build_action_uniqueing "strict") with STRICT. cbv iota.
    assert (Hout : ~ In (source a) (map source seen)).
    { rewrite map_app in Hnd. cbn [map] in Hnd.
      apply NoDup_remove_2 in Hnd. intros Hin. apply Hnd.
      apply in_or_app. now left. }
    rewrite (@keyed_by_source_none _ _ Hout).
    rewrite alist_set_absent by now apply keyed_by_source_none.
    change (List.app (keyed_by_source seen) [(source a, a)])
      with (List.app (keyed_by_source seen) (keyed_by_source [a])).
    unfold keyed_by_source at 1 2. rewrite <- map_app.
    fold (keyed_by_source (List.app seen [a])).
    rewrite (IH (List.app seen [a])); rewrite <- app_assoc; [reflexivity|].
    exact Hnd.
Qed.

Lemma unique_actions_app w cu l1 :
  forall l2 u,
    unique_actions w cu (List.app l1 l2) u
    = match unique_actions w cu l1 u with
      | Uniqued u' => unique_actions w cu l2 u'
      | Failed logged => Failed logged
      end.
Proof.
  induction l1 as [|a l1 IH]; intros l2 u; [reflexivity|].
  cbn [List.app unique_actions].
  destruct (unique_action w cu a u); [apply IH | reflexivity].
Qed.

(** X23.  Under the strict policy, actions with distinct sources are all
    kept, in their order, and the run returns them; an action whose
    source is the source of an earlier action ends the loop with the
    commands of the two logged, and the run with exit code 1. *)
Theorem strict_policy_keeps_all_or_fails :
  forall (w : World) (actions : list BuildAction),
    (NoDup (map source actions) ->
     unique_actions w "strict" actions [] = Uniqued (keyed_by_source actions)
     /\ alist_values (keyed_by_source actions) = actions)
    /\ (forall first a b rest,
           actions = List.app first (b :: rest) ->
           NoDup (map source first) ->
           In a first ->
           source b = source a ->
           unique_actions w "strict" actions []
           = Failed (strict_failure a b))
    /\ (forall compiler_info_file keep_gcc_include_fixed keep_gcc_intrin
               analysis_skip_handler pre_analysis_skip_handler
               ctu_or_stats_enabled compilation_database entries store
               skipped store',
           extend_compilation_database_entries w compilation_database
           = OK entries ->
           assembled w compiler_info_file keep_gcc_include_fixed
                     keep_gcc_intrin analysis_skip_handler
                     pre_analysis_skip_handler ctu_or_stats_enabled
                     entries store
           = OK (actions, skipped, store') ->
           parse_unique_log w "strict" compiler_info_file
                            keep_gcc_include_fixed keep_gcc_intrin
                            analysis_skip_handler pre_analysis_skip_handler
                            ctu_or_stats_enabled compilation_database store
           = match unique_actions w "strict" actions [] with
             | Uniqued u => Returned (alist_values u) skipped store'
             | Failed logged => SysExit 1 logged
             end).
Proof.
  intros w actions. split; [|split].
  - intros Hnd. split.
    + exact (@strict_loop w actions [] Hnd).
    + unfold alist_values, keyed_by_source. rewrite map_map. cbn [snd].
      apply map_id.
  - intros first a b rest -> Hnd Hin Hsrc.
    rewrite unique_actions_app.
    assert (Hs : unique_actions w "strict" first []
                 = Uniqued (keyed_by_source first))
      by exact (@strict_loop w first [] Hnd).
    rewrite Hs.
    cbn [List.app unique_actions]. unfold unique_action.
    change (build_action_uniqueing "strict") with STRICT. cbv iota.
    rewrite Hsrc, (@keyed_by_source_some a first Hnd Hin). reflexivity.
  - intros cif k1 k2 ash pash ctu db entries store skipped store'
           Hext Hasm.
    unfold parse_unique_log. rewrite Hext.
    rewrite (@parse_entries_assembled
               w "strict" cif k1 k2 ash pash ctu entries
               {| uniqued_build_actions := [];
                  skipped_cmp_cmd_count := 0;
                  compiler_info := store |} actions skipped store' Hasm).
    cbn [uniqued_build_actions skipped_cmp_cmd_count].
    destruct (unique_actions w "strict" actions []); reflexivity.
Qed.

(** Witness of X23: two commands for [a.c]; the run ends with the two
    commands logged. *)
Lemma strict_policy_keeps_all_or_fails_witness :
  parse_unique_log empty_world "strict" None true true None None false
    [entry_of_command "/proj" "a.c" "gcc -c a.c -o a.o";
     entry_of_command "/proj" "a.c" "gcc -c a.c -o b.o"] []
  = SysExit 1
      {| log_format := "Build Action uniqueing failed as both '%s' and '%s'";
         log_args := ["gcc -c a.c -o a.o"; "gcc -c a.c -o b.o"] |}.
Proof.
  destruct (assembled empty_world None true true None None false
              [entry_of_command "/proj" "a.c" "gcc -c a.c -o a.o";
               entry_of_command "/proj" "a.c" "gcc -c a.c -o b.o"] [])
    as [[[actions skipped] store']|ex] eqn:Hasm;
    [|vm_compute in Hasm; discriminate Hasm].
  destruct (strict_policy_keeps_all_or_fails empty_world actions)
    as [_ [_ Hrun]].
  rewrite (Hrun None true true None None false
             [entry_of_command "/proj" "a.c" "gcc -c a.c -o a.o";
              entry_of_command "/proj" "a.c" "gcc -c a.c -o b.o"]
             _ [] skipped store' eq_refl Hasm).
  vm_compute in Hasm. inversion Hasm; subst. reflexivity.
Defined.

(** ** Ignored flags with parameters *)

(** X24.  In the chain of the other compilers, a flag of
    [IGNORED_PARAM_OPTIONS] is dropped together with the items that
    follow it, as many as the table says, whatever these items are: they
    are not read as flags, and the processing goes on after them. *)
Theorem ignored_flag_takes_its_parameters :
  forall (f : string) (n : nat) (params rest : list string) (d : details),
    In (f, n) ignored_param_flags ->
    List.length params = n ->
    process_flags gcc_flag_transformers (f :: List.app params rest) d
    = process_flags gcc_flag_transformers rest d.
Proof.
  intros f n params rest d Hin Hlen.
  rewrite (@process_flags_cons gcc_flag_transformers f _ d
             (flag_processors_advance false)).
  assert (Hrun : run_processors gcc_flag_transformers
                   {| _item := f; _it := List.app params rest |} d
                 = OK ({| _item := last params f; _it := rest |}, d)).
  { cbn [ignored_param_flags In] in Hin.
    repeat (destruct Hin as [Hin|Hin];
            [injection Hin as <- <-;
             repeat (destruct params as [|? params];
                     [discriminate Hlen|]);
             destruct params; [|discriminate Hlen];
             vm_compute; reflexivity|]).
    contradiction. }
  rewrite Hrun. reflexivity.
Qed.

(** Witness of X24: [-sectorder] with its three parameters, the second
    of which looks like a flag. *)
Lemma ignored_flag_takes_its_parameters_witness :
  process_flags gcc_flag_transformers
                ["-sectorder"; "__TEXT"; "-DX"; "order.txt"; "-DA"]
                empty_details
  = process_flags gcc_flag_transformers ["-DA"] empty_details.
Proof.
  apply (@ignored_flag_takes_its_parameters "-sectorder" 3
           ["__TEXT"; "-DX"; "order.txt"] ["-DA"] empty_details).
  - cbn [ignored_param_flags In]. do 9 right. left. reflexivity.
  - reflexivity.
Defined.

(** ** The compiler information read by a later run *)

(** X25.  A run that probes a compiler, starting with an empty cache,
    and a run that reads the compiler-info file holding the cache of the
    first give the action the same implicit data and end with the same
    cache, when the include directories that the compiler lists have no
    white space, quote or backslash. *)
Theorem compiler_info_file_gives_probed_data :
  forall (w : World) (d d1 : details) (store1 : compiler_info_t)
         (filename : string),
    ImplicitCompilerInfo.set w d None [] = OK (d1, store1) ->
    (forall language includes,
        ImplicitCompilerInfo.get_compiler_includes
          w (compiler d) language (analyzer_options d) = OK includes ->
        forallb loadable includes = true) ->
    filename <> "" ->
    ImplicitCompilerInfo.set (compiler_info_file_world store1) d
                             (Some filename) []
    = OK (d1, store1).
Proof.
  intros w d d1 store1 filename H Hload Hname.
  unfold ImplicitCompilerInfo.set in *.
  cbn [ImplicitCompilerInfo.info_file_exists] in *.
  cbn [ImplicitCompilerInfo.known alist_get] in H.
  apply String.eqb_neq in Hname. rewrite Hname.
  cbn [negb andb path_exists compiler_info_file_world].
  destruct (ImplicitCompilerInfo.probe w (compiler d) (analyzer_options d) [])
    as [probed|ex] eqn:Ep; cbn [bind] in H; [|discriminate H].
  inversion H; subst store1.
  rewrite (@compiler_info_round_trip_loadable
             w (compiler d) (analyzer_options d) probed Ep Hload filename).
  cbn [bind]. reflexivity.
Qed.

(** Witness of X25: [gcc] with the directories of [listing_world]. *)
Lemma compiler_info_file_gives_probed_data_witness :
  exists d1 store1,
    ImplicitCompilerInfo.set listing_world
      (with_compiler "gcc" empty_details) None []
    = OK (d1, store1)
    /\ compiler_includes d1
       = [("c", Some ["/usr/lib/gcc/include"; "/usr/include"]);
          ("c++", Some ["/usr/lib/gcc/include"; "/usr/include"])]
    /\ ImplicitCompilerInfo.set (compiler_info_file_world store1)
         (with_compiler "gcc" empty_details) (Some "compiler_info.json") []
       = OK (d1, store1).
Proof.
  eexists; eexists.
  assert (H : ImplicitCompilerInfo.set listing_world
                (with_compiler "gcc" empty_details) None []
              = OK _) by (vm_compute; reflexivity).
  split; [exact H|]. split; [reflexivity|].
  apply (@compiler_info_file_gives_probed_data listing_world _ _ _
           "compiler_info.json" H); [|discriminate].
  intros language includes Hinc.
  unfold ImplicitCompilerInfo.get_compiler_includes in Hinc.
  cbn [analyzer_options with_compiler empty_details
         filter_compiler_includes_extra_args filter first_sysroot bind
         compiler_err listing_world] in Hinc.
  inversion Hinc; subst. vm_compute. reflexivity.
Defined.

(** ** The options that the chain of the other compilers keeps *)

Ltac keeps_case :=
  match goal with
  | H : OK _ = OK _ |- _ => inversion H; subst; clear H; reflexivity
  end.

Lemma skip_sources_keeps_options : keeps_options __skip_sources.
Proof.
  intros [item l] d taken it' d'. unfold __skip_sources; cbn [_item _it].
  destruct item; intros H; [discriminate H|]. keeps_case.
Qed.

Lemma determine_action_type_keeps_options :
  keeps_options __determine_action_type.
Proof.
  intros [item l] d taken it' d'.
  unfold __determine_action_type; cbn [_item _it].
  repeat match goal with
         | |- (if ?c then _ else _) = _ -> _ => destruct c
         end; intros H; inversion H; subst; clear H;
    try reflexivity;
    destruct (negb (is_compile (action_type d))); reflexivity.
Qed.

Lemma get_arch_keeps_options : keeps_options __get_arch.
Proof.
  intros [item l] d taken it' d'. unfold __get_arch; cbn [_item _it].
  destruct (item =? "-arch"); [|intros H; keeps_case].
  destruct l as [|x l']; cbn [next _item _it bind]; [discriminate|].
  intros H; keeps_case.
Qed.

Lemma get_language_keeps_options : keeps_options __get_language.
Proof.
  intros [item l] d taken it' d'. unfold __get_language; cbn [_item _it].
  destruct (PyStr.startswith item "-x"); [|intros H; keeps_case].
  destruct (item =? "-x").
  - destruct l as [|x l']; cbn [next _item _it bind]; [discriminate|].
    intros H; keeps_case.
  - intros H; keeps_case.
Qed.

Lemma get_output_keeps_options : keeps_options __get_output.
Proof.
  intros [item l] d taken it' d'. unfold __get_output; cbn [_item _it].
  destruct (item =? "-o"); [|intros H; keeps_case].
  destruct l as [|x l']; cbn [next _item _it bind]; [discriminate|].
  intros H; keeps_case.
Qed.

Lemma skip_param_options_keeps_options table :
  keeps_options (skip_param_options table).
Proof.
  induction table as [|[pattern arg_num] table IH];
    intros [item l] d taken it' d'; cbn [skip_param_options _item].
  - intros H; keeps_case.
  - destruct (Re.matches pattern item).
    + destruct (skip_params arg_num {| _item := item; _it := l |});
        cbn [bind]; [|discriminate].
      intros H; keeps_case.
    + apply IH.
Qed.

Lemma skip_gcc_keeps_options : keeps_options __skip_gcc.
Proof.
  intros [item l] d taken it' d'. unfold __skip_gcc; cbn [_item].
  destruct (Re.matches IGNORED_OPTIONS_GCC item).
  - intros H; keeps_case.
  - apply skip_param_options_keeps_options.
Qed.

Lemma gcc_step_keeps_options item l d it' d' :
  collected_by_gcc_chain item = false ->
  run_processors gcc_flag_transformers {| _item := item; _it := l |} d
  = OK (it', d') ->
  analyzer_options d' = analyzer_options d.
Proof.
  intros Hc H. unfold collected_by_gcc_chain in Hc.
  apply orb_false_iff in Hc as [Hc Hmerged].
  apply orb_false_iff in Hc as [Hreplace Hcompile].
  cbn [gcc_flag_transformers run_processors] in H.
  (* __skip_gcc *)
  destruct (__skip_gcc {| _item := item; _it := l |} d)
    as [[[taken it1] d1]|e] eqn:E1; cbn [bind] in H; [|discriminate H].
  pose proof (skip_gcc_keeps_options _ _ E1) as K1.
  destruct (skip_gcc_behaved _ _ E1) as [N1 _].
  destruct taken; [inversion H; subst; exact K1|].
  destruct (N1 eq_refl) as [-> ->]. clear E1 K1 N1.
  (* __replace, __collect_compile_opts, __collect_transform_include_opts *)
  unfold __replace, __collect_compile_opts,
    __collect_transform_include_opts in H.
  cbn [_item] in H.
  destruct (alist_get String.eqb item REPLACE_OPTIONS_MAP) as [[|x v]|];
    try discriminate Hreplace; cbn [bind _item _it] in H;
    rewrite Hcompile in H; cbn [bind _item _it] in H;
    (destruct (Re.match_ COMPILE_OPTIONS_MERGED item);
     [discriminate Hmerged|]); cbn [bind _item _it] in H.
  all: destruct (__determine_action_type {| _item := item; _it := l |} d)
    as [[[taken it1] d1]|e] eqn:E1; cbn [bind] in H; [|discriminate H];
    pose proof (determine_action_type_keeps_options _ _ E1) as K1;
    destruct (determine_action_type_behaved _ _ E1) as [N1 _];
    (destruct taken; [inversion H; subst; exact K1|]);
    destruct (N1 eq_refl) as [-> ->]; clear E1 K1 N1.
  all: destruct (__skip_sources {| _item := item; _it := l |} d)
    as [[[taken it1] d1]|e] eqn:E1; cbn [bind] in H; [|discriminate H];
    pose proof (skip_sources_keeps_options _ _ E1) as K1;
    destruct (skip_sources_behaved _ _ E1) as [N1 _];
    (destruct taken; [inversion H; subst; exact K1|]);
    destruct (N1 eq_refl) as [-> ->]; clear E1 K1 N1.
  all: destruct (__get_arch {| _item := item; _it := l |} d)
    as [[[taken it1] d1]|e] eqn:E1; cbn [bind] in H; [|discriminate H];
    pose proof (get_arch_keeps_options _ _ E1) as K1;
    destruct (get_arch_behaved _ _ E1) as [N1 _];
    (destruct taken; [inversion H; subst; exact K1|]);
    destruct (N1 eq_refl) as [-> ->]; clear E1 K1 N1.
  all: destruct (__get_language {| _item := item; _it := l |} d)
    as [[[taken it1] d1]|e] eqn:E1; cbn [bind] in H; [|discriminate H];
    pose proof (get_language_keeps_options _ _ E1) as K1;
    destruct (get_language_behaved _ _ E1) as [N1 _];
    (destruct taken; [inversion H; subst; exact K1|]);
    destruct (N1 eq_refl) as [-> ->]; clear E1 K1 N1.
  all: destruct (__get_output {| _item := item; _it := l |} d)
    as [[[taken it1] d1]|e] eqn:E1; cbn [bind] in H; [|discriminate H];
    pose proof (get_output_keeps_options _ _ E1) as K1;
    destruct (get_output_behaved _ _ E1) as [N1 _];
    (destruct taken; [inversion H; subst; exact K1|]);
    destruct (N1 eq_refl) as [-> ->]; clear E1 K1 N1.
  all: now inversion H.
Qed.

Lemma gcc_loop_keeps_options fuel :
  forall args d d',
    Forall (fun item => collected_by_gcc_chain item = false) args ->
    process_flags_fuel fuel gcc_flag_transformers args d = OK d' ->
    analyzer_options d' = analyzer_options d.
Proof.
  induction fuel as [|fuel IH]; intros args d d' Hall H.
  - destruct args; now inversion H.
  - destruct args as [|x rest]; [now inversion H|].
    cbn [process_flags_fuel] in H.
    destruct (run_processors gcc_flag_transformers
                             {| _item := x; _it := rest |} d)
      as [[it1 d1]|e] eqn:E; cbn [bind] in H; [|discriminate H].
    pose proof (Forall_inv Hall) as Hx.
    pose proof (Forall_inv_tail Hall) as Hrest.
    assert (Hnext : Forall (fun item => collected_by_gcc_chain item = false)
                           (_it it1)).
    { destruct (@run_processors_advances
                  _ gcc_flag_transformers_advance _ _ _ _ _ E)
        as [consumed [Hl _]].
      rewrite Hl in Hrest. now apply Forall_app in Hrest. }
    rewrite (IH _ _ _ Hnext H). cbv beta in Hx.
    exact (@gcc_step_keeps_options x rest d it1 d1 Hx E).
Qed.

(** X26.  The chain of the other compilers makes options from three
    kinds of items only: the keys of [REPLACE_OPTIONS_MAP], and the items
    that [COMPILE_OPTIONS] or [COMPILE_OPTIONS_MERGED] match.  A command
    whose items are of none of these kinds adds no option: warnings such
    as [-Wall], libraries and the like are dropped. *)
Theorem gcc_chain_adds_known_options_only :
  forall (args : list string) (d d' : details),
    Forall (fun item => collected_by_gcc_chain item = false) args ->
    process_flags gcc_flag_transformers args d = OK d' ->
    analyzer_options d' = analyzer_options d.
Proof.
  intros args d d' Hall H. eapply gcc_loop_keeps_options; eassumption.
Qed.

(** Witness of X26: [-Wall -pthread -o a.o -c a.c -lfoo -L/lib]. *)
Lemma gcc_chain_adds_known_options_only_witness :
  exists d',
    process_flags gcc_flag_transformers
                  ["-Wall"; "-pthread"; "-o"; "a.o"; "-c"; "a.c"; "-lfoo";
                   "-L/lib"]
                  (with_analyzer_options ["-DA"] empty_details)
    = OK d'
    /\ analyzer_options d' = ["-DA"].
Proof.
  eexists.
  assert (H : process_flags gcc_flag_transformers
                ["-Wall"; "-pthread"; "-o"; "a.o"; "-c"; "a.c"; "-lfoo";
                 "-L/lib"]
                (with_analyzer_options ["-DA"] empty_details)
              = OK _) by (vm_compute; reflexivity).
  split; [exact H|].
  apply (@gcc_chain_adds_known_options_only _ _ _) in H; [exact H|].
  repeat constructor.
Defined.

(** ** The version of Clang *)

Lemma digits_of_digit_string m :
  forall r,
    forallb ClangVersionInfoParser.is_digit (list_ascii_of_string m)
    = true ->
    no_digit_first r = true ->
    ClangVersionInfoParser.digits (m ++ r) = (m, r).
Proof.
  induction m as [|c m IH]; intros r Hm Hr.
  - cbn [String.append]. destruct r as [|c r]; [reflexivity|].
    cbn [ClangVersionInfoParser.digits no_digit_first] in *.
    apply negb_true_iff in Hr. now rewrite Hr.
  - cbn [list_ascii_of_string forallb] in Hm.
    apply andb_true_iff in Hm as [Hc Hm].
    cbn [String.append ClangVersionInfoParser.digits]. rewrite Hc.
    now rewrite (IH r Hm Hr).
Qed.

Lemma number_of_digit_string m r :
  digit_string m = true ->
  no_digit_first r = true ->
  ClangVersionInfoParser.number (m ++ r) = Some (m, r).
Proof.
  unfold digit_string. intros Hm Hr.
  apply andb_true_iff in Hm as [Hne Hm].
  apply andb_true_iff in Hne as [Hne _]. apply negb_true_iff in Hne.
  unfold ClangVersionInfoParser.number.
  now rewrite (@digits_of_digit_string m r Hm Hr), Hne.
Qed.

Lemma not_space_of_directory dir :
  forall post,
    directory_then_space dir post = true ->
    ClangVersionInfoParser.not_space (dir ++ post) = dir.
Proof.
  unfold directory_then_space.
  induction dir as [|c dir IH]; intros post H.
  - cbn [String.append]. destruct post as [|c post]; [reflexivity|].
    cbn [list_ascii_of_string forallb andb] in H.
    cbn [ClangVersionInfoParser.not_space]. now rewrite H.
  - cbn [list_ascii_of_string forallb] in H.
    apply andb_true_iff in H as [H Hpost].
    apply andb_true_iff in H as [Hc Hdir].
    apply negb_true_iff in Hc.
    cbn [String.append ClangVersionInfoParser.not_space]. rewrite Hc.
    rewrite IH; [reflexivity|]. now rewrite Hdir, Hpost.
Qed.

Lemma not_space_has_no_space s :
  forallb (fun c => negb (PyStr.isspace c))
          (list_ascii_of_string (ClangVersionInfoParser.not_space s)) = true.
Proof.
  induction s as [|c s IH]; [reflexivity|].
  cbn [ClangVersionInfoParser.not_space].
  destruct (PyStr.isspace c) eqn:E; [reflexivity|].
  cbn [list_ascii_of_string forallb]. now rewrite E, IH.
Qed.

Lemma find_go_contains sub s :
  forall i j,
    PyStr.find_go sub i s = Some j -> PyStr.contains sub s = true.
Proof.
  induction s as [|c s IH]; intros i j H; cbn [PyStr.find_go] in H;
    cbn [PyStr.contains].
  - destruct (PyStr.startswith "" sub); [reflexivity | discriminate H].
  - destruct (PyStr.startswith (String c s) sub); [reflexivity|].
    cbn [orb]. eapply IH; eassumption.
Qed.

Lemma vendor_here_cases s the_vendor r :
  ClangVersionInfoParser.vendor_here s = Some (the_vendor, r) ->
  the_vendor = "clang" \/ the_vendor = "Apple LLVM".
Proof.
  unfold ClangVersionInfoParser.vendor_here.
  destruct (ClangVersionInfoParser.literal "clang" s);
    [intros H; inversion H; now left|].
  destruct (ClangVersionInfoParser.literal "Apple LLVM" s);
    [|discriminate].
  intros H; inversion H; now right.
Qed.

Lemma search_version_vendor s the_vendor major minor patch :
  ClangVersionInfoParser.search_version s
  = Some (the_vendor, major, minor, patch) ->
  the_vendor = "clang" \/ the_vendor = "Apple LLVM".
Proof.
  induction s as [|c s IH]; cbn [ClangVersionInfoParser.search_version];
    unfold ClangVersionInfoParser.version_here.
  - destruct (ClangVersionInfoParser.vendor_here "") as [[v r]|] eqn:Ev;
      [|discriminate].
    pose proof (@vendor_here_cases _ _ _ Ev) as Hv.
    repeat match goal with
           | |- context [match ?x with _ => _ end] =>
               destruct x as [?|]; try discriminate
           | |- context [let (_, _) := ?x in _] => destruct x
           end.
    all: try (intros H; inversion H; subst; exact Hv).
    all: try discriminate.
  - destruct (ClangVersionInfoParser.vendor_here (String c s))
      as [[v r]|] eqn:Ev; [|exact IH].
    pose proof (@vendor_here_cases _ _ _ Ev) as Hv.
    destruct (ClangVersionInfoParser.literal " version " r) as [r1|];
      [|exact IH].
    destruct (ClangVersionInfoParser.number r1) as [[ma r2]|];
      [|exact IH].
    destruct (ClangVersionInfoParser.literal "." r2) as [r3|];
      [|exact IH].
    destruct (ClangVersionInfoParser.number r3) as [[mi r4]|];
      [|exact IH].
    destruct (ClangVersionInfoParser.literal "." r4) as [r5|];
      [|exact IH].
    destruct (ClangVersionInfoParser.number r5) as [[pa r6]|];
      [|exact IH].
    intros H; inversion H; subst; exact Hv.
Qed.

(** X27.  The parser answers with a version only for a text that has
    the label [InstalledDir: ] in it: the output of a compiler that prints
    a version and no such line is not taken for the output of Clang.  The
    vendor of a version is [clang] or [Apple LLVM], and the installed
    directory has no white space. *)
Theorem parsed_version_needs_installed_dir :
  forall (version_string : string) (info : ClangVersionInfo),
    ClangVersionInfoParser.parse version_string = Some info ->
    PyStr.contains ClangVersionInfoParser.installed_dir_label version_string
    = true
    /\ (vendor info = "clang"
        \/ vendor info = "Apple LLVM")
    /\ forallb (fun c => negb (PyStr.isspace c))
               (list_ascii_of_string (installed_dir info))
       = true.
Proof.
  intros s info. unfold ClangVersionInfoParser.parse.
  destruct (ClangVersionInfoParser.search_version s)
    as [[[[v ma] mi] pa]|] eqn:Ev;
    [|discriminate].
  unfold ClangVersionInfoParser.search_installed_dir.
  destruct (PyStr.find ClangVersionInfoParser.installed_dir_label s)
    as [i|] eqn:Ef;
    [|discriminate].
  intros H; inversion H; subst; clear H.
  cbn [vendor installed_dir].
  split; [eapply find_go_contains; exact Ef|].
  split; [eapply search_version_vendor; exact Ev|].
  apply not_space_has_no_space.
Qed.

(** Witness of X27: the output of Clang. *)
Lemma parsed_version_needs_installed_dir_witness :
  ClangVersionInfoParser.parse
    ("clang version 10.0.0-4ubuntu1 " ++ String PyStr.LF ""
     ++ "Target: x86_64-pc-linux-gnu" ++ String PyStr.LF ""
     ++ "InstalledDir: /usr/bin" ++ String PyStr.LF "")
  = Some {| major_version := 10;
            minor_version := 0;
            patch_version := 0;
            installed_dir := "/usr/bin";
            vendor := "clang" |}
  /\ PyStr.contains ClangVersionInfoParser.installed_dir_label
       ("clang version 10.0.0-4ubuntu1 " ++ String PyStr.LF ""
        ++ "Target: x86_64-pc-linux-gnu" ++ String PyStr.LF ""
        ++ "InstalledDir: /usr/bin" ++ String PyStr.LF "")
     = true.
Proof.
  assert (H : ClangVersionInfoParser.parse
                ("clang version 10.0.0-4ubuntu1 " ++ String PyStr.LF ""
                 ++ "Target: x86_64-pc-linux-gnu" ++ String PyStr.LF ""
                 ++ "InstalledDir: /usr/bin" ++ String PyStr.LF "")
              = Some {| major_version := 10;
                        minor_version := 0;
                        patch_version := 0;
                        installed_dir := "/usr/bin";
                        vendor := "clang" |})
    by (vm_compute; reflexivity).
  split; [exact H|].
  exact (proj1 (@parsed_version_needs_installed_dir _ _ H)).
Defined.

(** X28.  A text that begins with a vendor, [ version ] and three
    numbers separated by dots, and whose first label [InstalledDir: ] is
    followed by a directory without white space, is parsed into the
    vendor, the three numbers as they are printed, and the directory. *)
Theorem version_banner_is_read_back :
  forall (the_vendor major minor patch tail : string) (i : nat)
         (dir post : string),
    In the_vendor ["clang"; "Apple LLVM"] ->
    digit_string major = true ->
    digit_string minor = true ->
    digit_string patch = true ->
    no_digit_first tail = true ->
    PyStr.find ClangVersionInfoParser.installed_dir_label
               (the_vendor ++ " version " ++ major ++ "." ++ minor ++ "."
                ++ patch ++ tail)
    = Some i ->
    PyStr.drop
      (i + String.length ClangVersionInfoParser.installed_dir_label)
               (the_vendor ++ " version " ++ major ++ "." ++ minor ++ "."
                ++ patch ++ tail)
    = dir ++ post ->
    directory_then_space dir post = true ->
    ClangVersionInfoParser.parse
      (the_vendor ++ " version " ++ major ++ "." ++ minor ++ "."
       ++ patch ++ tail)
    = Some {| major_version := ClangVersionInfoParser.int major;
              minor_version := ClangVersionInfoParser.int minor;
              patch_version := ClangVersionInfoParser.int patch;
              installed_dir := dir;
              vendor := the_vendor |}.
Proof.
  intros v major minor patch tail i dir post Hv Hma Hmi Hpa Htail
         Hfind Hdrop Hdir.
  unfold ClangVersionInfoParser.parse,
    ClangVersionInfoParser.search_installed_dir.
  rewrite Hfind, Hdrop, (@not_space_of_directory dir post Hdir).
  assert (Hhere : ClangVersionInfoParser.version_here
                    (v ++ " version " ++ major ++ "." ++ minor ++ "."
                     ++ patch ++ tail)
                  = Some (v, major, minor, patch)).
  { unfold ClangVersionInfoParser.version_here.
    assert (Hven : ClangVersionInfoParser.vendor_here
                     (v ++ " version " ++ major ++ "." ++ minor ++ "."
                      ++ patch ++ tail)
                   = Some (v, " version " ++ major ++ "." ++ minor ++ "."
                               ++ patch ++ tail)).
    { destruct Hv as [<-|[<-|[]]]; reflexivity. }
    rewrite Hven. cbv beta iota.
    change (ClangVersionInfoParser.literal " version "
              (" version " ++ major ++ "." ++ minor ++ "." ++ patch ++ tail))
      with (Some (major ++ "." ++ minor ++ "." ++ patch ++ tail)).
    cbv beta iota.
    rewrite (@number_of_digit_string
               major ("." ++ minor ++ "." ++ patch ++ tail) Hma eq_refl).
    cbv beta iota.
    change (ClangVersionInfoParser.literal
              "." ("." ++ minor ++ "." ++ patch ++ tail))
      with (Some (minor ++ "." ++ patch ++ tail)).
    cbv beta iota.
    rewrite (@number_of_digit_string minor ("." ++ patch ++ tail) Hmi eq_refl).
    cbv beta iota.
    change (ClangVersionInfoParser.literal "." ("." ++ patch ++ tail))
      with (Some (patch ++ tail)).
    cbv beta iota.
    rewrite (@number_of_digit_string patch tail Hpa Htail).
    reflexivity. }
  destruct (v ++ " version " ++ major ++ "." ++ minor ++ "." ++ patch ++ tail)
    eqn:Et; cbn [ClangVersionInfoParser.search_version]; rewrite Hhere;
    reflexivity.
Qed.

(** Witness of X28: the output of Apple's compiler. *)
Lemma version_banner_is_read_back_witness :
  ClangVersionInfoParser.parse
    ("Apple LLVM" ++ " version " ++ "10" ++ "." ++ "0" ++ "." ++ "1"
     ++ (" (clang-1001.0.46.4)" ++ String PyStr.LF ""
         ++ "InstalledDir: /Library/Developer" ++ String PyStr.LF ""))
  = Some {| major_version := 10;
            minor_version := 0;
            patch_version := 1;
            installed_dir := "/Library/Developer";
            vendor := "Apple LLVM" |}.
Proof.
  apply (@version_banner_is_read_back
           "Apple LLVM" "10" "0" "1"
           (" (clang-1001.0.46.4)" ++ String PyStr.LF ""
            ++ "InstalledDir: /Library/Developer" ++ String PyStr.LF "")
           46 "/Library/Developer" (String PyStr.LF ""));
    try reflexivity.
  right; left; reflexivity.
Defined.

(** ** The options that the Clang chain keeps *)

Lemma clang_options_match_all item :
  Re.matches CLANG_OPTIONS item = true.
Proof.
  unfold Re.matches, Re.match_, CLANG_OPTIONS. cbn [Re.run].
  destruct (String.length item); cbn [Re.star]; [reflexivity|].
  match goal with
  | |- match Re.orelse ?a _ with _ => _ end = _ => destruct a; reflexivity
  end.
Qed.

(** X29.  In the Clang chain, a flag that no earlier collector takes is
    kept as it is written: the last collector takes every item, so that
    warnings, libraries and the like, which the other chain drops, are
    options of the action. *)
Theorem clang_chain_keeps_other_flags :
  forall (word : string) (rest : list string) (d : details),
    taken_before_clang_collector (String "-" word) = false ->
    process_flags clang_flag_collectors (String "-" word :: rest) d
    = process_flags clang_flag_collectors rest
                    (extend_options [String "-" word] d).
Proof.
  intros word rest d H. unfold taken_before_clang_collector in H.
  repeat match type of H with
         | _ || _ = false => apply orb_false_iff in H as [H ?]
         end.
  rewrite (@process_flags_cons clang_flag_collectors _ rest d
             (flag_processors_advance true)).
  cbn [clang_flag_collectors run_processors].
  unfold __skip_sources at 1. cbn [_item bind negb Ascii.eqb Bool.eqb].
  unfold __skip_clang at 1. cbn [_item].
  rewrite H. cbn [bind].
  unfold __collect_transform_xclang_opts at 1. cbn [_item].
  match goal with E : (_ =? "-Xclang") = false |- _ => rewrite E end.
  cbn [bind].
  unfold __get_output at 1. cbn [_item].
  match goal with E : (_ =? "-o") = false |- _ => rewrite E end.
  cbn [bind].
  unfold __determine_action_type at 1. cbn [_item].
  match goal with E : (_ =? "-c") = false |- _ => rewrite E end.
  match goal with
  | E : PyStr.startswith _ "-print-prog-name" = false |- _ => rewrite E
  end.
  match goal with
  | E : Re.matches PRECOMPILATION_OPTION _ = false |- _ => rewrite E
  end.
  cbn [bind].
  unfold __get_arch at 1. cbn [_item].
  match goal with E : (_ =? "-arch") = false |- _ => rewrite E end.
  cbn [bind].
  unfold __get_language at 1. cbn [_item].
  match goal with E : PyStr.startswith _ "-x" = false |- _ => rewrite E end.
  cbn [bind].
  unfold __collect_transform_include_opts at 1. cbn [_item].
  destruct (Re.match_ COMPILE_OPTIONS_MERGED (String "-" word));
    [discriminate|].
  cbn [bind].
  unfold __collect_clang_compile_opts at 1. cbn [_item].
  rewrite clang_options_match_all. cbn [bind _it]. reflexivity.
Qed.

(** Witness of X29: [-Wall] before [-c]. *)
Lemma clang_chain_keeps_other_flags_witness :
  process_flags clang_flag_collectors ["-Wall"; "-c"] empty_details
  = OK (with_action_type (Some COMPILE)
          (with_analyzer_options ["-Wall"] empty_details)).
Proof.
  rewrite (@clang_chain_keeps_other_flags "Wall" ["-c"] empty_details
             eq_refl).
  reflexivity.
Defined.

(** X30.  In the Clang chain, [-Xclang] is read with the item that
    follows it: the two are dropped when that item is one of
    [XCLANG_FLAGS_TO_SKIP], and kept, in this order, otherwise; the item
    is not read as a flag of its own.  The other chain does not know
    [-Xclang]: it drops it alone, and the item that follows is processed
    as any other item. *)
Theorem xclang_is_read_with_its_flag :
  forall (next_flag : string) (rest : list string) (d : details),
    process_flags clang_flag_collectors ("-Xclang" :: next_flag :: rest) d
    = process_flags clang_flag_collectors rest
        (if PyStr.mem next_flag XCLANG_FLAGS_TO_SKIP then d
         else extend_options ["-Xclang"; next_flag] d)
    /\ process_flags gcc_flag_transformers
                     ("-Xclang" :: next_flag :: rest) d
       = process_flags gcc_flag_transformers (next_flag :: rest) d.
Proof.
  intros next_flag rest d. split.
  - rewrite (@process_flags_cons clang_flag_collectors _ _ d
               (flag_processors_advance true)).
    cbn [clang_flag_collectors run_processors].
    change (__skip_sources {| _item := "-Xclang";
                              _it := next_flag :: rest |} d)
      with (OK (false,
                {| _item := "-Xclang"; _it := next_flag :: rest |}, d)).
    cbn [bind].
    change (__skip_clang {| _item := "-Xclang";
                            _it := next_flag :: rest |} d)
      with (OK (false,
                {| _item := "-Xclang"; _it := next_flag :: rest |}, d)).
    cbn [bind].
    unfold __collect_transform_xclang_opts at 1.
    cbn [_item _it next bind String.eqb Ascii.eqb Bool.eqb].
    destruct (PyStr.mem next_flag XCLANG_FLAGS_TO_SKIP); reflexivity.
  - rewrite (@process_flags_cons gcc_flag_transformers "-Xclang" _ d
               (flag_processors_advance false)).
    assert (Hrun : run_processors gcc_flag_transformers
                     {| _item := "-Xclang"; _it := next_flag :: rest |} d
                   = OK ({| _item := "-Xclang";
                            _it := next_flag :: rest |}, d))
      by (vm_compute; reflexivity).
    rewrite Hrun. reflexivity.
Qed.

(** ** The two forms of a flag with a path *)

Lemma startswith_slash p :
  PyStr.startswith p "/" = true -> exists q, p = String "/" q.
Proof.
  destruct p as [|c q]; [discriminate|].
  cbn [PyStr.startswith].
  destruct (Ascii.eqb_spec "/" c) as [<-|]; [|discriminate].
  intros _. now exists q.
Qed.

Lemma extend_rebase l options command d :
  extend_options l (rebase options command d)
  = rebase options command (extend_options l d).
Proof.
  unfold extend_options, rebase. cbn. now rewrite app_assoc.
Qed.

Ltac rebase_done :=
  cbn [bind]; first [reflexivity | now rewrite extend_rebase].

Lemma skip_sources_rebases : rebases __skip_sources.
Proof.
  intros o c [item l] d. unfold __skip_sources; cbn [_item _it].
  destruct item; rebase_done.
Qed.

Lemma skip_clang_rebases : rebases __skip_clang.
Proof. intros o c [item l] d. reflexivity. Qed.

Lemma collect_clang_compile_opts_rebases :
  rebases __collect_clang_compile_opts.
Proof.
  intros o c [item l] d. unfold __collect_clang_compile_opts; cbn [_item _it].
  destruct (Re.matches CLANG_OPTIONS item); rebase_done.
Qed.

Lemma collect_compile_opts_rebases : rebases __collect_compile_opts.
Proof.
  intros o c [item l] d. unfold __collect_compile_opts; cbn [_item _it].
  destruct (Re.matches COMPILE_OPTIONS item); rebase_done.
Qed.

Lemma replace_rebases : rebases __replace.
Proof.
  intros o c [item l] d. unfold __replace; cbn [_item _it].
  destruct (alist_get String.eqb item REPLACE_OPTIONS_MAP) as [[|x v]|];
    rebase_done.
Qed.

Lemma determine_action_type_rebases : rebases __determine_action_type.
Proof.
  intros o c [item l] d. unfold __determine_action_type; cbn [_item _it].
  change (action_type (rebase o c d)) with (action_type d).
  destruct (item =? "-c"); [rebase_done|].
  destruct (PyStr.startswith item "-print-prog-name").
  - destruct (is_compile (action_type d)); rebase_done.
  - destruct (Re.matches PRECOMPILATION_OPTION item); [|rebase_done].
    destruct (is_compile (action_type d)); rebase_done.
Qed.

Lemma xclang_rebases : rebases __collect_transform_xclang_opts.
Proof.
  intros o c [item l] d.
  unfold __collect_transform_xclang_opts; cbn [_item _it].
  destruct (item =? "-Xclang"); [|rebase_done].
  destruct l as [|x l']; cbn [next _item _it bind]; [reflexivity|].
  destruct (PyStr.mem x XCLANG_FLAGS_TO_SKIP); rebase_done.
Qed.

Lemma get_output_rebases : rebases __get_output.
Proof.
  intros o c [item l] d. unfold __get_output; cbn [_item _it].
  destruct (item =? "-o"); [|rebase_done].
  destruct l as [|x l']; cbn [next _item _it bind]; rebase_done.
Qed.

Lemma get_arch_rebases : rebases __get_arch.
Proof.
  intros o c [item l] d. unfold __get_arch; cbn [_item _it].
  destruct (item =? "-arch"); [|rebase_done].
  destruct l as [|x l']; cbn [next _item _it bind]; rebase_done.
Qed.

Lemma get_language_rebases : rebases __get_language.
Proof.
  intros o c [item l] d. unfold __get_language; cbn [_item _it].
  destruct (PyStr.startswith item "-x"); [|rebase_done].
  destruct (item =? "-x"); [|rebase_done].
  destruct l as [|x l']; cbn [next _item _it bind]; rebase_done.
Qed.

Lemma include_opts_rebases : rebases __collect_transform_include_opts.
Proof.
  intros o c [item l] d.
  unfold __collect_transform_include_opts; cbn [_item _it].
  change (directory (rebase o c d)) with (directory d).
  destruct (Re.match_ COMPILE_OPTIONS_MERGED item) as [m|]; [|rebase_done].
  destruct (negb (String.length (PyStr.take m item) =? String.length item)%nat).
  - cbn [bind].
    destruct (PyStr.mem (PyStr.take m item) flags_with_path).
    + destruct (PyStr.startswith _ "="); rebase_done.
    + rebase_done.
  - destruct l as [|x l']; cbn [next _item _it bind]; [reflexivity|].
    destruct (PyStr.mem (PyStr.take m item) flags_with_path).
    + destruct (PyStr.startswith x "="); rebase_done.
    + rebase_done.
Qed.

Lemma skip_param_options_rebases table :
  rebases (skip_param_options table).
Proof.
  induction table as [|[pattern arg_num] table IH];
    intros o c [item l] d; cbn [skip_param_options _item].
  - reflexivity.
  - destruct (Re.matches pattern item).
    + destruct (skip_params arg_num {| _item := item; _it := l |});
        reflexivity.
    + apply IH.
Qed.

Lemma skip_gcc_rebases : rebases __skip_gcc.
Proof.
  intros o c [item l] d. unfold __skip_gcc; cbn [_item].
  destruct (Re.matches IGNORED_OPTIONS_GCC item).
  - reflexivity.
  - apply skip_param_options_rebases.
Qed.

Lemma flag_processors_rebase clang :
  Forall rebases (flag_processors_for clang).
Proof.
  destruct clang; cbv [flag_processors_for clang_flag_collectors
                         gcc_flag_transformers];
    repeat apply Forall_cons; try apply Forall_nil;
    auto using skip_sources_rebases, skip_clang_rebases, xclang_rebases,
      get_output_rebases, determine_action_type_rebases, get_arch_rebases,
      get_language_rebases, include_opts_rebases,
      collect_clang_compile_opts_rebases, skip_gcc_rebases, replace_rebases,
      collect_compile_opts_rebases.
Qed.

Lemma run_processors_rebase ps :
  Forall rebases ps ->
  forall options command it d,
    run_processors ps it (rebase options command d)
    = match run_processors ps it d with
      | OK (it', d') => OK (it', rebase options command d')
      | Raise e => Raise e
      end.
Proof.
  induction 1 as [|p ps Hp _ IH]; intros o c it d; [reflexivity|].
  cbn [run_processors]. rewrite Hp.
  destruct (p it d) as [[[taken it1] d1]|e]; cbn [bind]; [|reflexivity].
  destruct taken; [reflexivity | apply IH].
Qed.

Lemma process_flags_fuel_rebase ps :
  Forall rebases ps ->
  forall fuel options command args d,
    process_flags_fuel fuel ps args (rebase options command d)
    = match process_flags_fuel fuel ps args d with
      | OK d' => OK (rebase options command d')
      | Raise e => Raise e
      end.
Proof.
  intros Hps. induction fuel as [|fuel IH]; intros o c args d.
  - destruct args; reflexivity.
  - destruct args as [|x rest]; [reflexivity|].
    cbn [process_flags_fuel].
    rewrite (run_processors_rebase Hps).
    destruct (run_processors ps {| _item := x; _it := rest |} d)
      as [[it1 d1]|e]; cbn [bind]; [|reflexivity].
    apply IH.
Qed.

Lemma process_flags_rebase clang options command args d :
  process_flags (flag_processors_for clang) args (rebase options command d)
  = match process_flags (flag_processors_for clang) args d with
    | OK d' => OK (rebase options command d')
    | Raise e => Raise e
    end.
Proof.
  unfold process_flags.
  apply process_flags_fuel_rebase, flag_processors_rebase.
Qed.


Lemma normpath_absolute q :
  exists r, PosixPath.normpath (String "/" q) = String "/" r.
Proof.
  unfold PosixPath.normpath.
  change (String "/" q =? "") with false. cbv iota.
  change (PyStr.startswith (String "/" q) "/") with true. cbv iota.
  destruct (PyStr.startswith (String "/" q) "//"
            && negb (PyStr.startswith (String "/" q) "///"));
    cbv zeta iota; eexists; reflexivity.
Qed.

Lemma path_flag_step clang F q rest d :
  In F merged_path_flags ->
  run_processors (flag_processors_for clang)
                 {| _item := F ++ String "/" q; _it := rest |} d
  = OK ({| _item := F ++ String "/" q; _it := rest |},
        extend_options [F ++ PosixPath.normpath (String "/" q)] d)
  /\ run_processors (flag_processors_for clang)
                    {| _item := F; _it := String "/" q :: rest |} d
     = OK ({| _item := String "/" q; _it := rest |},
           extend_options [F; PosixPath.normpath (String "/" q)] d).
Proof.
  intros HF.
  destruct clang; cbn [merged_path_flags In] in HF;
    repeat (destruct HF as [<-|HF];
            [split; cbv -[PosixPath.normpath]; reflexivity|]);
    contradiction.
Qed.

Lemma start_details_rebase original original' directory0 cc :
  start_details original' directory0 cc
  = rebase [] original' (start_details original directory0 cc).
Proof.
  unfold start_details.
  cbn [compiler with_compiler with_action_type with_directory
                with_original_command empty_details].
  destruct (PyStr.contains "++" (PosixPath.basename cc)); reflexivity.
Qed.

Lemma extend_options_rebase X command d :
  extend_options X (with_original_command command d)
  = rebase (List.app (analyzer_options d) X) command
           (with_analyzer_options [] d).
Proof.
  unfold extend_options, rebase. cbn. now rewrite app_nil_r.
Qed.

Lemma with_original_command_same d :
  with_original_command (original_command d) d = d.
Proof. now destruct d. Qed.

(** The flags after a path flag are processed the same way whatever the
    form of the path flag: the options of both forms are the options
    before, the option of the path flag in its form, and the same options
    after. *)
Lemma process_flags_forms clang pre F q rest original original' directory0
      cc d1 :
  In F merged_path_flags ->
  process_flags (flag_processors_for clang) pre
                (start_details original directory0 cc) = OK d1 ->
  let np := PosixPath.normpath (String "/" q) in
  match process_flags (flag_processors_for clang) rest
                      (with_analyzer_options [] d1) with
  | OK b =>
      process_flags (flag_processors_for clang)
                    (List.app pre ((F ++ String "/" q) :: rest))
                    (start_details original directory0 cc)
      = OK (rebase (List.app (analyzer_options d1) [F ++ np])
                   (original_command d1) b)
      /\ process_flags (flag_processors_for clang)
                       (List.app pre (F :: String "/" q :: rest))
                       (start_details original' directory0 cc)
         = OK (rebase (List.app (analyzer_options d1) [F; np]) original' b)
  | Raise e =>
      process_flags (flag_processors_for clang)
                    (List.app pre ((F ++ String "/" q) :: rest))
                    (start_details original directory0 cc)
      = Raise e
      /\ process_flags (flag_processors_for clang)
                       (List.app pre (F :: String "/" q :: rest))
                       (start_details original' directory0 cc)
         = Raise e
  end.
Proof.
  intros HF Hpre np.
  pose proof (flag_processors_advance clang) as Hadv.
  destruct (path_flag_step clang q rest d1 HF) as [Hj _].
  destruct (path_flag_step clang q rest (rebase [] original' d1) HF)
    as [_ Hs].
  assert (Hpre' : process_flags (flag_processors_for clang) pre
                    (start_details original' directory0 cc)
                  = OK (rebase [] original' d1)).
  { rewrite (start_details_rebase original original' directory0 cc).
    now rewrite process_flags_rebase, Hpre. }
  assert (H1 : process_flags (flag_processors_for clang)
                 (List.app pre ((F ++ String "/" q) :: rest))
                 (start_details original directory0 cc)
               = process_flags (flag_processors_for clang) rest
                   (rebase (List.app (analyzer_options d1) [F ++ np])
                           (original_command d1)
                           (with_analyzer_options [] d1))).
  { rewrite (@process_flags_app _ Hadv (List.length pre) pre _ d1 _
               (le_n _) Hpre).
    rewrite process_flags_cons by assumption.
    rewrite Hj. cbn [bind _it].
    rewrite <- extend_options_rebase.
    now rewrite with_original_command_same. }
  assert (H2 : process_flags (flag_processors_for clang)
                 (List.app pre (F :: String "/" q :: rest))
                 (start_details original' directory0 cc)
               = process_flags (flag_processors_for clang) rest
                   (rebase (List.app (analyzer_options d1) [F; np])
                           original'
                           (with_analyzer_options [] d1))).
  { rewrite (@process_flags_app _ Hadv (List.length pre) pre _
               (rebase [] original' d1) _ (le_n _) Hpre').
    rewrite process_flags_cons by assumption.
    rewrite Hs. cbn [bind _it].
    now rewrite <- extend_options_rebase. }
  rewrite H1, H2, !process_flags_rebase.
  destruct (process_flags (flag_processors_for clang) rest
                          (with_analyzer_options [] d1));
    split; reflexivity.
Qed.

Lemma settle_source_options file d :
  analyzer_options (fst (settle_source file d)) = analyzer_options d.
Proof.
  unfold settle_source.
  set (d1 := match action_type d with
             | Some _ => d
             | None => with_action_type (Some COMPILE) d
             end).
  assert (H1 : analyzer_options d1 = analyzer_options d)
    by (subst d1; now destruct (action_type d)).
  clearbody d1. cbn [source with_source].
  set (d3 := if file =? "." then _ else _).
  assert (H3 : analyzer_options d3 = analyzer_options d1)
    by (subst d3; now destruct (file =? ".")).
  clearbody d3.
  cbn [fst analyzer_options with_target].
  destruct (get_language _); [destruct (lang d3)|]; cbn; congruence.
Qed.

Lemma finish_options_options w file cif k1 k2 clang store d a store' :
  finish_options w file cif k1 k2 clang store d = OK (a, store') ->
  (if k2 then OK (analyzer_options d)
   else aop_without_intrin w (analyzer_options d))
  = OK (analyzer_options a).
Proof.
  unfold finish_options.
  pose proof (settle_source_options file d) as H0.
  destruct (settle_source file d) as [d1 l]. cbn [fst] in H0.
  match goal with
  | |- bind ?c _ = _ -> _ => destruct c as [[d2 s2]|e] eqn:E1
  end; cbn [bind]; [|discriminate].
  assert (H2 : analyzer_options d2 = analyzer_options d1).
  { match type of E1 with
    | (if ?c then _ else _) = _ => destruct c
    end.
    - eapply ICI_set_keeps; eassumption.
    - now inversion E1. }
  match goal with
  | |- bind ?c _ = _ -> _ => destruct c as [d3|e] eqn:E3
  end; cbn [bind]; [|discriminate].
  assert (H3 : analyzer_options d3 = analyzer_options d2).
  { destruct k1; cbn [negb] in E3; [now inversion E3|].
    destruct (filter_compiler_includes _ _); cbn [bind] in E3;
      [|discriminate].
    now inversion E3. }
  clear E1 E3.
  match goal with
  | |- bind ?c _ = _ -> _ => destruct c as [d4|e] eqn:E4
  end; cbn [bind]; [|discriminate].
  intros H; inversion H; subst; clear H.
  destruct k2; cbn [negb] in E4.
  - inversion E4; subst. congruence.
  - destruct (filter_compiler_includes _ _) as [inc|e]; cbn [bind] in E4;
      [|discriminate].
    cbn [analyzer_options with_compiler_includes] in E4.
    rewrite H3, H2, H0 in E4.
    destruct (aop_without_intrin w (analyzer_options d)) as [opts|e];
      cbn [bind] in E4; [|discriminate].
    now inversion E4.
Qed.

Lemma aop_without_intrin_app w n :
  forall l1 k1 l2,
    List.length l1 <= n ->
    aop_without_intrin w l1 = OK k1 ->
    aop_without_intrin w (List.app l1 l2)
    = (k2 <- aop_without_intrin w l2 ;; OK (List.app k1 k2)).
Proof.
  induction n as [|n IH]; intros l1 k1 l2 Hn H.
  - destruct l1; [|simpl in Hn; lia]. inversion H; subst.
    cbn [List.app]. now destruct (aop_without_intrin w l2).
  - destruct l1 as [|aopt rest].
    { inversion H; subst. cbn [List.app].
      now destruct (aop_without_intrin w l2). }
    cbn [aop_without_intrin List.app] in *. simpl in Hn.
    destruct (Re.match_ INCLUDE_OPTIONS_MERGED aopt) as [m|].
    + cbv zeta in *.
      destruct (negb (Nat.eqb (String.length (PyStr.take m aopt))
                              (String.length aopt))).
      * destruct (aop_without_intrin w rest) as [more|e] eqn:Er;
          cbn [bind] in H; [|discriminate H].
        rewrite (IH rest more l2) by (lia || assumption).
        destruct (aop_without_intrin w l2) as [k2|e]; cbn [bind];
          [|reflexivity].
        destruct (keep_include_value w _); inversion H; subst; reflexivity.
      * destruct rest as [|value rest']; [discriminate H|].
        cbn [List.app].
        destruct (aop_without_intrin w rest') as [more|e] eqn:Er;
          cbn [bind] in H; [|discriminate H].
        rewrite (IH rest' more l2) by (simpl in Hn; lia || assumption).
        destruct (aop_without_intrin w l2) as [k2|e]; cbn [bind];
          [|reflexivity].
        destruct (keep_include_value w value); inversion H; subst;
          reflexivity.
    + destruct (aop_without_intrin w rest) as [more|e] eqn:Er;
        cbn [bind] in H; [|discriminate H].
      inversion H; subst.
      rewrite (IH rest more l2) by (lia || assumption).
      now destruct (aop_without_intrin w l2).
Qed.

(** The filter on the two forms of a path flag: the option is kept in
    its form or dropped in both. *)
Lemma aop_without_intrin_forms w F r after :
  In F merged_path_flags ->
  aop_without_intrin w ((F ++ String "/" r) :: after)
  = (more <- aop_without_intrin w after ;;
     OK (List.app (if PyStr.mem F intrin_filtered_flags
                      && negb (keep_include_value w (String "/" r))
                   then [] else [F ++ String "/" r]) more))
  /\ aop_without_intrin w (F :: String "/" r :: after)
     = (more <- aop_without_intrin w after ;;
        OK (List.app (if PyStr.mem F intrin_filtered_flags
                         && negb (keep_include_value w (String "/" r))
                      then [] else [F; String "/" r]) more)).
Proof.
  intros HF. cbn [merged_path_flags In] in HF.
  assert (Hpath : Re.match_ INCLUDE_OPTIONS_MERGED (String "/" r) = None)
    by reflexivity.
  repeat (destruct HF as [<-|HF];
          [split; cbn [aop_without_intrin];
           [ match goal with
             | |- context [Re.match_ INCLUDE_OPTIONS_MERGED ?s] =>
                 let v := eval vm_compute in
                            (Re.match_ INCLUDE_OPTIONS_MERGED s) in
                 change (Re.match_ INCLUDE_OPTIONS_MERGED s) with v
             end
           | match goal with
             | |- context [Re.match_ INCLUDE_OPTIONS_MERGED ?s] =>
                 let v := eval vm_compute in
                            (Re.match_ INCLUDE_OPTIONS_MERGED s) in
                 change (Re.match_ INCLUDE_OPTIONS_MERGED s) with v
             end; try rewrite Hpath ];
           cbv beta iota zeta;
           cbn [PyStr.take PyStr.drop String.length String.append Nat.eqb
                negb PyStr.mem existsb String.eqb Ascii.eqb Bool.eqb orb
                andb intrin_filtered_flags];
           destruct (aop_without_intrin w after); cbn [bind];
           try destruct (keep_include_value w (String "/" r));
           reflexivity|]).
  contradiction.
Qed.


(** C2 (as amended).  Two entries that differ in the form of a path flag
    only, joined in one and separate in the other, the flag being one that
    the pattern of the merged options matches as itself and the path being
    absolute: when the items before the flag are processed to the end and
    their options are read as whole units by the filter of the intrinsic
    directories, the options of the two actions are the same before and
    after the flag; the joined form is stored as one option, the flag
    followed by the normalized path, the separate form as two options, the
    flag and the normalized path; both forms store nothing for the flag
    when the filter drops it. *)
Theorem path_flag_joined_and_separate :
  forall (w : World) (joined separate : db_entry)
         (compiler_info_file : option string)
         (keep_gcc_include_fixed keep_gcc_intrin : bool)
         (get_clangsa_version_func : option (string -> bool))
         (store : compiler_info_t)
         (first : string) (pre : list string) (F p : string)
         (rest : list string) (original original' the_compiler : string)
         (d1 : details) (a1 a2 : BuildAction) (s1 s2 : compiler_info_t),
    In F merged_path_flags ->
    PyStr.startswith p "/" = true ->
    entry_command joined
    = OK (first :: List.app pre ((F ++ p) :: rest), original) ->
    entry_command separate
    = OK (first :: List.app pre (F :: p :: rest), original') ->
    e_directory separate = e_directory joined ->
    determine_compiler (first :: List.app pre ((F ++ p) :: rest))
                       (ImplicitCompilerInfo.is_executable_compiler w)
    = OK the_compiler ->
    determine_compiler (first :: List.app pre (F :: p :: rest))
                       (ImplicitCompilerInfo.is_executable_compiler w)
    = OK the_compiler ->
    process_flags
      (flag_processors_for
         (compiler_version_info get_clangsa_version_func the_compiler))
      pre (start_details original (e_directory joined) the_compiler)
    = OK d1 ->
    read_in_units w keep_gcc_intrin (analyzer_options d1) ->
    parse_options w joined compiler_info_file keep_gcc_include_fixed
                  keep_gcc_intrin get_clangsa_version_func store
    = OK (a1, s1) ->
    parse_options w separate compiler_info_file keep_gcc_include_fixed
                  keep_gcc_intrin get_clangsa_version_func store
    = OK (a2, s2) ->
    exists before after,
      analyzer_options a1
      = List.app before
          (List.app
             (if dropped_as_intrin w keep_gcc_intrin F (PosixPath.normpath p)
              then [] else [F ++ PosixPath.normpath p])
             after)
      /\ analyzer_options a2
         = List.app before
             (List.app
                (if dropped_as_intrin w keep_gcc_intrin F
                                      (PosixPath.normpath p)
                 then [] else [F; PosixPath.normpath p])
                after).
Proof.
  intros w joined separate cif k1 k2 f store first pre F p rest
         original original' cc d1 a1 a2 s1 s2
         HF Hp Hj Hs Hdir Hcj Hcs Hpre Hunits H1 H2.
  destruct (startswith_slash _ Hp) as [q ->].
  unfold parse_options in H1, H2.
  rewrite Hj in H1. rewrite Hs in H2. cbn [bind] in H1, H2.
  rewrite Hcj in H1. rewrite Hcs in H2. cbn [bind tl] in H1, H2.
  rewrite Hdir in H2.
  pose proof (@process_flags_forms
                (compiler_version_info f cc) pre F q rest original original'
                (e_directory joined) cc d1 HF Hpre) as Hforms.
  cbv zeta in Hforms.
  destruct (process_flags _ rest (with_analyzer_options [] d1)) as [b|e].
  2:{ destruct Hforms as [E1 _]. rewrite E1 in H1. discriminate H1. }
  destruct Hforms as [E1 E2]. rewrite E1 in H1. rewrite E2 in H2.
  cbn [bind] in H1, H2.
  apply finish_options_options in H1. apply finish_options_options in H2.
  unfold rebase in H1, H2.
  cbn [analyzer_options with_original_command with_analyzer_options]
    in H1, H2.
  unfold dropped_as_intrin.
  destruct k2; cbn [negb andb].
  - exists (analyzer_options d1), (analyzer_options b).
    inversion H1 as [A1]. inversion H2 as [A2].
    now rewrite <- !app_assoc.
  - destruct Hunits as [Hk|[kept Hkept]]; [discriminate Hk|].
    destruct (normpath_absolute q) as [r Hr]. rewrite Hr in *.
    rewrite <- !app_assoc in H1, H2.
    rewrite (@aop_without_intrin_app w _ _ kept _ (le_n _) Hkept) in H1.
    rewrite (@aop_without_intrin_app w _ _ kept _ (le_n _) Hkept) in H2.
    cbn [List.app] in H1, H2.
    destruct (@aop_without_intrin_forms w F r (analyzer_options b) HF)
      as [Fj Fs].
    rewrite Fj in H1. rewrite Fs in H2.
    destruct (aop_without_intrin w (analyzer_options b)) as [more|e];
      cbn [bind] in H1, H2; [|discriminate H1].
    exists kept, more.
    inversion H1 as [A1]. inversion H2 as [A2]. now split.
Qed.

(** Witness of C2: [-isystem] with [/usr/include/../local/include],
    after [-c] and before the source file; and [-I] with a directory of
    intrinsic headers, after [-DX], which both forms lose. *)
Lemma path_flag_joined_and_separate_witness :
  (exists a1 s1 a2 s2 before after,
      parse_options empty_world
        (entry_of_command
           "/proj" "a.c" "gcc -c -isystem/usr/include/../local/include a.c")
        None false false (Some (clang_version_info empty_world)) []
      = OK (a1, s1)
      /\ parse_options empty_world
           (entry_of_command
              "/proj" "a.c"
              "gcc -c -isystem /usr/include/../local/include a.c")
           None false false (Some (clang_version_info empty_world)) []
         = OK (a2, s2)
      /\ analyzer_options a1
         = List.app before
                    (List.app ["-isystem/usr/local/include"] after)
      /\ analyzer_options a2
         = List.app before
                    (List.app ["-isystem"; "/usr/local/include"] after))
  /\ (exists a1 s1 a2 s2 before after,
         parse_options gcc_include_world
           (entry_of_command
              "/proj" "a.c" "gcc -DX -I/usr/lib/gcc/include -c a.c")
           None false false (Some (clang_version_info gcc_include_world)) []
         = OK (a1, s1)
         /\ parse_options gcc_include_world
              (entry_of_command
                 "/proj" "a.c" "gcc -DX -I /usr/lib/gcc/include -c a.c")
              None false false
              (Some (clang_version_info gcc_include_world)) []
            = OK (a2, s2)
         /\ analyzer_options a1 = List.app before (List.app [] after)
         /\ analyzer_options a2 = List.app before (List.app [] after)).
Proof.
  split.
  - assert (H1 : exists a1 s1,
               parse_options empty_world
                 (entry_of_command
                    "/proj" "a.c"
                    "gcc -c -isystem/usr/include/../local/include a.c")
                 None false false (Some (clang_version_info empty_world)) []
               = OK (a1, s1))
      by (do 2 eexists; vm_compute; reflexivity).
    assert (H2 : exists a2 s2,
               parse_options empty_world
                 (entry_of_command
                    "/proj" "a.c"
                    "gcc -c -isystem /usr/include/../local/include a.c")
                 None false false (Some (clang_version_info empty_world)) []
               = OK (a2, s2))
      by (do 2 eexists; vm_compute; reflexivity).
    destruct H1 as [a1 [s1 H1]]. destruct H2 as [a2 [s2 H2]].
    destruct (@path_flag_joined_and_separate
                empty_world
                (entry_of_command
                   "/proj" "a.c"
                   "gcc -c -isystem/usr/include/../local/include a.c")
                (entry_of_command
                   "/proj" "a.c"
                   "gcc -c -isystem /usr/include/../local/include a.c")
                None false false (Some (clang_version_info empty_world)) []
                "gcc" ["-c"] "-isystem" "/usr/include/../local/include"
                ["a.c"]
                "gcc -c -isystem/usr/include/../local/include a.c"
                "gcc -c -isystem /usr/include/../local/include a.c"
                "gcc"
                (with_action_type
                   (Some COMPILE)
                   (start_details
                      "gcc -c -isystem/usr/include/../local/include a.c"
                      "/proj" "gcc"))
                a1 a2 s1 s2
                (or_intror (or_intror (or_intror (or_intror
                                                    (or_introl eq_refl)))))
                eq_refl eq_refl eq_refl eq_refl eq_refl eq_refl eq_refl
                (or_intror (ex_intro _ [] eq_refl)) H1 H2)
      as [before [after [A1 A2]]].
    exists a1, s1, a2, s2, before, after.
    split; [exact H1|]. split; [exact H2|]. split; [exact A1 | exact A2].
  - assert (H1 : exists a1 s1,
               parse_options gcc_include_world
                 (entry_of_command
                    "/proj" "a.c" "gcc -DX -I/usr/lib/gcc/include -c a.c")
                 None false false
                 (Some (clang_version_info gcc_include_world)) []
               = OK (a1, s1))
      by (do 2 eexists; vm_compute; reflexivity).
    assert (H2 : exists a2 s2,
               parse_options gcc_include_world
                 (entry_of_command
                    "/proj" "a.c" "gcc -DX -I /usr/lib/gcc/include -c a.c")
                 None false false
                 (Some (clang_version_info gcc_include_world)) []
               = OK (a2, s2))
      by (do 2 eexists; vm_compute; reflexivity).
    destruct H1 as [a1 [s1 H1]]. destruct H2 as [a2 [s2 H2]].
    destruct (@path_flag_joined_and_separate
                gcc_include_world
                (entry_of_command
                   "/proj" "a.c" "gcc -DX -I/usr/lib/gcc/include -c a.c")
                (entry_of_command
                   "/proj" "a.c" "gcc -DX -I /usr/lib/gcc/include -c a.c")
                None false false
                (Some (clang_version_info gcc_include_world)) []
                "gcc" ["-DX"] "-I" "/usr/lib/gcc/include" ["-c"; "a.c"]
                "gcc -DX -I/usr/lib/gcc/include -c a.c"
                "gcc -DX -I /usr/lib/gcc/include -c a.c"
                "gcc"
                (extend_options
                   ["-DX"]
                   (start_details "gcc -DX -I/usr/lib/gcc/include -c a.c"
                                  "/proj" "gcc"))
                a1 a2 s1 s2
                (or_introl eq_refl)
                eq_refl eq_refl eq_refl eq_refl eq_refl eq_refl eq_refl
                (or_intror (ex_intro _ ["-DX"] eq_refl)) H1 H2)
      as [before [after [A1 A2]]].
    exists a1, s1, a2, s2, before, after.
    split; [exact H1|]. split; [exact H2|]. split; [exact A1 | exact A2].
Defined.

(** C2, counterexample.  [-I/usr/include] and [-I /usr/include] are not
    stored as the same sequence: the first stays one option, the second
    stays two.  The flags of [flags_with_path] that the pattern does not
    match as themselves keep the path in neither form:
    [-iwithprefixbefore] is read as [-iwithprefix] with a value that
    starts with [before], and [-imultilib] is dropped by the chain of
    GCC. *)
Lemma joined_and_separate_forms_differ :
  (exists a1 s1 a2 s2,
      parse_options empty_world
        (entry_of_command "/proj" "a.c" "gcc -I/usr/include -c a.c")
        None false false (Some (clang_version_info empty_world)) []
      = OK (a1, s1)
      /\ parse_options empty_world
           (entry_of_command "/proj" "a.c" "gcc -I /usr/include -c a.c")
           None false false (Some (clang_version_info empty_world)) []
         = OK (a2, s2)
      /\ analyzer_options a1 = ["-I/usr/include"]
      /\ analyzer_options a2 = ["-I"; "/usr/include"]
      /\ analyzer_options a1 <> analyzer_options a2)
  /\ (exists a1 s1 a2 s2,
         parse_options empty_world
           (entry_of_command "/proj" "a.c"
                             "gcc -iwithprefixbefore/abs -c a.c")
           None false false (Some (clang_version_info empty_world)) []
         = OK (a1, s1)
         /\ parse_options empty_world
              (entry_of_command "/proj" "a.c"
                                "gcc -iwithprefixbefore /abs -c a.c")
              None false false (Some (clang_version_info empty_world)) []
            = OK (a2, s2)
         /\ analyzer_options a1 = ["-iwithprefix/proj/before/abs"]
         /\ analyzer_options a2 = ["-iwithprefix/proj/before"])
  /\ (exists a1 s1 a2 s2,
         parse_options empty_world
           (entry_of_command "/proj" "a.c" "gcc -imultilib/abs -c a.c")
           None false false (Some (clang_version_info empty_world)) []
         = OK (a1, s1)
         /\ parse_options empty_world
              (entry_of_command "/proj" "a.c" "gcc -imultilib /abs -c a.c")
              None false false (Some (clang_version_info empty_world)) []
            = OK (a2, s2)
         /\ analyzer_options a1 = []
         /\ analyzer_options a2 = []).
Proof.
  split; [|split].
  - do 4 eexists.
    split; [vm_compute; reflexivity|].
    split; [vm_compute; reflexivity|].
    split; [reflexivity|]. split; [reflexivity|]. discriminate.
  - do 4 eexists.
    split; [vm_compute; reflexivity|].
    split; [vm_compute; reflexivity|].
    split; reflexivity.
  - do 4 eexists.
    split; [vm_compute; reflexivity|].
    split; [vm_compute; reflexivity|].
    split; reflexivity.
Qed.
